(** * NetGraph: view-state synchronisation of the network diagram

    A shallow embedding of the [NetGraph] class (the network diagram of
    the GUI): its registries of items and connections for the main view
    and the minimap, the index of connections waiting for an item that
    does not exist yet, the pan / zoom state with its gesture handlers,
    the minimap extent computation and the dispatcher of server messages.

    Conventions of the embedding.
    - JavaScript numbers are idealised as exact rationals ([Qc]); rounding
      and the non-finite values of floating point are outside the model.
      A division is followed where its divisor is not zero: the quotient
      [Qc] gives at zero is not the one of the browser, and a theorem about
      a value that comes out of a division carries the hypothesis that the
      divisor is not zero.
    - A JavaScript object used as a dictionary is a [gmap] keyed by uid.
      A [for ... in] loop runs over [map_to_list]; nothing proved below
      depends on the order of enumeration.  The dictionary is followed on
      the uids that are not property names of [Object.prototype]
      ([ordinary]): under such a name a plain object answers a lookup with
      what it inherits, and the map does not.  A theorem about a lookup, a
      registration or a creation carries the hypothesis that the uids it
      meets are ordinary.
    - Connection objects are shared between a registry and the index of
      waiting connections, so they live in a store ([conns]) and are named
      by their location; items are reached through the registries only and
      are stored there by value.
    - What the class does to its surroundings (the socket, the console, the
      viewport, the DOM) is appended to a log of events.
    - A dereference of [undefined] ends a handler with a [TypeError]; the
      state reached so far is kept, as it is in the browser. *)

From Stdlib Require Import QArith Qcanon Field Ascii String.
From stdpp Require Import base numbers option list strings gmap fin_maps.

Set Warnings "-clear-no-such-hyp".

Local Open Scope Qc_scope.

(** ** Numbers *)

(** Decimal literals of the source: [qf n d] is the rational [n / d]. *)
Definition qf (n : Z) (d : positive) : Qc := Q2Qc (n # d).

(** [Math.abs] and [Math.max] on two arguments. *)
Definition Math_abs (a : Qc) : Qc := if decide (a < 0) then - a else a.
Definition Math_max (a b : Qc) : Qc := if decide (a < b) then b else a.

(** ** Items *)
Module NetGraphItem.

(** Modelled from the spec: the class NetGraphItem is not among the
    sources.  An item carries a stable uid, the uid of its parent (if
    any), a position and a size in model space, its nesting depth, the
    expanded flag, a label, the view it belongs to and, for an item of the
    main view, its twin in the minimap.  Drawing is recorded by counting the
    calls of [redraw] and [redraw_position]. *)
Record t := mk {
  uid : string;
  parent : option string;
  x : Qc;
  y : Qc;
  width : Qc;
  height : Qc;
  depth : nat;
  expanded : bool;
  label : string;
  minimap : bool;
  mini_item : option string;
  redraws : nat;
  position_redraws : nat
}.

Definition with_x v i :=
  mk (uid i) (parent i) v (y i) (width i) (height i) (depth i) (expanded i)
    (label i) (minimap i) (mini_item i) (redraws i) (position_redraws i).
Definition with_y v i :=
  mk (uid i) (parent i) (x i) v (width i) (height i) (depth i) (expanded i)
    (label i) (minimap i) (mini_item i) (redraws i) (position_redraws i).
Definition with_width v i :=
  mk (uid i) (parent i) (x i) (y i) v (height i) (depth i) (expanded i)
    (label i) (minimap i) (mini_item i) (redraws i) (position_redraws i).
Definition with_height v i :=
  mk (uid i) (parent i) (x i) (y i) (width i) v (depth i) (expanded i)
    (label i) (minimap i) (mini_item i) (redraws i) (position_redraws i).
Definition with_expanded v i :=
  mk (uid i) (parent i) (x i) (y i) (width i) (height i) (depth i) v
    (label i) (minimap i) (mini_item i) (redraws i) (position_redraws i).
Definition with_label v i :=
  mk (uid i) (parent i) (x i) (y i) (width i) (height i) (depth i)
    (expanded i) v (minimap i) (mini_item i) (redraws i)
    (position_redraws i).
Definition with_redraws v i :=
  mk (uid i) (parent i) (x i) (y i) (width i) (height i) (depth i)
    (expanded i) (label i) (minimap i) (mini_item i) v (position_redraws i).
Definition with_position_redraws v i :=
  mk (uid i) (parent i) (x i) (y i) (width i) (height i) (depth i)
    (expanded i) (label i) (minimap i) (mini_item i) (redraws i) v.

Definition redraw (i : t) : t := with_redraws (S (redraws i)) i.
Definition redraw_position (i : t) : t :=
  with_position_redraws (S (position_redraws i)) i.
Definition set_label (name : string) (i : t) : t := with_label name i.

End NetGraphItem.

(** ** Connections *)

(** Connection objects are named by their location in the store. *)
Abbreviation loc := nat (only parsing).

Module NetGraphConnection.

(** Modelled from the spec: the class NetGraphConnection is not among the
    sources.  A connection carries a stable uid, the candidate uids of its
    two endpoints ([pres], [posts]), the endpoints it is currently attached
    to ([pre], [post]; [None] is the source's [null]), the recurrent and
    removed flags, the view it belongs to and, for a connection of the main
    view, its twin.  [redraws] counts the calls of [redraw]. *)
Record t := mk {
  uid : string;
  pres : list string;
  posts : list string;
  pre : option string;
  post : option string;
  recurrent : bool;
  removed : bool;
  minimap : bool;
  mini_conn : option loc;
  redraws : nat
}.

Definition with_pres v c :=
  mk (uid c) v (posts c) (pre c) (post c) (recurrent c) (removed c)
    (minimap c) (mini_conn c) (redraws c).
Definition with_posts v c :=
  mk (uid c) (pres c) v (pre c) (post c) (recurrent c) (removed c)
    (minimap c) (mini_conn c) (redraws c).
Definition with_pre v c :=
  mk (uid c) (pres c) (posts c) v (post c) (recurrent c) (removed c)
    (minimap c) (mini_conn c) (redraws c).
Definition with_post v c :=
  mk (uid c) (pres c) (posts c) (pre c) v (recurrent c) (removed c)
    (minimap c) (mini_conn c) (redraws c).
Definition with_recurrent v c :=
  mk (uid c) (pres c) (posts c) (pre c) (post c) v (removed c) (minimap c)
    (mini_conn c) (redraws c).
Definition with_removed v c :=
  mk (uid c) (pres c) (posts c) (pre c) (post c) (recurrent c) v (minimap c)
    (mini_conn c) (redraws c).
Definition with_redraws v c :=
  mk (uid c) (pres c) (posts c) (pre c) (post c) (recurrent c) (removed c)
    (minimap c) (mini_conn c) v.

End NetGraphConnection.

(** ** Messages, notifications and events *)

(** A decoded inbound message: the object [JSON.parse] returns.  [type] is
    [None] when the message has no string under that key.  Every other field
    is taken to be present, with the type its handler expects: a message
    that lacks a field its handler reads is outside the model, and nothing
    is proved about it.  The endpoint candidates [pres] and [posts] are
    lists of uids, which [===] compares as strings. *)
Module Message.

Record t := mk {
  type : option string;
  uid : string;
  pos : Qc * Qc;
  size : Qc * Qc;
  parent : option string;
  label : string;
  pres : list string;
  posts : list string;
  pan : Qc * Qc;
  zoom : Qc;
  config : string;
  code : string;
  name : string;
  notify_server : bool
}.

End Message.

(** What [notify] sends to the server. *)
Inductive Notification :=
| act_pan (x y : Qc)
| act_zoom (scale x y : Qc)
| act_feedforward_layout.

(** The calls that leave the class, in the order they are made. *)
Inductive Event :=
| console_warn (msg : string)
| ws_send (info : Notification)
| viewport_set_scale (s : Qc)
| viewport_set_position (x y : Qc)
| css_font_size (em : Qc)
| view_set_attribute (attr : string) (value : Qc)
| minimap_visibility (visible : bool)
| menu_hide_any
| save_layouts
| component_update_layout (uid config : string)
| component_remove (uid : string) (notify_server : bool)
| eval_code (code : string).

Record Config := {
  zoom_fonts : bool;
  aspect_resize : bool;
  font_size : Qc;
  transparent_nets : bool
}.

(** ** The state of the diagram *)

Record NetGraph := {
  config : Config;
  offsetX : Qc;
  offsetY : Qc;
  scale : Qc;
  svg_objects : gmap string NetGraphItem.t;
  svg_conns : gmap string loc;
  minimap_objects : gmap string NetGraphItem.t;
  minimap_conns : gmap string loc;
  mm_min_x : Qc;
  mm_max_x : Qc;
  mm_min_y : Qc;
  mm_max_y : Qc;
  mm_scale : Qc;
  mm_display : bool;
  mm_width : Qc;
  mm_height : Qc;
  width : Qc;
  height : Qc;
  tool_height : Qc;
  collapsed_conns : gmap string (list loc);
  conns : list NetGraphConnection.t;
  trace : list Event
}.

Definition with_config v ng :=
  Build_NetGraph v (offsetX ng) (offsetY ng) (scale ng) (svg_objects ng)
    (svg_conns ng) (minimap_objects ng) (minimap_conns ng) (mm_min_x ng)
    (mm_max_x ng) (mm_min_y ng) (mm_max_y ng) (mm_scale ng) (mm_display ng)
    (mm_width ng) (mm_height ng) (width ng) (height ng) (tool_height ng)
    (collapsed_conns ng) (conns ng) (trace ng).
Definition with_offsetX v ng :=
  Build_NetGraph (config ng) v (offsetY ng) (scale ng) (svg_objects ng)
    (svg_conns ng) (minimap_objects ng) (minimap_conns ng) (mm_min_x ng)
    (mm_max_x ng) (mm_min_y ng) (mm_max_y ng) (mm_scale ng) (mm_display ng)
    (mm_width ng) (mm_height ng) (width ng) (height ng) (tool_height ng)
    (collapsed_conns ng) (conns ng) (trace ng).
Definition with_offsetY v ng :=
  Build_NetGraph (config ng) (offsetX ng) v (scale ng) (svg_objects ng)
    (svg_conns ng) (minimap_objects ng) (minimap_conns ng) (mm_min_x ng)
    (mm_max_x ng) (mm_min_y ng) (mm_max_y ng) (mm_scale ng) (mm_display ng)
    (mm_width ng) (mm_height ng) (width ng) (height ng) (tool_height ng)
    (collapsed_conns ng) (conns ng) (trace ng).
Definition with_scale v ng :=
  Build_NetGraph (config ng) (offsetX ng) (offsetY ng) v (svg_objects ng)
    (svg_conns ng) (minimap_objects ng) (minimap_conns ng) (mm_min_x ng)
    (mm_max_x ng) (mm_min_y ng) (mm_max_y ng) (mm_scale ng) (mm_display ng)
    (mm_width ng) (mm_height ng) (width ng) (height ng) (tool_height ng)
    (collapsed_conns ng) (conns ng) (trace ng).
Definition with_svg_objects v ng :=
  Build_NetGraph (config ng) (offsetX ng) (offsetY ng) (scale ng) v
    (svg_conns ng) (minimap_objects ng) (minimap_conns ng) (mm_min_x ng)
    (mm_max_x ng) (mm_min_y ng) (mm_max_y ng) (mm_scale ng) (mm_display ng)
    (mm_width ng) (mm_height ng) (width ng) (height ng) (tool_height ng)
    (collapsed_conns ng) (conns ng) (trace ng).
Definition with_svg_conns v ng :=
  Build_NetGraph (config ng) (offsetX ng) (offsetY ng) (scale ng)
    (svg_objects ng) v (minimap_objects ng) (minimap_conns ng) (mm_min_x ng)
    (mm_max_x ng) (mm_min_y ng) (mm_max_y ng) (mm_scale ng) (mm_display ng)
    (mm_width ng) (mm_height ng) (width ng) (height ng) (tool_height ng)
    (collapsed_conns ng) (conns ng) (trace ng).
Definition with_minimap_objects v ng :=
  Build_NetGraph (config ng) (offsetX ng) (offsetY ng) (scale ng)
    (svg_objects ng) (svg_conns ng) v (minimap_conns ng) (mm_min_x ng)
    (mm_max_x ng) (mm_min_y ng) (mm_max_y ng) (mm_scale ng) (mm_display ng)
    (mm_width ng) (mm_height ng) (width ng) (height ng) (tool_height ng)
    (collapsed_conns ng) (conns ng) (trace ng).
Definition with_minimap_conns v ng :=
  Build_NetGraph (config ng) (offsetX ng) (offsetY ng) (scale ng)
    (svg_objects ng) (svg_conns ng) (minimap_objects ng) v (mm_min_x ng)
    (mm_max_x ng) (mm_min_y ng) (mm_max_y ng) (mm_scale ng) (mm_display ng)
    (mm_width ng) (mm_height ng) (width ng) (height ng) (tool_height ng)
    (collapsed_conns ng) (conns ng) (trace ng).
Definition with_mm_min_x v ng :=
  Build_NetGraph (config ng) (offsetX ng) (offsetY ng) (scale ng)
    (svg_objects ng) (svg_conns ng) (minimap_objects ng) (minimap_conns ng)
    v (mm_max_x ng) (mm_min_y ng) (mm_max_y ng) (mm_scale ng)
    (mm_display ng) (mm_width ng) (mm_height ng) (width ng) (height ng)
    (tool_height ng) (collapsed_conns ng) (conns ng) (trace ng).
Definition with_mm_max_x v ng :=
  Build_NetGraph (config ng) (offsetX ng) (offsetY ng) (scale ng)
    (svg_objects ng) (svg_conns ng) (minimap_objects ng) (minimap_conns ng)
    (mm_min_x ng) v (mm_min_y ng) (mm_max_y ng) (mm_scale ng)
    (mm_display ng) (mm_width ng) (mm_height ng) (width ng) (height ng)
    (tool_height ng) (collapsed_conns ng) (conns ng) (trace ng).
Definition with_mm_min_y v ng :=
  Build_NetGraph (config ng) (offsetX ng) (offsetY ng) (scale ng)
    (svg_objects ng) (svg_conns ng) (minimap_objects ng) (minimap_conns ng)
    (mm_min_x ng) (mm_max_x ng) v (mm_max_y ng) (mm_scale ng)
    (mm_display ng) (mm_width ng) (mm_height ng) (width ng) (height ng)
    (tool_height ng) (collapsed_conns ng) (conns ng) (trace ng).
Definition with_mm_max_y v ng :=
  Build_NetGraph (config ng) (offsetX ng) (offsetY ng) (scale ng)
    (svg_objects ng) (svg_conns ng) (minimap_objects ng) (minimap_conns ng)
    (mm_min_x ng) (mm_max_x ng) (mm_min_y ng) v (mm_scale ng)
    (mm_display ng) (mm_width ng) (mm_height ng) (width ng) (height ng)
    (tool_height ng) (collapsed_conns ng) (conns ng) (trace ng).
Definition with_mm_scale v ng :=
  Build_NetGraph (config ng) (offsetX ng) (offsetY ng) (scale ng)
    (svg_objects ng) (svg_conns ng) (minimap_objects ng) (minimap_conns ng)
    (mm_min_x ng) (mm_max_x ng) (mm_min_y ng) (mm_max_y ng) v
    (mm_display ng) (mm_width ng) (mm_height ng) (width ng) (height ng)
    (tool_height ng) (collapsed_conns ng) (conns ng) (trace ng).
Definition with_mm_display v ng :=
  Build_NetGraph (config ng) (offsetX ng) (offsetY ng) (scale ng)
    (svg_objects ng) (svg_conns ng) (minimap_objects ng) (minimap_conns ng)
    (mm_min_x ng) (mm_max_x ng) (mm_min_y ng) (mm_max_y ng) (mm_scale ng) v
    (mm_width ng) (mm_height ng) (width ng) (height ng) (tool_height ng)
    (collapsed_conns ng) (conns ng) (trace ng).
Definition with_collapsed_conns v ng :=
  Build_NetGraph (config ng) (offsetX ng) (offsetY ng) (scale ng)
    (svg_objects ng) (svg_conns ng) (minimap_objects ng) (minimap_conns ng)
    (mm_min_x ng) (mm_max_x ng) (mm_min_y ng) (mm_max_y ng) (mm_scale ng)
    (mm_display ng) (mm_width ng) (mm_height ng) (width ng) (height ng)
    (tool_height ng) v (conns ng) (trace ng).
Definition with_conns v ng :=
  Build_NetGraph (config ng) (offsetX ng) (offsetY ng) (scale ng)
    (svg_objects ng) (svg_conns ng) (minimap_objects ng) (minimap_conns ng)
    (mm_min_x ng) (mm_max_x ng) (mm_min_y ng) (mm_max_y ng) (mm_scale ng)
    (mm_display ng) (mm_width ng) (mm_height ng) (width ng) (height ng)
    (tool_height ng) (collapsed_conns ng) v (trace ng).
Definition with_trace v ng :=
  Build_NetGraph (config ng) (offsetX ng) (offsetY ng) (scale ng)
    (svg_objects ng) (svg_conns ng) (minimap_objects ng) (minimap_conns ng)
    (mm_min_x ng) (mm_max_x ng) (mm_min_y ng) (mm_max_y ng) (mm_scale ng)
    (mm_display ng) (mm_width ng) (mm_height ng) (width ng) (height ng)
    (tool_height ng) (collapsed_conns ng) (conns ng) v.

Definition emit (e : Event) (ng : NetGraph) : NetGraph :=
  with_trace (trace ng ++ [e]) ng.

(** The notifications sent so far, oldest first. *)
Definition sent (ng : NetGraph) : list Notification :=
  omap (fun e => match e with ws_send n => Some n | _ => None end) (trace ng).

(** How a handler ends: normally, or with an uncaught [TypeError]. *)
Inductive Outcome :=
| Done (ng : NetGraph)
| Thrown (ng : NetGraph).

Definition state_of (o : Outcome) : NetGraph :=
  match o with Done ng | Thrown ng => ng end.

Definition and_then (o : Outcome) (k : NetGraph -> Outcome) : Outcome :=
  match o with Done ng => k ng | Thrown ng => Thrown ng end.

Notation "o >>> k" := (and_then o k) (at level 61, left associativity).

(** What the class takes from code that is not among the sources. *)
Class Collaborators := {
  (** [Math.log], which is not a rational function *)
  Math_log : Qc -> Qc;
  (** the method [getMinMaxXY] of an item: min x, max x, min y, max y *)
  getMinMaxXY : NetGraphItem.t -> Qc * Qc * Qc * Qc;
  (** how a connection looks for an endpoint among the items of its view:
      the item it attaches to, if any, and the uids it asks to be told
      about *)
  find_target :
    list string -> gmap string NetGraphItem.t -> option string * list string
}.

(** ** The methods of the class *)

Section Methods.
Context `{Collaborators}.

Implicit Types (ng : NetGraph) (l : loc) (uid target : string).

(** [notify]: report an event back to the server. *)
Definition notify (info : Notification) ng : NetGraph :=
  emit (ws_send info) ng.

(** [update_fonts] *)
Definition update_fonts ng : NetGraph :=
  if zoom_fonts (config ng)
  then emit (css_font_size
               (Qc_of_Z 3 * scale ng * font_size (config ng) / Qc_of_Z 100)) ng
  else emit (css_font_size (font_size (config ng) / Qc_of_Z 100)) ng.

(** Modelled from the spec: the method redraw of a connection, which the
    sources do not contain, recomputes the path of the connection from the
    current state; the model counts the call. *)
Definition conn_redraw l ng : NetGraph :=
  with_conns
    (alter (fun c => NetGraphConnection.with_redraws
                       (S (NetGraphConnection.redraws c)) c) l (conns ng)) ng.

(** [redraw]: redraw all elements. *)
Definition redraw ng : NetGraph :=
  let ng := with_svg_objects (NetGraphItem.redraw <$> svg_objects ng) ng in
  foldl (fun ng kl => conn_redraw kl.2 ng) ng (map_to_list (svg_conns ng)).

(** The setter of the property [scale]. *)
Definition set_scale (val : Qc) ng : NetGraph :=
  if decide (val = scale ng) then ng
  else
    let ng := with_scale val ng in
    let ng := update_fonts ng in
    let ng := redraw ng in
    emit (viewport_set_scale (scale ng)) ng.

(** [set_offset]: pan the screen (and redraw accordingly). *)
Definition set_offset (x y : Qc) ng : NetGraph :=
  let ng := with_offsetX x ng in
  let ng := with_offsetY y ng in
  let ng := redraw ng in
  emit (viewport_set_position x y) ng.

Definition get_scaled_width ng : Qc := width ng * scale ng.
Definition get_scaled_height ng : Qc := height ng * scale ng.

(** [Array.prototype.indexOf] on an array of objects: the position of the
    first element that is the same object, or -1. *)
Fixpoint indexOf (conn : loc) (a : list loc) : Z :=
  match a with
  | [] => -1
  | c :: a' =>
      if decide (c = conn) then 0%Z
      else let i := indexOf conn a' in
           if decide (i = -1)%Z then (-1)%Z else (i + 1)%Z
  end.

(** [register_conn]: register a connection with a target item that it is
    looking for.  The index is a plain object: the test against
    [undefined] is the lookup of the map for every uid that is not a
    property name of [Object.prototype]. *)
Definition register_conn (conn : loc) target ng : NetGraph :=
  match collapsed_conns ng !! target with
  | None => with_collapsed_conns (<[target := [conn]]> (collapsed_conns ng)) ng
  | Some waiting =>
      let index := indexOf conn waiting in
      if decide (index = -1)%Z
      then with_collapsed_conns
             (<[target := waiting ++ [conn]]> (collapsed_conns ng)) ng
      else ng
  end.

(** The registry a connection looks its endpoints up in. *)
Definition objects_of (c : NetGraphConnection.t) ng
  : gmap string NetGraphItem.t :=
  if NetGraphConnection.minimap c then minimap_objects ng else svg_objects ng.

(** Modelled from the spec: the methods find_pre and find_post of a
    connection, which the sources do not contain, resolve an endpoint
    against the registry of the connection's view; an endpoint that is not
    resolved is registered, through [register_conn], under the uids the
    connection waits for. *)
Definition find_endpoint (path : NetGraphConnection.t -> list string) l ng
  : option string * NetGraph :=
  match conns ng !! l with
  | None => (None, ng)
  | Some c =>
      let (found, waits) := find_target (path c) (objects_of c ng) in
      (found, foldl (fun ng t => register_conn l t ng) ng waits)
  end.

Definition find_pre := find_endpoint NetGraphConnection.pres.
Definition find_post := find_endpoint NetGraphConnection.posts.

(** Modelled from the spec: the methods set_pre and set_post, which the
    sources do not contain, store the resolved endpoint. *)
Definition set_pre l (v : option string) ng : NetGraph :=
  with_conns (alter (NetGraphConnection.with_pre v) l (conns ng)) ng.
Definition set_post l (v : option string) ng : NetGraph :=
  with_conns (alter (NetGraphConnection.with_post v) l (conns ng)) ng.

(** The body of the loop of [detect_collapsed_conns]. *)
Definition notify_conn l ng : NetGraph :=
  match conns ng !! l with
  | None => ng
  | Some conn =>
      if NetGraphConnection.removed conn then ng
      else
        let (p, ng) := find_pre l ng in
        let ng := set_pre l p ng in
        let (q, ng) := find_post l ng in
        let ng := set_post l q ng in
        conn_redraw l ng
  end.

(** [detect_collapsed_conns]: when an item is created, see whether any
    connections are waiting for it, and notify them.  As in
    [register_conn], the lookup is the one of the map for every uid that is
    not a property name of [Object.prototype]. *)
Definition detect_collapsed_conns uid ng : NetGraph :=
  match collapsed_conns ng !! uid with
  | Some waiting =>
      let ng := with_collapsed_conns (delete uid (collapsed_conns ng)) ng in
      foldl (fun ng conn => notify_conn conn ng) ng waiting
  | None => ng
  end.

(** [scaleMiniMapViewBox]: scale the viewbox in the minimap. *)
Definition scaleMiniMapViewBox ng : NetGraph :=
  if negb (mm_display ng) then ng
  else
    let mm_w := mm_width ng in
    let mm_h := mm_height ng in
    let w := mm_w * mm_scale ng in
    let h := mm_h * mm_scale ng in
    let disp_w := (mm_max_x ng - mm_min_x ng) * w in
    let disp_h := (mm_max_y ng - mm_min_y ng) * h in
    let view_offsetX :=
      - (mm_min_x ng + offsetX ng) * w + (mm_w - disp_w) / Qc_of_Z 2 in
    let view_offsetY :=
      - (mm_min_y ng + offsetY ng) * h + (mm_h - disp_h) / Qc_of_Z 2 in
    let ng := emit (view_set_attribute "x" view_offsetX) ng in
    let ng := emit (view_set_attribute "y" view_offsetY) ng in
    let ng := emit (view_set_attribute "width" (w / scale ng)) ng in
    emit (view_set_attribute "height" (h / scale ng)) ng.

(** One round of the loop of [scaleMiniMap]; the boolean is the local
    variable [first_item]. *)
Definition scaleMiniMap_step (acc : bool * NetGraph)
    (entry : string * NetGraphItem.t) : bool * NetGraph :=
  let (first_item, ng) := acc in
  let item := entry.2 in
  if decide (1 < NetGraphItem.depth item)%nat then acc
  else
    let '(min_x, max_x, min_y, max_y) := getMinMaxXY item in
    if first_item
    then
      let ng := with_mm_min_x min_x ng in
      let ng := with_mm_max_x max_x ng in
      let ng := with_mm_min_y min_y ng in
      let ng := with_mm_max_y max_y ng in
      (false, ng)
    else
      let ng := if decide (min_x < mm_min_x ng)
                then with_mm_min_x min_x ng else ng in
      let ng := if decide (mm_max_x ng < max_x)
                then with_mm_max_x max_x ng else ng in
      let ng := if decide (min_y < mm_min_y ng)
                then with_mm_min_y min_y ng else ng in
      let ng := if decide (mm_max_y ng < max_y)
                then with_mm_max_y max_y ng else ng in
      (first_item, ng).

(** [scaleMiniMap]: calculate the minimap position offsets and scaling.
    The two divisions are followed where the larger side of the box is not
    zero. *)
Definition scaleMiniMap ng : NetGraph :=
  if negb (mm_display ng) then ng
  else if decide (length (map_to_list (svg_objects ng)) = 0%nat) then ng
  else
    let ng :=
      (foldl scaleMiniMap_step (true, ng) (map_to_list (svg_objects ng))).2 in
    let ng :=
      with_mm_scale
        (1 / Math_max (mm_max_x ng - mm_min_x ng) (mm_max_y ng - mm_min_y ng))
        ng in
    let ng := with_mm_min_x (mm_min_x ng - mm_scale ng * qf 5 100) ng in
    let ng := with_mm_max_x (mm_max_x ng + mm_scale ng * qf 5 100) ng in
    let ng := with_mm_min_y (mm_min_y ng - mm_scale ng * qf 5 100) ng in
    let ng := with_mm_max_y (mm_max_y ng + mm_scale ng * qf 5 100) ng in
    let ng :=
      with_mm_scale
        (1 / Math_max (mm_max_x ng - mm_min_x ng) (mm_max_y ng - mm_min_y ng))
        ng in
    let ng := redraw ng in
    scaleMiniMapViewBox ng.

(** [toggleMiniMap] *)
Definition toggleMiniMap ng : NetGraph :=
  if mm_display ng
  then with_mm_display false (emit (minimap_visibility false) ng)
  else scaleMiniMap (with_mm_display true (emit (minimap_visibility true) ng)).

(** Modelled from the spec: the constructor of NetGraphItem, which the
    sources do not contain, takes uid, parent, position and size from the
    descriptor and links a main-view item to its twin.  An item without a
    parent is at nesting depth 1, any other one level below its parent. *)
Definition new_NetGraphItem ng (info : Message.t) (minimap : bool)
    (mini_item : option string) : NetGraphItem.t :=
  let objects := if minimap then minimap_objects ng else svg_objects ng in
  let depth :=
    match Message.parent info with
    | None => 1%nat
    | Some p => S (from_option NetGraphItem.depth 0%nat (objects !! p))
    end in
  NetGraphItem.mk (Message.uid info) (Message.parent info)
    (Message.pos info).1 (Message.pos info).2
    (Message.size info).1 (Message.size info).2
    depth false (Message.label info) minimap mini_item 0 0.

(** [create_object]: create a new item; a connection that is looking for
    it is notified.  The two assignments put the items under the uid, as
    they do in a plain object for every uid but [__proto__]. *)
Definition create_object (info : Message.t) ng : NetGraph :=
  let item_mini := new_NetGraphItem ng info true None in
  let ng :=
    with_minimap_objects
      (<[Message.uid info := item_mini]> (minimap_objects ng)) ng in
  let item :=
    new_NetGraphItem ng info false (Some (NetGraphItem.uid item_mini)) in
  let ng :=
    with_svg_objects (<[Message.uid info := item]> (svg_objects ng)) ng in
  let ng := detect_collapsed_conns (NetGraphItem.uid item) ng in
  let ng := detect_collapsed_conns (NetGraphItem.uid item_mini) ng in
  scaleMiniMap ng.

(** Modelled from the spec: the constructor of NetGraphConnection, which
    the sources do not contain, allocates the connection with the endpoint
    candidates of the descriptor, the recurrent flag (pre-root equals
    post-root) and no endpoint, then tries to resolve each endpoint at
    once. *)
Definition new_NetGraphConnection (info : Message.t) (minimap : bool)
    (mini_conn : option loc) ng : loc * NetGraph :=
  let l := length (conns ng) in
  let conn :=
    NetGraphConnection.mk (Message.uid info)
      (Message.pres info) (Message.posts info) None None
      (bool_decide (head (Message.pres info) = head (Message.posts info)))
      false minimap mini_conn 0 in
  let ng := with_conns (conns ng ++ [conn]) ng in
  let (p, ng) := find_pre l ng in
  let ng := set_pre l p ng in
  let (q, ng) := find_post l ng in
  let ng := set_post l q ng in
  (l, ng).

(** [create_connection]: create a new connection. *)
Definition create_connection (info : Message.t) ng : NetGraph :=
  let (conn_mini, ng) := new_NetGraphConnection info true None ng in
  let ng :=
    with_minimap_conns
      (<[Message.uid info := conn_mini]> (minimap_conns ng)) ng in
  let (conn, ng) := new_NetGraphConnection info false (Some conn_mini) ng in
  with_svg_conns (<[Message.uid info := conn]> (svg_conns ng)) ng.

(** Modelled from the spec: the methods expand and collapse of an item,
    which the sources do not contain; called by the dispatcher they set the
    expanded state of the item and send nothing back to the server. *)
Definition item_expand uid ng : NetGraph :=
  with_svg_objects
    (alter (NetGraphItem.with_expanded true) uid (svg_objects ng)) ng.
Definition item_collapse uid ng : NetGraph :=
  with_svg_objects
    (alter (NetGraphItem.with_expanded false) uid (svg_objects ng)) ng.

(** Modelled from the spec: the method remove of an item, which the
    sources do not contain, removes both twins; every connection that has
    the item as an endpoint runs its endpoint resolution again. *)
Definition item_remove uid ng : NetGraph :=
  let ng := with_svg_objects (delete uid (svg_objects ng)) ng in
  let ng := with_minimap_objects (delete uid (minimap_objects ng)) ng in
  foldl
    (fun ng l =>
       match conns ng !! l with
       | Some c =>
           if bool_decide (NetGraphConnection.pre c = Some uid
                           ∨ NetGraphConnection.post c = Some uid)
           then notify_conn l ng else ng
       | None => ng
       end)
    ng (seq 0 (length (conns ng))).

(** Modelled from the spec: the method remove of a connection, which the
    sources do not contain, marks the connection and its twin as removed. *)
Definition conn_remove l ng : NetGraph :=
  match conns ng !! l with
  | None => ng
  | Some c =>
      let mark := alter (NetGraphConnection.with_removed true) in
      let cs := mark l (conns ng) in
      with_conns
        (from_option (fun m => mark m cs) cs (NetGraphConnection.mini_conn c))
        ng
  end.

(** Modelled from the spec: the methods set_pres, set_posts and
    set_recurrent of a connection, which the sources do not contain,
    replace the endpoint candidates (and resolve the endpoint again) and
    store the recurrent flag. *)
Definition set_pres l (pres : list string) ng : NetGraph :=
  let ng :=
    with_conns (alter (NetGraphConnection.with_pres pres) l (conns ng)) ng in
  let (p, ng) := find_pre l ng in
  set_pre l p ng.
Definition set_posts l (posts : list string) ng : NetGraph :=
  let ng :=
    with_conns (alter (NetGraphConnection.with_posts posts) l (conns ng)) ng in
  let (q, ng) := find_post l ng in
  set_post l q ng.
Definition set_recurrent l (recurrent : bool) ng : NetGraph :=
  with_conns
    (alter (NetGraphConnection.with_recurrent recurrent) l (conns ng)) ng.

(** The text [console.warn] prints for a message that is not understood:
    the message is an object, which the concatenation turns into a fixed
    string. *)
Definition invalid_message : string := "invalid message:[object Object]".

(** [on_message]: event handler for received WebSocket messages.  The
    components that [all_components.by_uid] returns and the code handed to
    [eval] are outside the class; calling them is recorded as an event. *)
Definition on_message (data : Message.t) ng : Outcome :=
  let uid := Message.uid data in
  let type_is (tag : string) := bool_decide (Message.type data = Some tag) in
  if type_is "net" then Done (create_object data ng)
  else if type_is "ens" then Done (create_object data ng)
  else if type_is "node" then Done (create_object data ng)
  else if type_is "conn" then Done (create_connection data ng)
  else if type_is "pan"
  then Done (set_offset (Message.pan data).1 (Message.pan data).2 ng)
  else if type_is "zoom" then Done (set_scale (Message.zoom data) ng)
  else if type_is "expand" then
    match svg_objects ng !! uid with
    | None => Thrown ng
    | Some _ => Done (item_expand uid ng)
    end
  else if type_is "collapse" then
    match svg_objects ng !! uid with
    | None => Thrown ng
    | Some _ => Done (item_collapse uid ng)
    end
  else if type_is "pos_size" then
    match svg_objects ng !! uid with
    | None => Thrown ng
    | Some item =>
        let item := NetGraphItem.with_x (Message.pos data).1 item in
        let item := NetGraphItem.with_y (Message.pos data).2 item in
        let item := NetGraphItem.with_width (Message.size data).1 item in
        let item := NetGraphItem.with_height (Message.size data).2 item in
        let item := NetGraphItem.redraw item in
        let ng := with_svg_objects (<[uid := item]> (svg_objects ng)) ng in
        Done (scaleMiniMap ng)
    end
  else if type_is "config"
  then Done (emit (component_update_layout uid (Message.config data)) ng)
  else if type_is "js" then Done (emit (eval_code (Message.code data)) ng)
  else if type_is "rename" then
    match svg_objects ng !! uid with
    | None => Thrown ng
    | Some _ =>
        Done (with_svg_objects
                (alter (NetGraphItem.set_label (Message.name data)) uid
                   (svg_objects ng)) ng)
    end
  else if type_is "remove" then
    match svg_objects ng !! uid with
    | Some _ => Done (item_remove uid ng)
    | None =>
        match svg_conns ng !! uid with
        | Some conn => Done (conn_remove conn ng)
        | None => Thrown ng
        end
    end
  else if type_is "reconnect" then
    match svg_conns ng !! uid with
    | None => Thrown ng
    | Some conn =>
        let ng := set_pres conn (Message.pres data) ng in
        let ng := set_posts conn (Message.posts data) ng in
        let ng :=
          set_recurrent conn
            (bool_decide
               (head (Message.pres data) = head (Message.posts data))) ng in
        Done (conn_redraw conn ng)
    end
  else if type_is "delete_graph"
  then Done (emit (component_remove uid (Message.notify_server data)) ng)
  else Done (emit (console_warn invalid_message) ng).

(** Messages are handled one after the other; an uncaught error ends the
    handler of one message and leaves the next one to run. *)
Definition on_messages (msgs : list Message.t) ng : NetGraph :=
  foldl (fun ng data => state_of (on_message data ng)) ng msgs.

(** ** Gestures *)

(** Dragging the background pans the full area. *)
Record DragEvent := { dx : Qc; dy : Qc }.

Definition drag_onstart ng : NetGraph := emit menu_hide_any ng.

(** One round of the first loop of the move handler. *)
Definition drag_onmove_item (key : string) ng : Outcome :=
  let ng :=
    with_svg_objects
      (alter NetGraphItem.redraw_position key (svg_objects ng)) ng in
  if mm_display ng then
    match minimap_objects ng !! key with
    | None => Thrown ng
    | Some _ =>
        Done (with_minimap_objects
                (alter NetGraphItem.redraw_position key (minimap_objects ng))
                ng)
    end
  else Done ng.

(** The move handler of a drag.  The two divisions are followed where the
    scaled width and the scaled height of the canvas are not zero. *)
Definition drag_onmove (event : DragEvent) ng : Outcome :=
  let ng := with_offsetX (offsetX ng + dx event / get_scaled_width ng) ng in
  let ng := with_offsetY (offsetY ng + dy event / get_scaled_height ng) ng in
  foldl (fun o entry => o >>> drag_onmove_item entry.1) (Done ng)
    (map_to_list (svg_objects ng))
  >>> fun ng =>
  let ng :=
    foldl (fun ng kl => conn_redraw kl.2 ng) ng (map_to_list (svg_conns ng)) in
  let ng := emit (viewport_set_position (offsetX ng) (offsetY ng)) ng in
  Done (scaleMiniMapViewBox ng).

(** Let the server know what happened. *)
Definition drag_onend ng : NetGraph :=
  notify (act_pan (offsetX ng) (offsetY ng)) ng.

(** A whole drag: the start, one move per tick, the end. *)
Definition drag_moves (ticks : list DragEvent) ng : NetGraph :=
  foldl (fun ng event => state_of (drag_onmove event ng)) ng ticks.
Definition drag (ticks : list DragEvent) ng : NetGraph :=
  drag_onend (drag_moves ticks (drag_onstart ng)).

(** The scroll wheel zooms the full area by changing [scale]; the offsets
    change too, to zoom into a particular point of the space. *)
Record WheelEvent := {
  clientX : Qc;
  clientY : Qc;
  deltaMode : Z;
  deltaY : Qc
}.

Definition wheel_delta (event : WheelEvent) : Qc :=
  if decide (deltaMode event = 1%Z) then
    if decide (deltaY event <> 0) then
      let delta := Math_log (1 + Math_abs (deltaY event)) * Qc_of_Z 60 in
      if decide (deltaY event < 0) then delta * - 1 else delta
    else 0
  else if decide (deltaMode event = 2%Z) then 0
  else deltaY event.

Definition wheel_z_scale (delta : Qc) : Qc :=
  let z_scale := 1 + Math_abs delta / Qc_of_Z 600 in
  if decide (0 < delta) then 1 / z_scale else z_scale.

(** The wheel handler from the point where the cursor position [x], [y]
    and the factor [z_scale] are known.  The divisions are followed where
    the scale is not zero. *)
Definition wheel_zoom (x y z_scale : Qc) ng : NetGraph :=
  let ng := emit save_layouts ng in
  let xx := x / scale ng - offsetX ng in
  let yy := y / scale ng - offsetY ng in
  let ng := with_offsetX ((offsetX ng + xx) / z_scale - xx) ng in
  let ng := with_offsetY ((offsetY ng + yy) / z_scale - yy) ng in
  let ng := set_scale (z_scale * scale ng) ng in
  let ng := emit (viewport_set_position (offsetX ng) (offsetY ng)) ng in
  let ng := scaleMiniMapViewBox ng in
  let ng := redraw ng in
  notify (act_zoom (scale ng) (offsetX ng) (offsetY ng)) ng.

Definition on_wheel (event : WheelEvent) ng : NetGraph :=
  let ng := emit menu_hide_any ng in
  let x := clientX event / width ng in
  let y := (clientY event - tool_height ng) / height ng in
  wheel_zoom x y (wheel_z_scale (wheel_delta event)) ng.

(** The entry of the context menu. *)
Definition auto_layout ng : NetGraph := notify act_feedforward_layout ng.

(** ** The constructor

    The sizes are what the browser measures for the canvas, the toolbar and
    the minimap. *)
Definition invalid_uid (uid : string) : bool :=
  match uid with
  | String c _ => bool_decide (c = "<"%char)
  | EmptyString => false
  end.

Definition new_NetGraph (config : Config) (uid : string)
    (width height tool_height mm_width mm_height : Qc) : NetGraph :=
  let ng :=
    {| config := config;
       offsetX := 0; offsetY := 0; scale := 1;
       svg_objects := ∅; svg_conns := ∅;
       minimap_objects := ∅; minimap_conns := ∅;
       mm_min_x := 0; mm_max_x := 0; mm_min_y := 0; mm_max_y := 0;
       mm_scale := qf 1 10;
       mm_display := true;
       mm_width := mm_width; mm_height := mm_height;
       width := width; height := height; tool_height := tool_height;
       collapsed_conns := ∅;
       conns := [];
       trace :=
         if invalid_uid uid
         then [console_warn ("invalid uid for NetGraph: " +:+ uid)]
         else [] |} in
  let ng := toggleMiniMap ng in
  update_fonts ng.

End Methods.

(** * The settings and the resize handler *)

Definition with_mm_width v ng :=
  Build_NetGraph (config ng) (offsetX ng) (offsetY ng) (scale ng)
    (svg_objects ng) (svg_conns ng) (minimap_objects ng) (minimap_conns ng)
    (mm_min_x ng) (mm_max_x ng) (mm_min_y ng) (mm_max_y ng) (mm_scale ng)
    (mm_display ng) v (mm_height ng) (width ng) (height ng) (tool_height ng)
    (collapsed_conns ng) (conns ng) (trace ng).
Definition with_mm_height v ng :=
  Build_NetGraph (config ng) (offsetX ng) (offsetY ng) (scale ng)
    (svg_objects ng) (svg_conns ng) (minimap_objects ng) (minimap_conns ng)
    (mm_min_x ng) (mm_max_x ng) (mm_min_y ng) (mm_max_y ng) (mm_scale ng)
    (mm_display ng) (mm_width ng) v (width ng) (height ng) (tool_height ng)
    (collapsed_conns ng) (conns ng) (trace ng).
Definition with_width v ng :=
  Build_NetGraph (config ng) (offsetX ng) (offsetY ng) (scale ng)
    (svg_objects ng) (svg_conns ng) (minimap_objects ng) (minimap_conns ng)
    (mm_min_x ng) (mm_max_x ng) (mm_min_y ng) (mm_max_y ng) (mm_scale ng)
    (mm_display ng) (mm_width ng) (mm_height ng) v (height ng) (tool_height ng)
    (collapsed_conns ng) (conns ng) (trace ng).
Definition with_height v ng :=
  Build_NetGraph (config ng) (offsetX ng) (offsetY ng) (scale ng)
    (svg_objects ng) (svg_conns ng) (minimap_objects ng) (minimap_conns ng)
    (mm_min_x ng) (mm_max_x ng) (mm_min_y ng) (mm_max_y ng) (mm_scale ng)
    (mm_display ng) (mm_width ng) (mm_height ng) (width ng) v (tool_height ng)
    (collapsed_conns ng) (conns ng) (trace ng).

(** The setter of the property [zoom_fonts]: scale fonts when zooming. *)
Definition set_zoom_fonts (val : bool) (ng : NetGraph) : NetGraph :=
  if decide (val = zoom_fonts (config ng)) then ng
  else
    let ng :=
      with_config
        {| zoom_fonts := val;
           aspect_resize := aspect_resize (config ng);
           font_size := font_size (config ng);
           transparent_nets := transparent_nets (config ng) |} ng in
    update_fonts ng.

(** The setter of the property [aspect_resize]: preserve aspect ratios on
    window resize. *)
Definition set_aspect_resize (val : bool) (ng : NetGraph) : NetGraph :=
  if decide (val = aspect_resize (config ng)) then ng
  else
    with_config
      {| zoom_fonts := zoom_fonts (config ng);
         aspect_resize := val;
         font_size := font_size (config ng);
         transparent_nets := transparent_nets (config ng) |} ng.

(** The setter of the property [font_size]. *)
Definition set_font_size (val : Qc) (ng : NetGraph) : NetGraph :=
  if decide (val = font_size (config ng)) then ng
  else
    let ng :=
      with_config
        {| zoom_fonts := zoom_fonts (config ng);
           aspect_resize := aspect_resize (config ng);
           font_size := val;
           transparent_nets := transparent_nets (config ng) |} ng in
    update_fonts ng.

(** What [on_resize] takes from code that is not among the sources: the
    functions [scale_width] and [scale_height] of the viewport, and the
    fields [w] and [h] of an item, which the class only reads. *)
Class Viewport := {
  viewport_scale_width : Qc -> Qc;
  viewport_scale_height : Qc -> Qc;
  item_w : NetGraphItem.t -> Qc;
  item_h : NetGraphItem.t -> Qc
}.

(** What the browser measures when the window is resized: the size of the
    canvas and the size of the minimap. *)
Record Measured := {
  svg_width : Qc;
  svg_height : Qc;
  minimap_width : Qc;
  minimap_height : Qc
}.

Section Resize.
Context `{Viewport}.

(** The body of the loop of [on_resize]. *)
Definition resize_item (width height : Qc) (ng : NetGraph)
    (item : NetGraphItem.t) : NetGraphItem.t :=
  if decide (NetGraphItem.depth item = 1%nat) then
    let new_width := viewport_scale_width (item_w item) / scale ng in
    let new_height := viewport_scale_height (item_h item) / scale ng in
    let item := NetGraphItem.with_width (new_width / (Qc_of_Z 2 * width)) item in
    NetGraphItem.with_height (new_height / (Qc_of_Z 2 * height)) item
  else item.

(** [on_resize]: handler for resizing the full SVG. *)
Definition on_resize (m : Measured) (ng : NetGraph) : NetGraph :=
  let width := svg_width m in
  let height := svg_height m in
  let ng :=
    if aspect_resize (config ng)
    then with_svg_objects (resize_item width height ng <$> svg_objects ng) ng
    else ng in
  let ng := with_width width ng in
  let ng := with_height height ng in
  let ng := with_mm_width (minimap_width m) ng in
  let ng := with_mm_height (minimap_height m) ng in
  redraw ng.

End Resize.

(** ** A concrete instance of the collaborators *)

(** Modelled from the spec: the geometric extent of an item, taken as its
    position plus and minus its size. *)
Definition item_extent (i : NetGraphItem.t) : Qc * Qc * Qc * Qc :=
  (NetGraphItem.x i - NetGraphItem.width i,
   NetGraphItem.x i + NetGraphItem.width i,
   NetGraphItem.y i - NetGraphItem.height i,
   NetGraphItem.y i + NetGraphItem.height i).

(** Modelled from the spec: the resolution policy of a connection.  The
    path runs from the outermost uid to the innermost; the endpoint is the
    deepest uid of the path that exists as an item; if none exists the
    resolution fails and the connection waits for the first uid. *)
Definition deepest_existing (path : list string)
    (objects : gmap string NetGraphItem.t) : option string * list string :=
  match last (filter (fun u => is_Some (objects !! u)) path) with
  | Some u => (Some u, [])
  | None => (None, option_list (head path))
  end.

(** A rational stand-in for the logarithm (the first term of its series in
    [(x - 1) / (x + 1)]); it only serves to run the model. *)
Definition log_approx (a : Qc) : Qc := Qc_of_Z 2 * (a - 1) / (a + 1).

Definition collaborators : Collaborators :=
  {| Math_log := log_approx;
     getMinMaxXY := item_extent;
     find_target := deepest_existing |}.

(** A viewport that scales by the size of a window of 1000 by 800 pixels;
    the fields [w] and [h] of an item are taken to be its width and height
    in model space.  It only serves to run the model. *)
Definition sample_viewport : Viewport :=
  {| viewport_scale_width := fun w => w * Qc_of_Z 1000;
     viewport_scale_height := fun h => h * Qc_of_Z 800;
     item_w := NetGraphItem.width;
     item_h := NetGraphItem.height |}.

(** * The vocabulary of the properties *)

Section Vocabulary.
Context `{Collaborators}.

(** ** The index of waiting connections *)

(** The number of entries of the index for a connection and a uid. *)
Definition entries (conn : loc) (target : string) (ng : NetGraph) : nat :=
  length (filter (fun c => c = conn) (default [] (collapsed_conns ng !! target))).

(** A run of registrations. *)
Definition register_conns (calls : list (loc * string)) (ng : NetGraph)
  : NetGraph :=
  foldl (fun ng call => register_conn call.1 call.2 ng) ng calls.

(** How often a connection occurs in a list of waiting connections. *)
Definition occurrences (l : loc) (waiting : list loc) : nat :=
  length (filter (fun l' => l' = l) waiting).

(** ** What a handler leaves alone *)

(** The store of connections after the redraw of the connections at the
    locations [ls], one after the other. *)
Definition redraw_conns (ls : list loc) (cs : list NetGraphConnection.t)
  : list NetGraphConnection.t :=
  foldl
    (fun cs l =>
       alter (fun c => NetGraphConnection.with_redraws
                         (S (NetGraphConnection.redraws c)) c) l cs)
    cs ls.

(** What a zoom is about: the pan offset and the scale. *)
Definition pan_zoom (ng : NetGraph) : Qc * Qc * Qc :=
  (offsetX ng, offsetY ng, scale ng).

(** The size of the canvas and of the toolbar, which a zoom reads. *)
Definition geometry (ng : NetGraph) : Qc * Qc * Qc :=
  (width ng, height ng, tool_height ng).

(** The offsets and the scale after a zoom by [z] at the cursor [x], [y]. *)
Definition zoomed (x y z : Qc) (p : Qc * Qc * Qc) : Qc * Qc * Qc :=
  let '(oX, oY, s) := p in
  ((oX + (x / s - oX)) / z - (x / s - oX),
   (oY + (y / s - oY)) / z - (y / s - oY),
   z * s).

(** What a drag is about: the pan offset, the scaled size of the canvas and
    the notifications sent. *)
Definition drag_view (ng : NetGraph)
  : Qc * Qc * Qc * Qc * Qc * list Notification :=
  (offsetX ng, offsetY ng, scale ng, width ng, height ng, sent ng).

(** The methods of this part change the store of connections and the index
    of waiting connections, and nothing else. *)
Definition resolver_frame (ng ng' : NetGraph) : Prop :=
  ng' = with_conns (conns ng')
          (with_collapsed_conns (collapsed_conns ng') ng).

(** The four registries of the diagram. *)
Definition registries (ng : NetGraph) :
  gmap string NetGraphItem.t * gmap string NetGraphItem.t
  * gmap string loc * gmap string loc :=
  (svg_objects ng, minimap_objects ng, svg_conns ng, minimap_conns ng).

(** ** The dispatcher *)

(** The type tags the dispatcher understands. *)
Definition recognized : list string :=
  ["net"; "ens"; "node"; "conn"; "pan"; "zoom"; "expand"; "collapse";
   "pos_size"; "config"; "js"; "rename"; "remove"; "reconnect";
   "delete_graph"].

(** The messages that create an item or a connection. *)
Definition is_create (data : Message.t) : Prop :=
  Message.type data ∈ [Some "net"; Some "ens"; Some "node"; Some "conn"].

(** Every uid of the main view has its twin in the minimap, and the other
    way round, for items and for connections. *)
Definition twins (ng : NetGraph) : Prop :=
  dom (svg_objects ng) = dom (minimap_objects ng) /\
  dom (svg_conns ng) = dom (minimap_conns ng).

(** ** The extent of the minimap *)

(** The tracked bounding box: min x, max x, min y, max y. *)
Definition extent (ng : NetGraph) : Qc * Qc * Qc * Qc :=
  (mm_min_x ng, mm_max_x ng, mm_min_y ng, mm_max_y ng).

Definition with_extent (box : Qc * Qc * Qc * Qc) (ng : NetGraph) : NetGraph :=
  let '(min_x, max_x, min_y, max_y) := box in
  with_mm_max_y max_y
    (with_mm_min_y min_y (with_mm_max_x max_x (with_mm_min_x min_x ng))).

(** The loop of [scaleMiniMap] as a function of the bounding box alone. *)
Definition extent_step (acc : bool * (Qc * Qc * Qc * Qc))
    (item : NetGraphItem.t) : bool * (Qc * Qc * Qc * Qc) :=
  let '(first_item, (a, b, c, d)) := acc in
  if decide (1 < NetGraphItem.depth item)%nat then acc
  else
    let '(min_x, max_x, min_y, max_y) := getMinMaxXY item in
    if first_item then (false, (min_x, max_x, min_y, max_y))
    else (first_item,
          (if decide (min_x < a) then min_x else a,
           if decide (b < max_x) then max_x else b,
           if decide (min_y < c) then min_y else c,
           if decide (d < max_y) then max_y else d)).

(** The padding of a bounding box by 5% of the scale it gives. *)
Definition scale_of (box : Qc * Qc * Qc * Qc) : Qc :=
  let '(a, b, c, d) := box in 1 / Math_max (b - a) (d - c).

Definition padded (box : Qc * Qc * Qc * Qc) : Qc * Qc * Qc * Qc :=
  let '(a, b, c, d) := box in
  let s := scale_of box in
  (a - s * qf 5 100, b + s * qf 5 100, c - s * qf 5 100, d + s * qf 5 100).

(** The four bounds of the extent of an item. *)
Definition min_x_of (i : NetGraphItem.t) : Qc := (getMinMaxXY i).1.1.1.
Definition max_x_of (i : NetGraphItem.t) : Qc := (getMinMaxXY i).1.1.2.
Definition min_y_of (i : NetGraphItem.t) : Qc := (getMinMaxXY i).1.2.
Definition max_y_of (i : NetGraphItem.t) : Qc := (getMinMaxXY i).2.

(** The items the extent is taken over: those not inside a subnetwork. *)
Definition top_level (i : NetGraphItem.t) : Prop :=
  (NetGraphItem.depth i <= 1)%nat.

(** [a] is the least, or the greatest, value of [f] over the top-level
    items of a list. *)
Definition least_in (f : NetGraphItem.t -> Qc) (items : list NetGraphItem.t)
    (a : Qc) : Prop :=
  (forall i, i ∈ items -> top_level i -> a <= f i) /\
  (exists i, i ∈ items /\ top_level i /\ f i = a).

Definition greatest_in (f : NetGraphItem.t -> Qc)
    (items : list NetGraphItem.t) (b : Qc) : Prop :=
  (forall i, i ∈ items -> top_level i -> f i <= b) /\
  (exists i, i ∈ items /\ top_level i /\ f i = b).

Definition bounding_box (items : list NetGraphItem.t)
    (box : Qc * Qc * Qc * Qc) : Prop :=
  let '(a, b, c, d) := box in
  least_in min_x_of items a /\ greatest_in max_x_of items b /\
  least_in min_y_of items c /\ greatest_in max_y_of items d.

(** The items of the main view, in the order of the loop. *)
Definition items_of (ng : NetGraph) : list NetGraphItem.t :=
  (map_to_list (svg_objects ng)).*2.

(** What [scaleMiniMap] is to compute from the state [ng] into the state
    [ng']: the bounding box of the top-level items, the scale it gives,
    the box padded by 5% of that scale on each side, and the scale
    computed a second time, from the padded box. *)
Definition two_pass_extent (ng ng' : NetGraph) : Prop :=
  exists a b c d : Qc,
    bounding_box (items_of ng) (a, b, c, d) /\
    let s := 1 / Math_max (b - a) (d - c) in
    mm_min_x ng' = a - s * qf 5 100 /\
    mm_max_x ng' = b + s * qf 5 100 /\
    mm_min_y ng' = c - s * qf 5 100 /\
    mm_max_y ng' = d + s * qf 5 100 /\
    mm_scale ng'
    = 1 / Math_max (mm_max_x ng' - mm_min_x ng') (mm_max_y ng' - mm_min_y ng').

(** The extent and the scale of the minimap. *)
Definition minimap_view (ng : NetGraph) : Qc * Qc * Qc * Qc * Qc :=
  (extent ng, mm_scale ng).

(** ** Notified connections *)

Implicit Types (ng : NetGraph) (c : NetGraphConnection.t) (l : loc).

(** What the resolution of a connection depends on, besides the items. *)
Definition resolution_inputs c : list string * list string * bool * bool :=
  (NetGraphConnection.pres c, NetGraphConnection.posts c,
   NetGraphConnection.removed c, NetGraphConnection.minimap c).

(** What a notification does to a connection that was not removed: both
    endpoints are resolved again and the connection is redrawn. *)
Definition renotified ng c : NetGraphConnection.t :=
  let c :=
    NetGraphConnection.with_pre
      (find_target (NetGraphConnection.pres c) (objects_of c ng)).1 c in
  let c :=
    NetGraphConnection.with_post
      (find_target (NetGraphConnection.posts c) (objects_of c ng)).1 c in
  NetGraphConnection.with_redraws (S (NetGraphConnection.redraws c)) c.

Definition notified ng c : NetGraphConnection.t :=
  if NetGraphConnection.removed c then c else renotified ng c.

(** The uids a notified connection asks to be told about. *)
Definition waits_of ng c : list string :=
  if NetGraphConnection.removed c then []
  else (find_target (NetGraphConnection.pres c) (objects_of c ng)).2
       ++ (find_target (NetGraphConnection.posts c) (objects_of c ng)).2.

(** The uids the connections of a list ask to be told about when they are
    notified in the state [ng]. *)
Definition waits_of_all ng (waiting : list loc) : list string :=
  flat_map (fun l => from_option (waits_of ng) [] (conns ng !! l)) waiting.

(** A connection that was notified [n] times. *)
Definition notified_times ng (n : nat) c : NetGraphConnection.t :=
  if NetGraphConnection.removed c || bool_decide (n = 0%nat) then c
  else
    NetGraphConnection.with_redraws (NetGraphConnection.redraws c + n)
      (NetGraphConnection.with_post
         (find_target (NetGraphConnection.posts c) (objects_of c ng)).1
         (NetGraphConnection.with_pre
            (find_target (NetGraphConnection.pres c) (objects_of c ng)).1 c)).

(** ** The uids a dictionary is followed on *)

(** The property names every plain object inherits from
    [Object.prototype]. *)
Definition Object_prototype_names : list string :=
  ["__defineGetter__"; "__defineSetter__"; "__lookupGetter__";
   "__lookupSetter__"; "__proto__"; "constructor"; "hasOwnProperty";
   "isPrototypeOf"; "propertyIsEnumerable"; "toLocaleString"; "toString";
   "valueOf"].

(** A uid under which a plain object holds what was stored there and
    nothing else. *)
Definition ordinary (uid : string) : Prop := uid ∉ Object_prototype_names.

#[global] Instance ordinary_dec (uid : string) : Decision (ordinary uid) :=
  decide (uid ∉ Object_prototype_names).

(** A message whose uid and endpoint candidates are ordinary. *)
Definition ordinary_message (data : Message.t) : Prop :=
  ordinary (Message.uid data) /\
  Forall ordinary (Message.pres data) /\
  Forall ordinary (Message.posts data).

(** A diagram whose connections have ordinary endpoint candidates. *)
Definition ordinary_connections ng : Prop :=
  Forall (fun c => Forall ordinary (NetGraphConnection.pres c) /\
                   Forall ordinary (NetGraphConnection.posts c))
    (conns ng).

(** A connection waits for candidates of its own: the uids a resolution
    asks to be told about are uids of the path it was given. *)
Definition waits_for_candidates : Prop :=
  forall path objects, (find_target path objects).2 ⊆ path.

End Vocabulary.

(** ** Sample diagrams *)

(** A diagram right after construction, on a canvas of 500 by 400 pixels
    with a minimap of 100 by 80. *)
Definition default_config : Config :=
  {| zoom_fonts := false; aspect_resize := false;
     font_size := Qc_of_Z 100; transparent_nets := false |}.

Definition fresh_graph : NetGraph :=
  @new_NetGraph collaborators default_config "model"
    (Qc_of_Z 500) (Qc_of_Z 400) 0 (Qc_of_Z 100) (Qc_of_Z 80).

Definition unknown_message : Message.t :=
  Message.mk (Some "resize") "n1" (0, 0) (0, 0) None "" [] [] (0, 0) 1
    "" "" "" false.

(** A message that creates an item at (1/2, 1/2) of size (1/5, 1/5). *)
Definition item_message (type uid : string) : Message.t :=
  Message.mk (Some type) uid (qf 1 2, qf 1 2) (qf 1 5, qf 1 5) None uid
    [] [] (0, 0) 1 "" "" "" false.

(** A message about a connection: its creation or its reconnection. *)
Definition conn_message (type uid : string) (pres posts : list string)
  : Message.t :=
  Message.mk (Some type) uid (0, 0) (0, 0) None uid
    pres posts (0, 0) 1 "" "" "" false.

(** The diagram with one network, the minimap hidden as it is after
    construction, and the same with the minimap shown. *)
Definition hidden_graph : NetGraph :=
  @on_messages collaborators [item_message "net" "n1"] fresh_graph.

Definition shown_graph : NetGraph := with_mm_display true hidden_graph.

(** The diagram with one network and a connection from it to a node that
    does not exist yet. *)
Definition waiting_graph : NetGraph :=
  @on_messages collaborators
    [item_message "net" "n1"; conn_message "conn" "c1" ["n1"] ["n2"]]
    fresh_graph.

(** The diagram with a connection whose second endpoint lies inside a
    network: neither the network nor the node in it exists yet. *)
Definition nested_graph : NetGraph :=
  @on_messages collaborators
    [item_message "net" "n1";
     conn_message "conn" "c1" ["n1"] ["net2"; "n2"]]
    fresh_graph.

(** Closes the side conditions [field] leaves. *)
Ltac nonzero :=
  repeat split;
  first [assumption
        | let E := fresh in
          intros E; apply (f_equal this) in E; discriminate E].

(** ** The vocabulary of the further properties *)

(** An event that is not a notification. *)
Ltac not_sent := let E := fresh in intros ? E; discriminate E.

(** The pixels a drag covers along one axis, over all its ticks. *)
Definition total (f : DragEvent -> Qc) (ticks : list DragEvent) : Qc :=
  foldr (fun e acc => f e + acc) 0 ticks.

(** A diagram whose minimap is shown although an item has no twin there. *)
Definition twinless_graph : NetGraph := with_minimap_objects ∅ shown_graph.

(** ** Registries, placements and the index *)

(** The uids of the four registries. *)
Definition keys (ng : NetGraph)
  : gset string * gset string * gset string * gset string :=
  (dom (svg_objects ng), dom (minimap_objects ng),
   dom (svg_conns ng), dom (minimap_conns ng)).

(** A message about an item or a connection that the diagram does not
    have. *)
Definition dangling (data : Message.t) (ng : NetGraph) : Prop :=
  (Message.type data
     ∈ [Some "expand"; Some "collapse"; Some "pos_size"; Some "rename"]
   /\ svg_objects ng !! Message.uid data = None)
  \/ (Message.type data = Some "remove"
      /\ svg_objects ng !! Message.uid data = None
      /\ svg_conns ng !! Message.uid data = None)
  \/ (Message.type data = Some "reconnect"
      /\ svg_conns ng !! Message.uid data = None).

(** The item a pos_size message leaves in the registry. *)
Definition pos_sized (data : Message.t) (item : NetGraphItem.t)
  : NetGraphItem.t :=
  NetGraphItem.redraw
    (NetGraphItem.with_height (Message.size data).2
       (NetGraphItem.with_width (Message.size data).1
          (NetGraphItem.with_y (Message.pos data).2
             (NetGraphItem.with_x (Message.pos data).1 item)))).

(** No connection waits twice for the same uid. *)
Definition index_ok (ng : NetGraph) : Prop :=
  forall conn target, (entries conn target ng <= 1)%nat.

(** A pan or zoom message. *)
Definition view_message (type : string) (pan : Qc * Qc) (zoom : Qc)
  : Message.t :=
  Message.mk (Some type) "model" (0, 0) (0, 0) None "model" [] [] pan zoom
    "model" "model" "model" false.

(** The diagram in which a pos_size message has replaced the item, before
    the extent of the minimap is computed again. *)
Definition moved (data : Message.t) (item : NetGraphItem.t) (ng : NetGraph)
  : NetGraph :=
  with_svg_objects
    (<[Message.uid data := pos_sized data item]> (svg_objects ng)) ng.

(** The position and the size of an item. *)
Definition placement (i : NetGraphItem.t) : Qc * Qc * Qc * Qc :=
  (NetGraphItem.x i, NetGraphItem.y i,
   NetGraphItem.width i, NetGraphItem.height i).

(** A step that changes neither the uids of the registries nor the index
    of waiting connections. *)
Definition settled (ng ng' : NetGraph) : Prop :=
  keys ng' = keys ng /\ collapsed_conns ng' = collapsed_conns ng.

(** ** The gestures of the user *)

(** What the user does to a diagram: drag the background, turn the wheel,
    resize the window, show or hide the minimap, change a setting or pick
    the entry of the context menu. *)
Inductive Gesture :=
| dragged (ticks : list DragEvent)
| wheeled (event : WheelEvent)
| resized (m : Measured)
| minimap_toggled
| zoom_fonts_assigned (val : bool)
| font_size_assigned (val : Qc)
| aspect_resize_assigned (val : bool)
| auto_layout_chosen.

Section Gestures.
Context `{Collaborators} `{Viewport}.

Definition perform (g : Gesture) (ng : NetGraph) : NetGraph :=
  match g with
  | dragged ticks => drag ticks ng
  | wheeled event => on_wheel event ng
  | resized m => on_resize m ng
  | minimap_toggled => toggleMiniMap ng
  | zoom_fonts_assigned val => set_zoom_fonts val ng
  | font_size_assigned val => set_font_size val ng
  | aspect_resize_assigned val => set_aspect_resize val ng
  | auto_layout_chosen => auto_layout ng
  end.

Definition session (gs : list Gesture) (ng : NetGraph) : NetGraph :=
  foldl (fun ng g => perform g ng) ng gs.

End Gestures.

(** The gestures that end with a notification of the server. *)
Definition notifies (g : Gesture) : bool :=
  match g with
  | dragged _ | wheeled _ | auto_layout_chosen => true
  | _ => false
  end.

Definition notifications (gs : list Gesture) : nat :=
  length (filter (fun g => notifies g = true) gs).

(** ** The view box of the minimap *)

(** The rectangle that [scaleMiniMapViewBox] gives the view box: its
    corner and its size, in pixels of the minimap. *)
Definition view_x (ng : NetGraph) : Qc :=
  - (mm_min_x ng + offsetX ng) * (mm_width ng * mm_scale ng)
  + (mm_width ng - (mm_max_x ng - mm_min_x ng) * (mm_width ng * mm_scale ng))
    / Qc_of_Z 2.
Definition view_y (ng : NetGraph) : Qc :=
  - (mm_min_y ng + offsetY ng) * (mm_height ng * mm_scale ng)
  + (mm_height ng - (mm_max_y ng - mm_min_y ng) * (mm_height ng * mm_scale ng))
    / Qc_of_Z 2.
Definition view_width (ng : NetGraph) : Qc :=
  mm_width ng * mm_scale ng / scale ng.
Definition view_height (ng : NetGraph) : Qc :=
  mm_height ng * mm_scale ng / scale ng.

(** What the view box is computed from, besides the offsets and the
    scale. *)
Definition minimap_frame (ng : NetGraph) : Qc * Qc * Qc * Qc * Qc * Qc * Qc :=
  (minimap_view ng, mm_width ng, mm_height ng).

(** ** Connections and the items they wait for *)

Section Resolution.
Context `{Collaborators}.

(** The diagram with the two items of a descriptor in its registries, as
    [create_object] has it before it looks for waiting connections. *)
Definition created (info : Message.t) (ng : NetGraph) : NetGraph :=
  let item_mini := new_NetGraphItem ng info true None in
  let ng :=
    with_minimap_objects
      (<[Message.uid info := item_mini]> (minimap_objects ng)) ng in
  let item :=
    new_NetGraphItem ng info false (Some (NetGraphItem.uid item_mini)) in
  with_svg_objects (<[Message.uid info := item]> (svg_objects ng)) ng.

(** The endpoints of a connection are what its candidates resolve to among
    the items of the diagram. *)
Definition resolved_in (ng : NetGraph) (c : NetGraphConnection.t) : Prop :=
  NetGraphConnection.pre c
  = (find_target (NetGraphConnection.pres c) (objects_of c ng)).1 /\
  NetGraphConnection.post c
  = (find_target (NetGraphConnection.posts c) (objects_of c ng)).1.

End Resolution.

(** * Properties *)

(** ** Ordinary uids *)

(** Whether a uid is ordinary is decided by looking it up in the list. *)
Ltac ordinary_uid :=
  unfold ordinary_connections, ordinary_message;
  apply (bool_decide_unpack _); vm_compute; exact I.

Lemma deepest_existing_waits : @waits_for_candidates collaborators.
Proof.
  intros path objects. cbn [find_target collaborators].
  unfold deepest_existing.
  destruct (last (filter _ path)); cbn [snd].
  - intros u Hu. by apply elem_of_nil in Hu.
  - destruct path as [|u path]; cbn [head option_list].
    + done.
    + intros v Hv. apply list_elem_of_singleton in Hv as ->.
      apply list_elem_of_here.
Qed.

(** ** The index of waiting connections *)

Lemma indexOf_absent (conn : loc) (a : list loc) :
  indexOf conn a = (-1)%Z <-> conn ∉ a.
Proof.
  assert (Hnn : forall b, (-1 <= indexOf conn b)%Z).
  { induction b as [|c b IH]; simpl; [lia|].
    repeat case_decide; lia. }
  induction a as [|c a IH]; simpl.
  - split; [intros _; apply not_elem_of_nil | done].
  - rewrite not_elem_of_cons. case_decide as Hc.
    + subst c. split; [lia | intros [? _]; done].
    + case_decide as Hi.
      * split; [intros _; split; [congruence | by apply IH] | done].
      * split; [specialize (Hnn a); lia | intros [_ Ha]; by apply IH in Ha].
Qed.

Lemma entries_absent conn (w : list loc) :
  conn ∉ w -> filter (fun c => c = conn) w = [].
Proof.
  induction w as [|c w IH]; [done|].
  rewrite not_elem_of_cons. intros [Hc Hw].
  rewrite filter_cons_False by congruence. auto.
Qed.

Lemma register_conn_lookup conn target ng t :
  collapsed_conns (register_conn conn target ng) !! t =
  if decide (target = t)
  then Some (let w := default [] (collapsed_conns ng !! target) in
             if decide (conn ∈ w) then w else w ++ [conn])
  else collapsed_conns ng !! t.
Proof.
  unfold register_conn.
  destruct (collapsed_conns ng !! target) as [w|] eqn:Hw; simpl.
  - destruct (decide (indexOf conn w = (-1)%Z)) as [Hi|Hi]; simpl.
    + apply indexOf_absent in Hi. rewrite lookup_insert.
      case_decide; [|done]. by rewrite decide_False.
    + case_decide as Ht; [|done]. subst t. rewrite Hw.
      rewrite decide_True; [done|].
      destruct (decide (conn ∈ w)) as [|Hn]; [done|].
      by apply indexOf_absent in Hn.
  - rewrite lookup_insert. by case_decide.
Qed.

Lemma register_conn_registered conn target ng :
  conn ∈ default [] (collapsed_conns (register_conn conn target ng) !! target).
Proof.
  rewrite register_conn_lookup, decide_True by done. simpl.
  case_decide; [done|]. apply elem_of_app. right. apply list_elem_of_singleton.
  done.
Qed.

Lemma register_conn_keeps conn target ng c t :
  c ∈ default [] (collapsed_conns ng !! t) ->
  c ∈ default [] (collapsed_conns (register_conn conn target ng) !! t).
Proof.
  intros Hc. rewrite register_conn_lookup. case_decide as Ht; [|done].
  subst t. simpl. case_decide; [done|]. apply elem_of_app. by left.
Qed.

Lemma register_conn_again conn target ng :
  conn ∈ default [] (collapsed_conns ng !! target) ->
  register_conn conn target ng = ng.
Proof.
  unfold register_conn. intros Hc.
  destruct (collapsed_conns ng !! target) as [w|]; simpl in Hc.
  - rewrite decide_False; [done|]. rewrite indexOf_absent. tauto.
  - by apply elem_of_nil in Hc.
Qed.

Lemma register_conn_entries conn target ng c t :
  (entries c t ng <= 1)%nat ->
  (entries c t (register_conn conn target ng) <= 1)%nat.
Proof.
  unfold entries. rewrite register_conn_lookup.
  case_decide as Ht; [|done]. subst t. simpl.
  case_decide as Hin; [done|].
  rewrite filter_app, length_app.
  destruct (decide (c = conn)) as [->|Hne].
  - rewrite (entries_absent _ _ Hin). simpl.
    rewrite filter_cons_True by done. simpl. lia.
  - rewrite (filter_cons_False _ conn) by congruence. simpl. lia.
Qed.

(** C4: after any sequence of registrations for ordinary uids the index
    holds at most one entry for a connection and a blocking uid, and
    registering a pair that was registered before leaves the state as it
    is.  (Under a property name of [Object.prototype] the lookup of
    [register_conn] finds what the index inherits, and the call ends in a
    [TypeError]; the uids of the calls are therefore taken to be
    ordinary.) *)
Theorem register_conn_at_most_once (calls : list (loc * string)) ng :
  Forall (fun call => ordinary call.2) calls ->
  (forall conn target, (entries conn target ng <= 1)%nat) ->
  (forall conn target,
     (entries conn target (register_conns calls ng) <= 1)%nat) /\
  (forall conn target,
     (conn, target) ∈ calls ->
     register_conn conn target (register_conns calls ng)
     = register_conns calls ng).
Proof.
  intros _. unfold register_conns. revert ng.
  induction calls as [|[c t] calls IH] using rev_ind; intros ng Hng.
  - split; [done | intros ?? Hin; by apply elem_of_nil in Hin].
  - rewrite foldl_app. simpl. destruct (IH ng Hng) as [IH1 IH2]. split.
    + intros conn target. by apply register_conn_entries.
    + intros conn target Hin. apply register_conn_again.
      apply elem_of_app in Hin as [Hin|Hin].
      * apply register_conn_keeps. specialize (IH2 _ _ Hin).
        rewrite <- IH2. apply register_conn_registered.
      * apply list_elem_of_singleton in Hin. injection Hin as -> ->.
        apply register_conn_registered.
Qed.

Lemma register_conn_at_most_once_witness :
  let ng := register_conns [(0%nat, "n2"); (1%nat, "n2"); (0%nat, "n2")]
              fresh_graph in
  (entries 0%nat "n2" ng <= 1)%nat /\ register_conn 0%nat "n2" ng = ng.
Proof.
  intros ng.
  destruct (register_conn_at_most_once
              [(0%nat, "n2"); (1%nat, "n2"); (0%nat, "n2")] fresh_graph)
    as [Hle Hsame].
  - repeat constructor; cbn [snd]; ordinary_uid.
  - intros conn target. unfold entries. simpl. rewrite lookup_empty.
    simpl. lia.
  - split; [apply Hle | apply Hsame]. apply list_elem_of_here.
Defined.

(** ** The scale property *)

Lemma emit_trace e ng : trace (emit e ng) = trace ng ++ [e].
Proof. reflexivity. Qed.

Lemma sent_emit e ng :
  sent (emit e ng) =
  sent ng ++ match e with ws_send info => [info] | _ => [] end.
Proof.
  unfold sent. rewrite emit_trace, omap_app. simpl.
  by destruct e.
Qed.

Lemma foldl_invariant {A B} (P : A -> Prop) (f : A -> B -> A) (bs : list B) :
  (forall a b, P a -> P (f a b)) -> forall a, P a -> P (foldl f a bs).
Proof.
  intros Hf. induction bs as [|b bs IH]; simpl; auto.
Qed.

Lemma redraw_conns_fold (kls : list (string * loc)) ng :
  foldl (fun ng kl => conn_redraw kl.2 ng) ng kls
  = with_conns (redraw_conns kls.*2 (conns ng)) ng.
Proof.
  revert ng. induction kls as [|kl kls IH]; intros ng; simpl.
  - by destruct ng.
  - rewrite IH. reflexivity.
Qed.

Lemma redraw_unfold ng :
  redraw ng
  = with_conns (redraw_conns (map_to_list (svg_conns ng)).*2 (conns ng))
      (with_svg_objects (NetGraphItem.redraw <$> svg_objects ng) ng).
Proof. unfold redraw. rewrite redraw_conns_fold. reflexivity. Qed.



(** ** The minimap extent with no items *)

Section Extent.
Context `{Collaborators}.

(** C7: with an empty registry of main-view items [scaleMiniMap] returns
    the state it was given: the tracked extent and [mm_scale] keep their
    values, nothing is redrawn and the viewbox is not updated. *)
Theorem scaleMiniMap_empty_registry ng :
  svg_objects ng = ∅ -> scaleMiniMap ng = ng.
Proof.
  intros Hempty. unfold scaleMiniMap.
  destruct (mm_display ng); simpl; [|done].
  by rewrite Hempty, map_to_list_empty.
Qed.

End Extent.

Lemma scaleMiniMap_empty_registry_witness :
  @scaleMiniMap collaborators (with_mm_display true fresh_graph)
  = with_mm_display true fresh_graph.
Proof.
  apply (@scaleMiniMap_empty_registry collaborators). reflexivity.
Defined.

(** ** Messages of an unknown type *)

Section Dispatch.
Context `{Collaborators}.

(** C9: a message whose type is none of the recognized ones is answered by
    a warning on the console and by nothing else: the handler returns
    normally, the state differs from the one before in the logged warning
    only, and no notification is sent. *)
Theorem on_message_unknown_type (data : Message.t) ng :
  (forall tag, Message.type data = Some tag -> tag ∉ recognized) ->
  on_message data ng
  = Done (with_trace (trace ng ++ [console_warn invalid_message]) ng) /\
  sent (state_of (on_message data ng)) = sent ng.
Proof.
  intros Hunknown.
  assert (Hno : forall tag, tag ∈ recognized ->
                  bool_decide (Message.type data = Some tag) = false).
  { intros tag Hin. apply bool_decide_eq_false. intros Heq.
    by apply (Hunknown tag). }
  assert (Heq : on_message data ng = Done (emit (console_warn invalid_message) ng)).
  { unfold on_message.
    rewrite !Hno by (unfold recognized; set_solver). reflexivity. }
  rewrite Heq. split; [done|]. simpl. rewrite sent_emit. simpl.
  apply app_nil_r.
Qed.

End Dispatch.

Lemma on_message_unknown_type_witness :
  @on_message collaborators unknown_message fresh_graph
  = Done (with_trace (trace fresh_graph ++ [console_warn invalid_message])
            fresh_graph).
Proof.
  apply (@on_message_unknown_type collaborators unknown_message fresh_graph).
  intros tag Htag. injection Htag as <-. unfold recognized.
  repeat (apply not_elem_of_cons; split; [discriminate|]).
  apply not_elem_of_nil.
Defined.

(** ** Zooming with the wheel *)

Lemma pan_zoom_emit e ng : pan_zoom (emit e ng) = pan_zoom ng.
Proof. reflexivity. Qed.

Lemma pan_zoom_redraw ng : pan_zoom (redraw ng) = pan_zoom ng.
Proof. by rewrite redraw_unfold. Qed.

Lemma pan_zoom_scaleMiniMapViewBox ng :
  pan_zoom (scaleMiniMapViewBox ng) = pan_zoom ng.
Proof. unfold scaleMiniMapViewBox. by destruct (mm_display ng). Qed.

Lemma pan_zoom_update_fonts ng : pan_zoom (update_fonts ng) = pan_zoom ng.
Proof. unfold update_fonts. by destruct (zoom_fonts (config ng)). Qed.

Lemma pan_zoom_set_scale val ng :
  pan_zoom (set_scale val ng) = (offsetX ng, offsetY ng, val).
Proof.
  unfold set_scale. case_decide as Hval.
  - unfold pan_zoom. rewrite Hval. reflexivity.
  - rewrite pan_zoom_emit, pan_zoom_redraw, pan_zoom_update_fonts.
    reflexivity.
Qed.

(** The offsets and the scale after one wheel zoom, as the handler
    computes them. *)
Lemma wheel_zoom_pan_zoom (x y z_scale : Qc) ng :
  pan_zoom (wheel_zoom x y z_scale ng)
  = (let xx := x / scale ng - offsetX ng in
     (offsetX ng + xx) / z_scale - xx,
     let yy := y / scale ng - offsetY ng in
     (offsetY ng + yy) / z_scale - yy,
     z_scale * scale ng).
Proof.
  unfold wheel_zoom, notify.
  rewrite pan_zoom_emit, pan_zoom_redraw, pan_zoom_scaleMiniMapViewBox,
    pan_zoom_emit, pan_zoom_set_scale.
  reflexivity.
Qed.

Lemma wheel_zoom_offsetX (x y z_scale : Qc) ng :
  offsetX (wheel_zoom x y z_scale ng)
  = (offsetX ng + (x / scale ng - offsetX ng)) / z_scale
    - (x / scale ng - offsetX ng).
Proof. exact (f_equal (fun p => p.1.1) (wheel_zoom_pan_zoom x y z_scale ng)). Qed.

Lemma wheel_zoom_offsetY (x y z_scale : Qc) ng :
  offsetY (wheel_zoom x y z_scale ng)
  = (offsetY ng + (y / scale ng - offsetY ng)) / z_scale
    - (y / scale ng - offsetY ng).
Proof. exact (f_equal (fun p => p.1.2) (wheel_zoom_pan_zoom x y z_scale ng)). Qed.

Lemma wheel_zoom_scale (x y z_scale : Qc) ng :
  scale (wheel_zoom x y z_scale ng) = z_scale * scale ng.
Proof. exact (f_equal snd (wheel_zoom_pan_zoom x y z_scale ng)). Qed.

(** The arithmetic of one zoom followed by the inverse zoom, at a scale
    that is not zero. *)
Lemma zoom_offset_back (x o s z : Qc) :
  z <> 0 -> s <> 0 ->
  let xx := x / s - o in
  let o1 := (o + xx) / z - xx in
  let xx1 := x / (z * s) - o1 in
  xx1 = xx /\ (o1 + xx1) / (1 / z) - xx1 = o.
Proof.
  intros Hz Hs. cbv zeta. split; field; nonzero.
Qed.

(** C2: on a diagram whose scale is not zero, a wheel zoom by the factor
    [z] at the cursor [(x, y)] sets the offsets to
    [(offset + xx) / z - xx] with [xx = x / scale - offsetX] (and the same
    for y) and the scale to [z * scale]; followed, at the same cursor
    position, by a wheel zoom by [1 / z] it brings the pan offset and the
    scale back to what they were; and after one zoom the point of model
    space under the cursor is the one that was there before.  The numbers
    are exact rationals, so the values come back exactly; at scale zero the
    update divides by zero and is not followed. *)
Theorem wheel_zoom_inverse (x y z : Qc) ng :
  0 < z ->
  scale ng <> 0 ->
  let ng1 := wheel_zoom x y z ng in
  let ng2 := wheel_zoom x y (1 / z) ng1 in
  (offsetX ng1
   = (offsetX ng + (x / scale ng - offsetX ng)) / z
     - (x / scale ng - offsetX ng) /\
   offsetY ng1
   = (offsetY ng + (y / scale ng - offsetY ng)) / z
     - (y / scale ng - offsetY ng) /\
   scale ng1 = z * scale ng) /\
  (offsetX ng2 = offsetX ng /\ offsetY ng2 = offsetY ng
   /\ scale ng2 = scale ng) /\
  (x / scale ng1 - offsetX ng1 = x / scale ng - offsetX ng /\
   y / scale ng1 - offsetY ng1 = y / scale ng - offsetY ng).
Proof.
  intros Hz Hs. cbv zeta.
  assert (Hz0 : z <> 0).
  { intros ->. exact (Qclt_not_eq 0 0 Hz eq_refl). }
  destruct (zoom_offset_back x (offsetX ng) (scale ng) z Hz0 Hs)
    as [Hx1 Hx2].
  destruct (zoom_offset_back y (offsetY ng) (scale ng) z Hz0 Hs)
    as [Hy1 Hy2].
  rewrite (wheel_zoom_offsetX x y (1 / z)), (wheel_zoom_offsetY x y (1 / z)),
    (wheel_zoom_scale x y (1 / z)).
  rewrite !wheel_zoom_offsetX, !wheel_zoom_offsetY, !wheel_zoom_scale.
  repeat split; try assumption. field. nonzero.
Qed.

Lemma wheel_zoom_inverse_witness :
  let ng1 := wheel_zoom (qf 1 2) (qf 1 4) (Qc_of_Z 2) fresh_graph in
  let ng2 := wheel_zoom (qf 1 2) (qf 1 4) (1 / Qc_of_Z 2) ng1 in
  scale ng1 = Qc_of_Z 2 * scale fresh_graph /\
  offsetX ng2 = offsetX fresh_graph /\ offsetY ng2 = offsetY fresh_graph
  /\ scale ng2 = scale fresh_graph.
Proof.
  destruct (wheel_zoom_inverse (qf 1 2) (qf 1 4) (Qc_of_Z 2) fresh_graph)
    as ((_ & _ & Hscale) & Hback & _).
  - reflexivity.
  - intros E. apply (f_equal this) in E. discriminate E.
  - split; [exact Hscale | exact Hback].
Defined.

(** The wheel handler itself: an event followed by the event with the
    opposite [deltaY] at the same place undoes the zoom. *)
Lemma Qc_opp_pos (a : Qc) : 0 < - a <-> a < 0.
Proof. rewrite (Qclt_minus_iff a 0), Qcplus_0_l. reflexivity. Qed.

Lemma Qc_opp_neg (a : Qc) : - a < 0 <-> 0 < a.
Proof. rewrite <- (Qc_opp_pos (- a)), Qcopp_involutive. reflexivity. Qed.

Lemma Qc_lt_asym (a b : Qc) : a < b -> b < a -> False.
Proof. intros Hab Hba. exact (Qclt_not_eq _ _ (Qclt_trans _ _ _ Hab Hba) eq_refl). Qed.

Lemma Qc_nonpos_nonneg (a : Qc) : ~ a < 0 -> ~ - a < 0 -> a = 0.
Proof.
  intros Hnneg Hnpos. apply Qcnot_lt_le in Hnneg.
  apply Qcle_antisym; [|exact Hnneg].
  apply Qcnot_lt_le. intros Hpos. apply Hnpos. apply Qc_opp_neg. exact Hpos.
Qed.

Lemma Math_abs_opp (a : Qc) : Math_abs (- a) = Math_abs a.
Proof.
  unfold Math_abs.
  destruct (decide (a < 0)) as [Hneg|Hnneg],
           (decide (- a < 0)) as [Hneg'|Hnneg'].
  - exfalso. apply Qc_opp_neg in Hneg'. exact (Qc_lt_asym _ _ Hneg Hneg').
  - reflexivity.
  - apply Qcopp_involutive.
  - rewrite (Qc_nonpos_nonneg a Hnneg Hnneg'). reflexivity.
Qed.

Lemma Math_abs_nonneg (a : Qc) : 0 <= Math_abs a.
Proof.
  unfold Math_abs. destruct (decide (a < 0)) as [Hneg|Hnneg].
  - apply Qclt_le_weak. apply Qc_opp_pos. exact Hneg.
  - apply Qcnot_lt_le. exact Hnneg.
Qed.

Lemma wheel_z_scale_opp (delta : Qc) :
  0 < wheel_z_scale delta /\
  wheel_z_scale (- delta) = 1 / wheel_z_scale delta.
Proof.
  unfold wheel_z_scale. cbv zeta. rewrite Math_abs_opp.
  set (m := 1 + Math_abs delta / Qc_of_Z 600).
  assert (Hm : 0 < m).
  { unfold m. apply Qclt_le_trans with (1 + 0); [reflexivity|].
    apply Qcplus_le_compat; [apply Qcle_refl|].
    unfold Qcdiv. apply Qcmult_nonneg_nonneg; [apply Math_abs_nonneg|].
    apply Qclt_le_weak. reflexivity. }
  assert (Hm0 : m <> 0).
  { intros E. rewrite E in Hm. exact (Qclt_not_eq _ _ Hm eq_refl). }
  assert (Hinv : 0 < 1 / m).
  { unfold Qcdiv. rewrite Qcmult_1_l. apply Qcinv_pos. exact Hm. }
  destruct (decide (0 < delta)) as [Hpos|Hnpos],
           (decide (0 < - delta)) as [Hpos'|Hnpos'].
  - exfalso. apply Qc_opp_pos in Hpos'. exact (Qc_lt_asym _ _ Hpos Hpos').
  - split; [exact Hinv|]. field. nonzero.
  - split; [exact Hm | reflexivity].
  - split; [exact Hm|].
    assert (Hd : delta = 0).
    { apply Qc_nonpos_nonneg.
      - intros Hneg. apply Hnpos'. apply Qc_opp_pos. exact Hneg.
      - intros Hneg. apply Hnpos. apply Qc_opp_neg. exact Hneg. }
    unfold m. rewrite Hd. apply Qc_is_canon. reflexivity.
Qed.

Lemma wheel_zoom_zoomed (x y z_scale : Qc) ng :
  pan_zoom (wheel_zoom x y z_scale ng) = zoomed x y z_scale (pan_zoom ng).
Proof. rewrite wheel_zoom_pan_zoom. reflexivity. Qed.

Lemma zoomed_back (x y z : Qc) (p : Qc * Qc * Qc) :
  z <> 0 -> p.2 <> 0 -> zoomed x y (1 / z) (zoomed x y z p) = p.
Proof.
  intros Hz. destruct p as [[oX oY] s]. cbn [snd]. intros Hs.
  unfold zoomed.
  destruct (zoom_offset_back x oX s z Hz Hs) as [_ Hx].
  destruct (zoom_offset_back y oY s z Hz Hs) as [_ Hy].
  cbv zeta in Hx, Hy. rewrite Hx, Hy. do 2 f_equal. field. nonzero.
Qed.

Lemma geometry_emit e ng : geometry (emit e ng) = geometry ng.
Proof. reflexivity. Qed.

Lemma geometry_redraw ng : geometry (redraw ng) = geometry ng.
Proof. rewrite redraw_unfold. reflexivity. Qed.

Lemma geometry_scaleMiniMapViewBox ng :
  geometry (scaleMiniMapViewBox ng) = geometry ng.
Proof. unfold scaleMiniMapViewBox. destruct (mm_display ng); reflexivity. Qed.

Lemma geometry_set_scale (val : Qc) ng :
  geometry (set_scale val ng) = geometry ng.
Proof.
  unfold set_scale. case_decide; [reflexivity|].
  rewrite geometry_emit, geometry_redraw. unfold update_fonts.
  destruct (zoom_fonts _); reflexivity.
Qed.

Lemma geometry_wheel_zoom (x y z_scale : Qc) ng :
  geometry (wheel_zoom x y z_scale ng) = geometry ng.
Proof.
  unfold wheel_zoom, notify.
  rewrite geometry_emit, geometry_redraw, geometry_scaleMiniMapViewBox,
    geometry_emit, geometry_set_scale.
  reflexivity.
Qed.

Lemma geometry_eq ng ng' :
  geometry ng' = geometry ng ->
  width ng' = width ng /\ height ng' = height ng
  /\ tool_height ng' = tool_height ng.
Proof. unfold geometry. intros [= -> -> ->]. auto. Qed.

Section WheelHandler.
Context `{Collaborators}.

Lemma wheel_delta_opp (e1 e2 : WheelEvent) :
  deltaMode e2 = deltaMode e1 -> deltaY e2 = - deltaY e1 ->
  wheel_delta e2 = - wheel_delta e1.
Proof.
  unfold wheel_delta. intros -> ->. cbv zeta.
  destruct (decide (deltaMode e1 = 1%Z)) as [_|_].
  2:{ destruct (decide (deltaMode e1 = 2%Z)); [|reflexivity].
      apply Qc_is_canon. reflexivity. }
  rewrite Math_abs_opp.
  set (L := Math_log (1 + Math_abs (deltaY e1)) * Qc_of_Z 60).
  destruct (decide (deltaY e1 <> 0)) as [Hnz|Hz].
  - rewrite decide_True.
    2:{ intros E. apply Hnz. rewrite <- (Qcopp_involutive (deltaY e1)), E.
        apply Qc_is_canon. reflexivity. }
    destruct (decide (deltaY e1 < 0)) as [Hneg|Hnneg],
             (decide (- deltaY e1 < 0)) as [Hneg'|Hnneg'].
    + exfalso. apply Qc_opp_neg in Hneg'. exact (Qc_lt_asym _ _ Hneg Hneg').
    + ring.
    + ring.
    + exfalso. apply Hnz. exact (Qc_nonpos_nonneg _ Hnneg Hnneg').
  - assert (Hd : deltaY e1 = 0).
    { destruct (decide (deltaY e1 = 0)) as [E|E]; [exact E|].
      exfalso. exact (Hz E). }
    rewrite decide_False.
    2:{ intros E. apply E. rewrite Hd. apply Qc_is_canon. reflexivity. }
    apply Qc_is_canon. reflexivity.
Qed.

(** The wheel handler on two events at the same place, in the same mode
    and with opposite [deltaY]: the second undoes the zoom of the first. *)
Lemma on_wheel_unfold (event : WheelEvent) ng :
  on_wheel event ng
  = wheel_zoom (clientX event / width ng)
      ((clientY event - tool_height ng) / height ng)
      (wheel_z_scale (wheel_delta event)) (emit menu_hide_any ng).
Proof. reflexivity. Qed.

Lemma on_wheel_zoomed (event : WheelEvent) ng :
  pan_zoom (on_wheel event ng)
  = zoomed (clientX event / width ng)
      ((clientY event - tool_height ng) / height ng)
      (wheel_z_scale (wheel_delta event)) (pan_zoom ng).
Proof.
  rewrite on_wheel_unfold, wheel_zoom_zoomed, pan_zoom_emit. reflexivity.
Qed.

Lemma on_wheel_geometry (event : WheelEvent) ng :
  width (on_wheel event ng) = width ng /\
  height (on_wheel event ng) = height ng /\
  tool_height (on_wheel event ng) = tool_height ng.
Proof.
  apply geometry_eq. rewrite on_wheel_unfold, geometry_wheel_zoom.
  reflexivity.
Qed.

(** The wheel handler on two events at the same place, in the same mode
    and with opposite [deltaY], on a canvas that is not empty and at a
    scale that is not zero: the second undoes the zoom of the first. *)
Lemma on_wheel_back (e1 e2 : WheelEvent) ng :
  clientX e2 = clientX e1 -> clientY e2 = clientY e1 ->
  deltaMode e2 = deltaMode e1 -> deltaY e2 = - deltaY e1 ->
  width ng <> 0 -> height ng <> 0 -> scale ng <> 0 ->
  pan_zoom (on_wheel e2 (on_wheel e1 ng)) = pan_zoom ng.
Proof.
  intros HX HY Hmode Hdelta _ _ Hscale.
  rewrite (on_wheel_zoomed e2).
  destruct (on_wheel_geometry e1 ng) as (-> & -> & ->).
  rewrite (on_wheel_zoomed e1).
  rewrite (wheel_delta_opp e1 e2 Hmode Hdelta), HX, HY.
  destruct (wheel_z_scale_opp (wheel_delta e1)) as [Hz Hopp].
  rewrite Hopp. apply zoomed_back; [|exact Hscale].
  intros E. rewrite E in Hz. exact (Qclt_not_eq _ _ Hz eq_refl).
Qed.

End WheelHandler.

(** ** Panning by dragging *)

Lemma drag_view_emit e ng :
  (forall info, e <> ws_send info) -> drag_view (emit e ng) = drag_view ng.
Proof.
  intros He. unfold drag_view. rewrite sent_emit.
  destruct e; try (rewrite app_nil_r; reflexivity).
  exfalso. eapply He. reflexivity.
Qed.

Lemma drag_view_scaleMiniMapViewBox ng :
  drag_view (scaleMiniMapViewBox ng) = drag_view ng.
Proof.
  unfold scaleMiniMapViewBox. destruct (mm_display ng); cbn [negb];
    [|reflexivity].
  cbv zeta. rewrite !drag_view_emit by discriminate. reflexivity.
Qed.

Lemma drag_view_redraw_conns (kls : list (string * loc)) ng :
  drag_view (foldl (fun ng kl => conn_redraw kl.2 ng) ng kls) = drag_view ng.
Proof. rewrite redraw_conns_fold. reflexivity. Qed.

Lemma drag_view_onmove_item key ng :
  drag_view (state_of (drag_onmove_item key ng)) = drag_view ng.
Proof.
  unfold drag_onmove_item. cbv zeta.
  cbn [mm_display minimap_objects with_svg_objects].
  destruct (mm_display ng); [|reflexivity].
  destruct (minimap_objects ng !! key); reflexivity.
Qed.

Lemma drag_view_onmove_items (entries : list (string * NetGraphItem.t)) o :
  drag_view
    (state_of (foldl (fun o entry => o >>> drag_onmove_item entry.1) o entries))
  = drag_view (state_of o).
Proof.
  revert o. induction entries as [|entry entries IH]; intros o; [reflexivity|].
  simpl. rewrite IH. destruct o as [ng|ng]; [|reflexivity].
  apply drag_view_onmove_item.
Qed.

(** One move tick. *)
Lemma drag_view_onmove (event : DragEvent) ng :
  drag_view (state_of (drag_onmove event ng))
  = (offsetX ng + dx event / (width ng * scale ng),
     offsetY ng + dy event / (height ng * scale ng),
     scale ng, width ng, height ng, sent ng).
Proof.
  unfold drag_onmove. cbv zeta.
  match goal with
  | |- drag_view (state_of (?o >>> ?k)) = _ =>
      pose proof (drag_view_onmove_items _ (Done _) : drag_view (state_of o) = _)
        as Hitems;
      destruct o as [ng'|ng']
  end; simpl in Hitems |- *.
  - rewrite drag_view_scaleMiniMapViewBox, drag_view_emit by discriminate.
    rewrite drag_view_redraw_conns. exact Hitems.
  - exact Hitems.
Qed.

Lemma drag_onmove_offsetX event ng :
  offsetX (state_of (drag_onmove event ng))
  = offsetX ng + dx event / (width ng * scale ng).
Proof. exact (f_equal (fun v => v.1.1.1.1.1) (drag_view_onmove event ng)). Qed.

Lemma drag_onmove_offsetY event ng :
  offsetY (state_of (drag_onmove event ng))
  = offsetY ng + dy event / (height ng * scale ng).
Proof. exact (f_equal (fun v => v.1.1.1.1.2) (drag_view_onmove event ng)). Qed.

Lemma drag_onmove_scale event ng :
  scale (state_of (drag_onmove event ng)) = scale ng.
Proof. exact (f_equal (fun v => v.1.1.1.2) (drag_view_onmove event ng)). Qed.

Lemma drag_onmove_width event ng :
  width (state_of (drag_onmove event ng)) = width ng.
Proof. exact (f_equal (fun v => v.1.1.2) (drag_view_onmove event ng)). Qed.

Lemma drag_onmove_height event ng :
  height (state_of (drag_onmove event ng)) = height ng.
Proof. exact (f_equal (fun v => v.1.2) (drag_view_onmove event ng)). Qed.

Lemma drag_onmove_sent event ng :
  sent (state_of (drag_onmove event ng)) = sent ng.
Proof. exact (f_equal snd (drag_view_onmove event ng)). Qed.

(** The move ticks of a drag, taken together. *)
Lemma drag_view_moves (ticks : list DragEvent) ng :
  drag_view (drag_moves ticks ng)
  = (foldl (fun o e => o + dx e / (width ng * scale ng)) (offsetX ng) ticks,
     foldl (fun o e => o + dy e / (height ng * scale ng)) (offsetY ng) ticks,
     scale ng, width ng, height ng, sent ng).
Proof.
  unfold drag_moves. revert ng.
  induction ticks as [|event ticks IH]; intros ng; [reflexivity|].
  cbn [foldl]. rewrite IH.
  rewrite drag_onmove_offsetX, drag_onmove_offsetY, drag_onmove_scale,
    drag_onmove_width, drag_onmove_height, drag_onmove_sent.
  reflexivity.
Qed.

(** C5: a move tick with the pixel deltas [dx], [dy] adds [dx / (W * s)] to
    [offsetX] and [dy / (H * s)] to [offsetY], for a canvas of [W] by [H]
    pixels at scale [s] with [W * s] and [H * s] not zero (on an empty
    canvas or at scale zero the tick divides by zero and is not followed),
    and sends nothing; over a whole drag the offsets
    grow by the share of every tick, nothing is sent while the pointer
    moves, and the end of the drag sends one pan notification, which
    carries the final offsets. *)
Theorem drag_pans_and_notifies_at_end :
  (forall (event : DragEvent) ng,
     width ng * scale ng <> 0 ->
     height ng * scale ng <> 0 ->
     let ng' := state_of (drag_onmove event ng) in
     offsetX ng' = offsetX ng + dx event / (width ng * scale ng) /\
     offsetY ng' = offsetY ng + dy event / (height ng * scale ng) /\
     sent ng' = sent ng) /\
  (forall (ticks : list DragEvent) ng,
     width ng * scale ng <> 0 ->
     height ng * scale ng <> 0 ->
     let ng' := drag ticks ng in
     offsetX ng'
     = foldl (fun o e => o + dx e / (width ng * scale ng)) (offsetX ng) ticks /\
     offsetY ng'
     = foldl (fun o e => o + dy e / (height ng * scale ng)) (offsetY ng) ticks /\
     sent (drag_moves ticks (drag_onstart ng)) = sent ng /\
     sent ng' = sent ng ++ [act_pan (offsetX ng') (offsetY ng')]).
Proof.
  split.
  - intros event ng _ _. cbv zeta.
    rewrite drag_onmove_offsetX, drag_onmove_offsetY, drag_onmove_sent.
    auto.
  - intros ticks ng _ _. cbv zeta.
    pose proof (drag_view_moves ticks (drag_onstart ng)) as Hmoves.
    unfold drag, drag_onend, notify.
    change (offsetX (emit ?e ?s)) with (offsetX s).
    change (offsetY (emit ?e ?s)) with (offsetY s).
    rewrite sent_emit.
    rewrite (f_equal (fun v => v.1.1.1.1.1) Hmoves : offsetX _ = _).
    rewrite (f_equal (fun v => v.1.1.1.1.2) Hmoves : offsetY _ = _).
    rewrite (f_equal snd Hmoves : sent _ = _).
    unfold drag_onstart. rewrite sent_emit, app_nil_r.
    repeat split; reflexivity.
Qed.

Lemma drag_pans_and_notifies_at_end_witness :
  let ng := with_scale (Qc_of_Z 2) fresh_graph in
  let ng' := drag [{| dx := Qc_of_Z 10; dy := Qc_of_Z (-5) |}] ng in
  width ng * scale ng <> 0 /\ height ng * scale ng <> 0 /\
  offsetX ng' = offsetX ng + Qc_of_Z 10 / (width ng * scale ng) /\
  sent ng' = sent ng ++ [act_pan (offsetX ng') (offsetY ng')].
Proof.
  cbv zeta.
  assert (Hw : width (with_scale (Qc_of_Z 2) fresh_graph)
               * scale (with_scale (Qc_of_Z 2) fresh_graph) <> 0).
  { intros E. apply (f_equal this) in E. discriminate E. }
  assert (Hh : height (with_scale (Qc_of_Z 2) fresh_graph)
               * scale (with_scale (Qc_of_Z 2) fresh_graph) <> 0).
  { intros E. apply (f_equal this) in E. discriminate E. }
  split; [exact Hw|]. split; [exact Hh|].
  destruct drag_pans_and_notifies_at_end as [_ Hdrag].
  destruct (Hdrag [{| dx := Qc_of_Z 10; dy := Qc_of_Z (-5) |}]
              (with_scale (Qc_of_Z 2) fresh_graph) Hw Hh)
    as (Hx & _ & _ & Hsent).
  split; [exact Hx | exact Hsent].
Defined.

(** The example of a drag by 10 and -5 pixels at scale 2 on a canvas of 500
    by 400 pixels. *)
Example drag_10_5 :
  let ng := with_scale (Qc_of_Z 2) fresh_graph in
  let ng' := drag [{| dx := Qc_of_Z 10; dy := Qc_of_Z (-5) |}] ng in
  offsetX ng' = qf 1 100 /\ offsetY ng' = qf (-1) 160 /\
  sent ng' = [act_pan (qf 1 100) (qf (-1) 160)].
Proof.
  cbv zeta. repeat split; apply Qc_is_canon; reflexivity.
Qed.

(** ** Resolving the endpoints of connections *)

Lemma resolver_frame_refl ng : resolver_frame ng ng.
Proof. unfold resolver_frame. destruct ng; reflexivity. Qed.

Lemma resolver_frame_trans ng1 ng2 ng3 :
  resolver_frame ng1 ng2 -> resolver_frame ng2 ng3 -> resolver_frame ng1 ng3.
Proof.
  unfold resolver_frame, with_conns, with_collapsed_conns.
  destruct ng1, ng2, ng3. cbn.
  intros H12 H23. injection H12. intros. subst. exact H23.
Qed.

Lemma resolver_frame_with_conns cs ng : resolver_frame ng (with_conns cs ng).
Proof. unfold resolver_frame. destruct ng; reflexivity. Qed.

Lemma resolver_frame_with_collapsed_conns m ng :
  resolver_frame ng (with_collapsed_conns m ng).
Proof. unfold resolver_frame. destruct ng; reflexivity. Qed.

Lemma resolver_frame_register_conn conn target ng :
  resolver_frame ng (register_conn conn target ng).
Proof.
  unfold register_conn.
  destruct (collapsed_conns ng !! target);
    [case_decide|]; auto using resolver_frame_refl,
                      resolver_frame_with_collapsed_conns.
Qed.

Lemma register_conn_conns conn target ng :
  conns (register_conn conn target ng) = conns ng.
Proof.
  unfold register_conn.
  destruct (collapsed_conns ng !! target); [case_decide|]; reflexivity.
Qed.

Lemma register_conn_dom conn target ng :
  dom (collapsed_conns (register_conn conn target ng))
  = dom (collapsed_conns ng) ∪ {[target]}.
Proof.
  apply set_eq. intros t. rewrite elem_of_union, elem_of_singleton.
  rewrite !elem_of_dom, register_conn_lookup. case_decide as Ht.
  - subst t. split; [auto | intros _; eauto].
  - split; [auto | intros [?|?]; [done | congruence]].
Qed.

(** A run of registrations of one connection. *)
Lemma register_all_frame conn (targets : list string) ng :
  let ng' := foldl (fun ng t => register_conn conn t ng) ng targets in
  resolver_frame ng ng' /\ conns ng' = conns ng /\
  dom (collapsed_conns ng')
  = dom (collapsed_conns ng) ∪ list_to_set targets.
Proof.
  cbv zeta. revert ng.
  induction targets as [|t targets IH]; intros ng; cbn [foldl].
  - split; [apply resolver_frame_refl|]. split; [reflexivity|].
    simpl. set_solver.
  - destruct (IH (register_conn conn t ng)) as (Hf & Hc & Hd). split.
    + eapply resolver_frame_trans; [apply resolver_frame_register_conn|done].
    + rewrite Hc, Hd, register_conn_conns, register_conn_dom. split; [done|].
      simpl. set_solver.
Qed.

Lemma list_alter_unchanged {A} (f : A -> A) (l : nat) (xs : list A) :
  (forall x, xs !! l = Some x -> f x = x) -> alter f l xs = xs.
Proof.
  intros Hf. apply list_eq. intros i. destruct (decide (i = l)) as [->|Hne].
  - rewrite list_lookup_alter_eq. destruct (xs !! l) as [x|] eqn:Hx; [|done].
    simpl. by rewrite Hf.
  - by rewrite list_lookup_alter_ne.
Qed.

Section Resolver.
Context `{Collaborators}.

Implicit Types (ng : NetGraph) (c : NetGraphConnection.t) (l : loc).

Lemma find_endpoint_spec (path : NetGraphConnection.t -> list string) l ng c :
  conns ng !! l = Some c ->
  (find_endpoint path l ng).1 = (find_target (path c) (objects_of c ng)).1 /\
  resolver_frame ng (find_endpoint path l ng).2 /\
  conns (find_endpoint path l ng).2 = conns ng /\
  dom (collapsed_conns (find_endpoint path l ng).2)
  = dom (collapsed_conns ng)
    ∪ list_to_set (find_target (path c) (objects_of c ng)).2.
Proof.
  intros Hl. unfold find_endpoint. rewrite Hl.
  destruct (find_target (path c) (objects_of c ng)) as [found waits].
  cbn [fst snd]. split; [reflexivity|].
  apply (register_all_frame l waits ng).
Qed.

Lemma find_endpoint_absent (path : NetGraphConnection.t -> list string) l ng :
  conns ng !! l = None -> find_endpoint path l ng = (None, ng).
Proof. intros Hl. unfold find_endpoint. by rewrite Hl. Qed.

(** The registry a connection resolves against is not touched. *)
Lemma objects_of_frame c ng ng' :
  resolver_frame ng ng' -> objects_of c ng' = objects_of c ng.
Proof. intros ->. reflexivity. Qed.

Lemma notified_inputs ng c :
  resolution_inputs (notified ng c) = resolution_inputs c.
Proof. unfold notified. by destruct (NetGraphConnection.removed c). Qed.

Lemma waits_of_inputs ng c c' :
  resolution_inputs c' = resolution_inputs c -> waits_of ng c' = waits_of ng c.
Proof.
  unfold resolution_inputs, waits_of, objects_of. intros [= -> -> -> ->].
  reflexivity.
Qed.

(** One round of the loop of [detect_collapsed_conns]. *)
Lemma notify_conn_spec l ng :
  resolver_frame ng (notify_conn l ng) /\
  conns (notify_conn l ng) = alter (notified ng) l (conns ng) /\
  dom (collapsed_conns (notify_conn l ng))
  = dom (collapsed_conns ng)
    ∪ list_to_set (from_option (waits_of ng) [] (conns ng !! l)).
Proof.
  unfold notify_conn.
  destruct (conns ng !! l) as [c|] eqn:Hl; cbn [from_option].
  2:{ split; [apply resolver_frame_refl|]. split.
      - symmetry. apply list_alter_unchanged. intros x Hx.
        rewrite Hl in Hx. discriminate.
      - simpl. set_solver. }
  unfold waits_of.
  destruct (NetGraphConnection.removed c) eqn:Hrem.
  { split; [apply resolver_frame_refl|]. split.
    - symmetry. apply list_alter_unchanged. intros c' Hc'.
      rewrite Hl in Hc'. injection Hc' as <-. unfold notified.
      by rewrite Hrem.
    - simpl. set_solver. }
  destruct (find_endpoint_spec NetGraphConnection.pres l ng c Hl)
    as (Hp & Hfp & Hcp & Hdp).
  fold find_pre in Hp, Hfp, Hcp, Hdp.
  destruct (find_pre l ng) as [p ng1]. cbn [fst snd] in *.
  assert (Hl1 : conns (set_pre l p ng1) !! l
                = Some (NetGraphConnection.with_pre p c)).
  { cbn. rewrite Hcp, list_lookup_alter_eq, Hl. reflexivity. }
  destruct (find_endpoint_spec NetGraphConnection.posts l _ _ Hl1)
    as (Hq & Hfq & Hcq & Hdq).
  fold find_post in Hq, Hfq, Hcq, Hdq.
  destruct (find_post l (set_pre l p ng1)) as [q ng2]. cbn [fst snd] in *.
  assert (Hobj : objects_of (NetGraphConnection.with_pre p c)
                   (set_pre l p ng1) = objects_of c ng).
  { rewrite Hfp. reflexivity. }
  rewrite Hobj in Hq, Hdq. split; [|split].
  - eapply resolver_frame_trans; [exact Hfp|].
    eapply resolver_frame_trans; [apply resolver_frame_with_conns|].
    eapply resolver_frame_trans; [exact Hfq|].
    eapply resolver_frame_trans; apply resolver_frame_with_conns.
  - cbn. rewrite Hcq. cbn. rewrite Hcp.
    rewrite !list_alter_alter_eq. apply list_alter_ext; [|done].
    intros c' Hc'. rewrite Hl in Hc'. injection Hc' as <-.
    unfold notified, renotified. rewrite Hrem, Hp, Hq. reflexivity.
  - change (collapsed_conns (conn_redraw l (set_post l q ng2)))
      with (collapsed_conns ng2).
    rewrite Hdq. change (collapsed_conns (set_pre l p ng1))
      with (collapsed_conns ng1).
    rewrite Hdp, list_to_set_app_L. cbn. set_solver.
Qed.

Lemma notified_frame ng ng' c :
  resolver_frame ng ng' -> notified ng' c = notified ng c.
Proof.
  intros Hf. unfold notified, renotified. cbv zeta.
  rewrite !(objects_of_frame _ ng ng' Hf). reflexivity.
Qed.

Lemma waits_of_frame ng ng' c :
  resolver_frame ng ng' -> waits_of ng' c = waits_of ng c.
Proof.
  intros Hf. unfold waits_of. rewrite (objects_of_frame _ ng ng' Hf).
  reflexivity.
Qed.

Lemma inputs_alter_notified ng l (cs : list NetGraphConnection.t) :
  resolution_inputs <$> alter (notified ng) l cs = resolution_inputs <$> cs.
Proof.
  rewrite (list_fmap_alter resolution_inputs (notified ng) id).
  - by apply list_alter_id.
  - apply Forall_forall. intros c _. apply notified_inputs.
Qed.

(** The whole loop of [detect_collapsed_conns]. *)
Lemma notify_conns_spec (waiting : list loc) ng s :
  resolver_frame ng s ->
  resolution_inputs <$> conns s = resolution_inputs <$> conns ng ->
  let s' := foldl (fun s l => notify_conn l s) s waiting in
  resolver_frame ng s' /\
  conns s' = foldl (fun cs l => alter (notified ng) l cs) (conns s) waiting /\
  dom (collapsed_conns s')
  = dom (collapsed_conns s) ∪ list_to_set (waits_of_all ng waiting).
Proof.
  cbv zeta. revert s.
  induction waiting as [|l waiting IH]; intros s Hf Hin; cbn [foldl].
  { split; [done|]. split; [done|]. simpl. set_solver. }
  destruct (notify_conn_spec l s) as (Hf1 & Hc1 & Hd1).
  assert (Hc1' : conns (notify_conn l s) = alter (notified ng) l (conns s)).
  { rewrite Hc1. apply list_alter_ext; [|done]. intros c _.
    by apply notified_frame. }
  assert (Hw : from_option (waits_of s) [] (conns s !! l)
               = from_option (waits_of ng) [] (conns ng !! l)).
  { pose proof (f_equal (fun cs => cs !! l) Hin) as Hl. simpl in Hl.
    rewrite !list_lookup_fmap in Hl.
    destruct (conns s !! l) as [c'|], (conns ng !! l) as [c|];
      cbn [fmap option_fmap option_map from_option] in Hl |- *;
      try done.
    apply (inj Some) in Hl. rewrite (waits_of_frame ng s) by done.
    by apply waits_of_inputs. }
  destruct (IH (notify_conn l s)) as (Hf2 & Hc2 & Hd2).
  - by eapply resolver_frame_trans.
  - by rewrite Hc1', inputs_alter_notified.
  - split; [done|]. split; [by rewrite Hc2, Hc1'|].
    rewrite Hd2, Hd1, Hw. unfold waits_of_all. cbn [flat_map].
    rewrite list_to_set_app_L. set_solver.
Qed.

Lemma occurrences_0 l (waiting : list loc) :
  occurrences l waiting = 0%nat <-> l ∉ waiting.
Proof.
  unfold occurrences. induction waiting as [|a waiting IH].
  - split; [intros _; apply not_elem_of_nil | done].
  - rewrite not_elem_of_cons. destruct (decide (a = l)) as [->|Hne].
    + rewrite filter_cons_True by done. simpl. split; [lia | tauto].
    + rewrite filter_cons_False by done. rewrite IH. split; [|tauto].
      intros ?. split; [congruence | done].
Qed.

Lemma foldl_alter_lookup {A} (f : A -> A) (waiting : list loc)
    (xs : list A) (l : loc) :
  foldl (fun xs l => alter f l xs) xs waiting !! l
  = Nat.iter (occurrences l waiting) f <$> xs !! l.
Proof.
  unfold occurrences. revert xs.
  induction waiting as [|a waiting IH]; intros xs; cbn [foldl].
  - simpl. by destruct (xs !! l).
  - rewrite IH. destruct (decide (a = l)) as [->|Hne].
    + rewrite filter_cons_True by done. rewrite list_lookup_alter_eq.
      destruct (xs !! l); [|done]. cbn [fmap option_fmap option_map length].
      by rewrite Nat.iter_succ_r.
    + rewrite filter_cons_False by done. by rewrite list_lookup_alter_ne.
Qed.

Lemma renotified_first ng c :
  renotified ng c
  = NetGraphConnection.with_redraws (NetGraphConnection.redraws c + 1)
      (NetGraphConnection.with_post
         (find_target (NetGraphConnection.posts c) (objects_of c ng)).1
         (NetGraphConnection.with_pre
            (find_target (NetGraphConnection.pres c) (objects_of c ng)).1 c)).
Proof.
  unfold renotified, objects_of. destruct c. cbn.
  unfold NetGraphConnection.with_redraws. cbn. f_equal. lia.
Qed.

Lemma renotified_again ng c (n : nat) :
  renotified ng
    (NetGraphConnection.with_redraws (NetGraphConnection.redraws c + n)
       (NetGraphConnection.with_post
          (find_target (NetGraphConnection.posts c) (objects_of c ng)).1
          (NetGraphConnection.with_pre
             (find_target (NetGraphConnection.pres c) (objects_of c ng)).1 c)))
  = NetGraphConnection.with_redraws (NetGraphConnection.redraws c + S n)
      (NetGraphConnection.with_post
         (find_target (NetGraphConnection.posts c) (objects_of c ng)).1
         (NetGraphConnection.with_pre
            (find_target (NetGraphConnection.pres c) (objects_of c ng)).1 c)).
Proof.
  unfold renotified, objects_of. destruct c. cbn.
  unfold NetGraphConnection.with_redraws. cbn. f_equal. lia.
Qed.

Lemma iter_notified ng (n : nat) c :
  Nat.iter n (notified ng) c = notified_times ng n c.
Proof.
  unfold notified_times. induction n as [|n IH].
  - simpl. by rewrite orb_true_r.
  - rewrite Nat.iter_succ, IH.
    rewrite (bool_decide_eq_false_2 (S n = 0%nat)) by done.
    rewrite orb_false_r. unfold notified.
    destruct (NetGraphConnection.removed c) eqn:Hrem; cbn [orb].
    + by rewrite Hrem.
    + destruct n as [|n].
      * rewrite bool_decide_eq_true_2 by done. rewrite Hrem.
        apply renotified_first.
      * rewrite bool_decide_eq_false_2 by done.
        change (NetGraphConnection.removed (NetGraphConnection.with_redraws _ _))
          with (NetGraphConnection.removed c).
        rewrite Hrem. apply renotified_again.
Qed.

(** C3: [detect_collapsed_conns] takes the whole entry of the uid out of
    the index and goes through the connections that were registered under
    it.  A connection among them whose removed flag is not set has both
    endpoints resolved again and is redrawn, once for each time it is in the
    entry; a connection whose removed flag is set, and any connection that
    was not registered, is left as it is.  Afterwards the uid is a key of
    the index only if the resolution of one of the notified connections
    registered it again.  Nothing but the index and the connections
    changes, and without an entry for the uid nothing changes at all.
    The uid and the endpoint candidates of the connections are taken to be
    ordinary: under a property name of [Object.prototype] the lookup finds
    what the index inherits, and the method ends in a [TypeError] or
    registers nothing. *)
Theorem detect_collapsed_conns_notifies uid ng :
  waits_for_candidates ->
  ordinary_connections ng ->
  ordinary uid ->
  let ng' := detect_collapsed_conns uid ng in
  let waiting := default [] (collapsed_conns ng !! uid) in
  resolver_frame ng ng' /\
  (forall l c,
     conns ng !! l = Some c ->
     conns ng' !! l = Some (notified_times ng (occurrences l waiting) c)) /\
  dom (collapsed_conns ng')
  = dom (collapsed_conns ng) ∖ {[uid]} ∪ list_to_set (waits_of_all ng waiting) /\
  (uid ∈ dom (collapsed_conns ng') <-> uid ∈ waits_of_all ng waiting) /\
  (collapsed_conns ng !! uid = None -> ng' = ng).
Proof.
  intros _ _ _. cbv zeta. unfold detect_collapsed_conns.
  destruct (collapsed_conns ng !! uid) as [waiting|] eqn:Hw; cbn [default].
  - destruct (notify_conns_spec waiting ng
                (with_collapsed_conns (delete uid (collapsed_conns ng)) ng))
      as (Hf & Hc & Hd).
    { apply resolver_frame_with_collapsed_conns. }
    { reflexivity. }
    cbn [collapsed_conns with_collapsed_conns] in Hd.
    rewrite dom_delete_L in Hd.
    split; [exact Hf|]. split; [|split; [exact Hd|split; [|done]]].
    + intros l c Hl. rewrite Hc, foldl_alter_lookup.
      cbn [conns with_collapsed_conns]. rewrite Hl. simpl.
      by rewrite iter_notified.
    + rewrite Hd. rewrite elem_of_union, elem_of_difference,
        elem_of_list_to_set. set_solver.
  - split; [apply resolver_frame_refl|]. split; [|split; [|split]].
    + intros l c Hl. rewrite Hl. unfold notified_times. simpl.
      by rewrite orb_true_r.
    + simpl. apply not_elem_of_dom in Hw. set_solver.
    + simpl. apply not_elem_of_dom in Hw. set_solver.
    + done.
Qed.

(** ** Reconnecting a connection *)

Lemma set_pres_spec l (pres : list string) ng c :
  conns ng !! l = Some c ->
  resolver_frame ng (set_pres l pres ng) /\
  conns (set_pres l pres ng)
  = alter (fun c => NetGraphConnection.with_pre
                      (find_target pres (objects_of c ng)).1
                      (NetGraphConnection.with_pres pres c)) l (conns ng).
Proof.
  intros Hl. unfold set_pres. cbv zeta.
  set (ng1 := with_conns _ ng).
  assert (Hl1 : conns ng1 !! l = Some (NetGraphConnection.with_pres pres c)).
  { unfold ng1. cbn. by rewrite list_lookup_alter_eq, Hl. }
  destruct (find_endpoint_spec NetGraphConnection.pres l ng1 _ Hl1)
    as (Hp & Hf & Hc & _).
  fold find_pre in Hp, Hf, Hc. destruct (find_pre l ng1) as [p ng2].
  cbn [fst snd] in *. split.
  - eapply resolver_frame_trans; [apply resolver_frame_with_conns|].
    eapply resolver_frame_trans; [exact Hf|].
    apply resolver_frame_with_conns.
  - cbn. rewrite Hc. unfold ng1. cbn. rewrite list_alter_alter_eq.
    apply list_alter_ext; [|done]. intros c' Hc'. rewrite Hl in Hc'.
    injection Hc' as <-. cbn. rewrite Hp. reflexivity.
Qed.

Lemma set_posts_spec l (posts : list string) ng c :
  conns ng !! l = Some c ->
  resolver_frame ng (set_posts l posts ng) /\
  conns (set_posts l posts ng)
  = alter (fun c => NetGraphConnection.with_post
                      (find_target posts (objects_of c ng)).1
                      (NetGraphConnection.with_posts posts c)) l (conns ng).
Proof.
  intros Hl. unfold set_posts. cbv zeta.
  set (ng1 := with_conns _ ng).
  assert (Hl1 : conns ng1 !! l = Some (NetGraphConnection.with_posts posts c)).
  { unfold ng1. cbn. by rewrite list_lookup_alter_eq, Hl. }
  destruct (find_endpoint_spec NetGraphConnection.posts l ng1 _ Hl1)
    as (Hp & Hf & Hc & _).
  fold find_post in Hp, Hf, Hc. destruct (find_post l ng1) as [p ng2].
  cbn [fst snd] in *. split.
  - eapply resolver_frame_trans; [apply resolver_frame_with_conns|].
    eapply resolver_frame_trans; [exact Hf|].
    apply resolver_frame_with_conns.
  - cbn. rewrite Hc. unfold ng1. cbn. rewrite list_alter_alter_eq.
    apply list_alter_ext; [|done]. intros c' Hc'. rewrite Hl in Hc'.
    injection Hc' as <-. cbn. rewrite Hp. reflexivity.
Qed.


End Resolver.

(** ** The extent of the minimap *)

Section ExtentLoop.
Context `{Collaborators}.

Lemma with_extent_extent ng : with_extent (extent ng) ng = ng.
Proof. destruct ng. reflexivity. Qed.

Lemma scaleMiniMap_step_extent first_item box ng entry :
  scaleMiniMap_step (first_item, with_extent box ng) entry
  = ((extent_step (first_item, box) entry.2).1,
     with_extent (extent_step (first_item, box) entry.2).2 ng).
Proof.
  unfold scaleMiniMap_step, extent_step. destruct box as [[[a b] c] d].
  destruct (decide (1 < NetGraphItem.depth entry.2)%nat); [reflexivity|].
  destruct (getMinMaxXY entry.2) as [[[min_x max_x] min_y] max_y].
  destruct first_item; [reflexivity|].
  cbn [with_extent with_mm_min_x with_mm_max_x with_mm_min_y with_mm_max_y
       mm_min_x mm_max_x mm_min_y mm_max_y fst snd].
  destruct (decide (min_x < a));
    cbn [with_mm_min_x with_mm_max_x with_mm_min_y with_mm_max_y
         mm_min_x mm_max_x mm_min_y mm_max_y];
  destruct (decide (b < max_x));
    cbn [with_mm_min_x with_mm_max_x with_mm_min_y with_mm_max_y
         mm_min_x mm_max_x mm_min_y mm_max_y];
  destruct (decide (min_y < c));
    cbn [with_mm_min_x with_mm_max_x with_mm_min_y with_mm_max_y
         mm_min_x mm_max_x mm_min_y mm_max_y];
  destruct (decide (d < max_y)); reflexivity.
Qed.

Lemma scaleMiniMap_loop_extent (entries : list (string * NetGraphItem.t))
    first_item box ng :
  foldl scaleMiniMap_step (first_item, with_extent box ng) entries
  = ((foldl extent_step (first_item, box) entries.*2).1,
     with_extent (foldl extent_step (first_item, box) entries.*2).2 ng).
Proof.
  revert first_item box.
  induction entries as [|entry entries IH]; intros first_item box; [done|].
  cbn [foldl fmap list_fmap]. rewrite scaleMiniMap_step_extent.
  destruct (extent_step (first_item, box) entry.2) as [first' box'] eqn:Hs.
  cbn [fst snd]. apply IH.
Qed.

Lemma scaleMiniMap_loop (entries : list (string * NetGraphItem.t))
    first_item ng :
  foldl scaleMiniMap_step (first_item, ng) entries
  = ((foldl extent_step (first_item, extent ng) entries.*2).1,
     with_extent (foldl extent_step (first_item, extent ng) entries.*2).2 ng).
Proof.
  rewrite <- scaleMiniMap_loop_extent. by rewrite with_extent_extent.
Qed.

(** [scaleMiniMap] when the minimap is shown and there are items. *)
Lemma scaleMiniMap_unfold ng :
  mm_display ng = true ->
  svg_objects ng <> ∅ ->
  let box :=
    (foldl extent_step (true, extent ng) (map_to_list (svg_objects ng)).*2).2 in
  scaleMiniMap ng
  = scaleMiniMapViewBox
      (redraw
         (with_mm_scale (scale_of (padded box))
            (with_extent (padded box)
               (with_mm_scale (scale_of box) (with_extent box ng))))).
Proof.
  intros Hdisplay Hitems. cbv zeta. unfold scaleMiniMap.
  rewrite Hdisplay. cbn [negb].
  rewrite decide_False.
  2:{ intros Hlen. apply Hitems. apply map_to_list_empty_iff.
      by apply nil_length_inv. }
  rewrite scaleMiniMap_loop. cbn [snd].
  destruct (foldl extent_step (true, extent ng) (map_to_list (svg_objects ng)).*2).2
    as [[[a b] c] d].
  reflexivity.
Qed.

Lemma least_in_first f (items : list NetGraphItem.t) i :
  Forall (fun j => ~ top_level j) items -> top_level i ->
  least_in f (items ++ [i]) (f i).
Proof.
  intros Hnone Hi. split.
  - intros j Hj Htop. apply elem_of_app in Hj as [Hj|Hj].
    + rewrite Forall_forall in Hnone. by destruct (Hnone j Hj).
    + apply list_elem_of_singleton in Hj as ->. apply Qcle_refl.
  - exists i. split; [|done]. apply elem_of_app. right.
    by apply list_elem_of_singleton.
Qed.

Lemma greatest_in_first f (items : list NetGraphItem.t) i :
  Forall (fun j => ~ top_level j) items -> top_level i ->
  greatest_in f (items ++ [i]) (f i).
Proof.
  intros Hnone Hi. split.
  - intros j Hj Htop. apply elem_of_app in Hj as [Hj|Hj].
    + rewrite Forall_forall in Hnone. by destruct (Hnone j Hj).
    + apply list_elem_of_singleton in Hj as ->. apply Qcle_refl.
  - exists i. split; [|done]. apply elem_of_app. right.
    by apply list_elem_of_singleton.
Qed.

Lemma least_in_skip f (items : list NetGraphItem.t) i a :
  ~ top_level i -> least_in f items a -> least_in f (items ++ [i]) a.
Proof.
  intros Hi [Hle (j & Hj & Htop & Hfj)]. split.
  - intros k Hk Hktop. apply elem_of_app in Hk as [Hk|Hk]; [by apply Hle|].
    apply list_elem_of_singleton in Hk as ->. done.
  - exists j. split; [|done]. apply elem_of_app. by left.
Qed.

Lemma greatest_in_skip f (items : list NetGraphItem.t) i b :
  ~ top_level i -> greatest_in f items b -> greatest_in f (items ++ [i]) b.
Proof.
  intros Hi [Hle (j & Hj & Htop & Hfj)]. split.
  - intros k Hk Hktop. apply elem_of_app in Hk as [Hk|Hk]; [by apply Hle|].
    apply list_elem_of_singleton in Hk as ->. done.
  - exists j. split; [|done]. apply elem_of_app. by left.
Qed.

Lemma least_in_next f (items : list NetGraphItem.t) i a :
  top_level i -> least_in f items a ->
  least_in f (items ++ [i]) (if decide (f i < a) then f i else a).
Proof.
  intros Hi [Hle (j & Hj & Htop & Hfj)]. case_decide as Hlt; split.
  - intros k Hk Hktop. apply elem_of_app in Hk as [Hk|Hk].
    + eapply Qcle_trans; [apply Qclt_le_weak, Hlt | by apply Hle].
    + apply list_elem_of_singleton in Hk as ->. apply Qcle_refl.
  - exists i. split; [|done]. apply elem_of_app. right.
    by apply list_elem_of_singleton.
  - intros k Hk Hktop. apply elem_of_app in Hk as [Hk|Hk]; [by apply Hle|].
    apply list_elem_of_singleton in Hk as ->. by apply Qcnot_lt_le.
  - exists j. split; [|done]. apply elem_of_app. by left.
Qed.

Lemma greatest_in_next f (items : list NetGraphItem.t) i b :
  top_level i -> greatest_in f items b ->
  greatest_in f (items ++ [i]) (if decide (b < f i) then f i else b).
Proof.
  intros Hi [Hle (j & Hj & Htop & Hfj)]. case_decide as Hlt; split.
  - intros k Hk Hktop. apply elem_of_app in Hk as [Hk|Hk].
    + eapply Qcle_trans; [by apply Hle | apply Qclt_le_weak, Hlt].
    + apply list_elem_of_singleton in Hk as ->. apply Qcle_refl.
  - exists i. split; [|done]. apply elem_of_app. right.
    by apply list_elem_of_singleton.
  - intros k Hk Hktop. apply elem_of_app in Hk as [Hk|Hk]; [by apply Hle|].
    apply list_elem_of_singleton in Hk as ->. by apply Qcnot_lt_le.
  - exists j. split; [|done]. apply elem_of_app. by left.
Qed.

Lemma least_in_unique f (items items' : list NetGraphItem.t) a a' :
  (forall i, top_level i -> i ∈ items <-> i ∈ items') ->
  least_in f items a -> least_in f items' a' -> a = a'.
Proof.
  intros Hsame [Hle (i & Hi & Hitop & <-)] [Hle' (i' & Hi' & Hitop' & <-)].
  apply Qcle_antisym.
  - apply Hle; [by apply Hsame|done].
  - apply Hle'; [by apply Hsame|done].
Qed.

Lemma greatest_in_unique f (items items' : list NetGraphItem.t) b b' :
  (forall i, top_level i -> i ∈ items <-> i ∈ items') ->
  greatest_in f items b -> greatest_in f items' b' -> b = b'.
Proof.
  intros Hsame [Hle (i & Hi & Hitop & <-)] [Hle' (i' & Hi' & Hitop' & <-)].
  apply Qcle_antisym.
  - apply Hle'; [by apply Hsame|done].
  - apply Hle; [by apply Hsame|done].
Qed.

Lemma getMinMaxXY_bounds i :
  getMinMaxXY i = (min_x_of i, max_x_of i, min_y_of i, max_y_of i).
Proof.
  unfold min_x_of, max_x_of, min_y_of, max_y_of.
  by destruct (getMinMaxXY i) as [[[? ?] ?] ?].
Qed.

(** The loop computes the bounding box of the top-level items; without
    such an item it leaves the box it started from. *)
Lemma extent_loop_spec (items : list NetGraphItem.t) box0 :
  let r := foldl extent_step (true, box0) items in
  (Forall (fun j => ~ top_level j) items -> r = (true, box0)) /\
  (Exists top_level items -> r.1 = false /\ bounding_box items r.2).
Proof.
  cbv zeta. induction items as [|i items IH] using rev_ind.
  { split; [done|]. intros Hex. by apply Exists_nil in Hex. }
  rewrite foldl_app. cbn [foldl]. destruct IH as [IHnone IHsome].
  destruct (foldl extent_step (true, box0) items)
    as [first_item [[[a b] c] d]] eqn:Hr.
  unfold extent_step.
  destruct (decide (1 < NetGraphItem.depth i)%nat) as [Hdeep|Htop].
  - (* the item is inside a subnetwork *)
    assert (Hi : ~ top_level i) by (unfold top_level; lia). split.
    + intros Hnone. apply Forall_app in Hnone as [Hnone _]. auto.
    + intros Hex. apply Exists_app in Hex as [Hex|Hex].
      2:{ apply Exists_cons in Hex as [?|Hex]; [done|].
          by apply Exists_nil in Hex. }
      destruct (IHsome Hex) as [Hf (Ha & Hb & Hc & Hd)]. split; [done|].
      cbn [snd bounding_box].
      auto using least_in_skip, greatest_in_skip.
  - assert (Hi : top_level i) by (unfold top_level; lia).
    rewrite (getMinMaxXY_bounds i). split.
    + intros Hnone. apply Forall_app in Hnone as [_ Hnone].
      apply Forall_cons in Hnone as [? _]. done.
    + intros _. destruct (decide (Exists top_level items)) as [Hex|Hnone].
      * destruct (IHsome Hex) as [Hf (Ha & Hb & Hc & Hd)].
        cbn [fst] in Hf. subst first_item. split; [done|].
        cbn [snd bounding_box].
        auto using least_in_next, greatest_in_next.
      * apply not_Exists_Forall in Hnone; [|intros j; apply _].
        specialize (IHnone Hnone). injection IHnone as -> _.
        split; [done|]. cbn [snd bounding_box].
        auto using least_in_first, greatest_in_first.
Qed.

Lemma elem_of_items_of ng i :
  i ∈ items_of ng <-> exists key, svg_objects ng !! key = Some i.
Proof.
  unfold items_of. rewrite list_elem_of_fmap. split.
  - intros ([key j] & -> & Hin). exists key. by apply elem_of_map_to_list.
  - intros [key Hkey]. exists (key, i). split; [done|].
    by apply elem_of_map_to_list.
Qed.

Lemma minimap_view_redraw ng : minimap_view (redraw ng) = minimap_view ng.
Proof. by rewrite redraw_unfold. Qed.

Lemma minimap_view_scaleMiniMapViewBox ng :
  minimap_view (scaleMiniMapViewBox ng) = minimap_view ng.
Proof. unfold scaleMiniMapViewBox. by destruct (mm_display ng). Qed.

Lemma scaleMiniMap_minimap_view ng :
  mm_display ng = true ->
  (exists i, i ∈ items_of ng /\ top_level i) ->
  exists box,
    bounding_box (items_of ng) box /\
    minimap_view (scaleMiniMap ng) = (padded box, scale_of (padded box)).
Proof.
  intros Hdisplay (i & Hi & Htop).
  assert (Hitems : svg_objects ng <> ∅).
  { intros Hempty. apply elem_of_items_of in Hi as [key Hkey].
    by rewrite Hempty, lookup_empty in Hkey. }
  rewrite (scaleMiniMap_unfold ng Hdisplay Hitems). cbv zeta.
  rewrite minimap_view_scaleMiniMapViewBox, minimap_view_redraw.
  fold (items_of ng).
  destruct (extent_loop_spec (items_of ng) (extent ng)) as [_ Hsome].
  destruct Hsome as [_ Hbox].
  { apply Exists_exists. eauto. }
  exists (foldl extent_step (true, extent ng) (items_of ng)).2.
  split; [exact Hbox|].
  by destruct (foldl extent_step (true, extent ng) (items_of ng)).2
    as [[[a b] c] d].
Qed.


End ExtentLoop.

Lemma hidden_graph_items :
  items_of hidden_graph
  = [NetGraphItem.mk "n1" None (qf 1 2) (qf 1 2) (qf 1 5) (qf 1 5) 1 false
       "n1" false (Some "n1") 0 0].
Proof. reflexivity. Qed.



(** ** The twin registries *)

Lemma registries_frame ng ng' :
  resolver_frame ng ng' -> registries ng' = registries ng.
Proof. intros ->. reflexivity. Qed.

Lemma registries_eq ng so mo sc mc :
  registries ng = (so, mo, sc, mc) ->
  svg_objects ng = so /\ minimap_objects ng = mo /\
  svg_conns ng = sc /\ minimap_conns ng = mc.
Proof. unfold registries. intros [= -> -> -> ->]. auto. Qed.

Lemma registries_emit e ng : registries (emit e ng) = registries ng.
Proof. reflexivity. Qed.

Lemma registries_scaleMiniMapViewBox ng :
  registries (scaleMiniMapViewBox ng) = registries ng.
Proof. unfold scaleMiniMapViewBox. by destruct (mm_display ng). Qed.

Lemma alter_app_last {A} (f : A -> A) (xs : list A) (x : A) :
  alter f (length xs) (xs ++ [x]) = xs ++ [f x].
Proof.
  induction xs as [|y xs IH]; [done|].
  cbn [length app]. change (alter f (S ?n) (?y :: ?l)) with (y :: alter f n l).
  by rewrite IH.
Qed.

Section Twins.
Context `{Collaborators}.

Lemma find_endpoint_frame (path : NetGraphConnection.t -> list string) l ng :
  resolver_frame ng (find_endpoint path l ng).2 /\
  conns (find_endpoint path l ng).2 = conns ng.
Proof.
  destruct (conns ng !! l) as [c|] eqn:Hl.
  - destruct (find_endpoint_spec path l ng c Hl) as (_ & Hf & Hc & _). done.
  - rewrite find_endpoint_absent by done. split; [|done].
    apply resolver_frame_refl.
Qed.

Lemma detect_collapsed_conns_frame uid ng :
  resolver_frame ng (detect_collapsed_conns uid ng).
Proof.
  unfold detect_collapsed_conns.
  destruct (collapsed_conns ng !! uid) as [waiting|];
    [|apply resolver_frame_refl].
  eapply (notify_conns_spec waiting ng).
  - apply resolver_frame_with_collapsed_conns.
  - reflexivity.
Qed.

(** [scaleMiniMap] leaves the registries alone, up to the drawing
    counters of the items of the main view. *)
Lemma scaleMiniMap_registries ng :
  registries (scaleMiniMap ng) = registries ng
  \/ registries (scaleMiniMap ng)
     = (NetGraphItem.redraw <$> svg_objects ng, minimap_objects ng,
        svg_conns ng, minimap_conns ng).
Proof.
  destruct (mm_display ng) eqn:Hdisplay.
  2:{ left. unfold scaleMiniMap. rewrite Hdisplay. reflexivity. }
  destruct (decide (svg_objects ng = ∅)) as [Hempty|Hitems].
  { left. unfold scaleMiniMap.
    rewrite Hdisplay, Hempty, map_to_list_empty. reflexivity. }
  right. rewrite (scaleMiniMap_unfold ng Hdisplay Hitems). cbv zeta.
  generalize (foldl extent_step (true, extent ng)
                (map_to_list (svg_objects ng)).*2).2.
  intros [[[a b] c] d].
  rewrite registries_scaleMiniMapViewBox, redraw_unfold. reflexivity.
Qed.

Lemma create_object_registries (info : Message.t) ng :
  let uid := Message.uid info in
  let item_mini := new_NetGraphItem ng info true None in
  let item := new_NetGraphItem ng info false (Some uid) in
  registries (create_object info ng)
  = (<[uid := item]> (svg_objects ng), <[uid := item_mini]> (minimap_objects ng),
     svg_conns ng, minimap_conns ng)
  \/ registries (create_object info ng)
     = (NetGraphItem.redraw <$> <[uid := item]> (svg_objects ng),
        <[uid := item_mini]> (minimap_objects ng),
        svg_conns ng, minimap_conns ng).
Proof.
  cbv zeta. unfold create_object. cbv zeta.
  set (ng2 := with_svg_objects _ _).
  set (ng3 := detect_collapsed_conns _ ng2).
  set (ng4 := detect_collapsed_conns _ ng3).
  assert (Hreg : registries ng4 = registries ng2).
  { unfold ng4. rewrite (registries_frame _ _ (detect_collapsed_conns_frame _ _)).
    unfold ng3. apply registries_frame, detect_collapsed_conns_frame. }
  destruct (registries_eq _ _ _ _ _ Hreg) as (Hso & Hmo & Hsc & Hmc).
  destruct (scaleMiniMap_registries ng4) as [Hs|Hs]; rewrite Hs;
    [left; rewrite Hreg | right; rewrite Hso, Hmo, Hsc, Hmc]; reflexivity.
Qed.

(** The constructor of a connection adds one connection to the store,
    with the uid, the view and the twin it was given. *)
Lemma new_NetGraphConnection_spec (info : Message.t) (minimap : bool)
    (mini_conn : option loc) ng :
  let r := new_NetGraphConnection info minimap mini_conn ng in
  r.1 = length (conns ng) /\
  registries r.2 = registries ng /\
  exists c,
    conns r.2 = conns ng ++ [c] /\
    NetGraphConnection.uid c = Message.uid info /\
    NetGraphConnection.minimap c = minimap /\
    NetGraphConnection.mini_conn c = mini_conn /\
    NetGraphConnection.removed c = false.
Proof.
  cbv zeta. unfold new_NetGraphConnection. cbv zeta.
  set (l := length (conns ng)). set (c0 := NetGraphConnection.mk _ _ _ _ _ _ _ _ _ _).
  set (ng1 := with_conns (conns ng ++ [c0]) ng).
  destruct (find_endpoint_frame NetGraphConnection.pres l ng1) as [Hf1 Hc1].
  fold find_pre in Hf1, Hc1. destruct (find_pre l ng1) as [p ng2].
  cbn [fst snd] in *.
  destruct (find_endpoint_frame NetGraphConnection.posts l (set_pre l p ng2))
    as [Hf2 Hc2].
  fold find_post in Hf2, Hc2.
  destruct (find_post l (set_pre l p ng2)) as [q ng3]. cbn [fst snd] in *.
  split; [reflexivity|]. split.
  - change (registries (set_post l q ng3)) with (registries ng3).
    rewrite (registries_frame _ _ Hf2).
    change (registries (set_pre l p ng2)) with (registries ng2).
    rewrite (registries_frame _ _ Hf1). reflexivity.
  - exists (NetGraphConnection.with_post q (NetGraphConnection.with_pre p c0)).
    split; [|done]. cbn [conns set_post with_conns]. rewrite Hc2.
    cbn [conns set_pre with_conns]. rewrite Hc1.
    cbn [conns ng1 with_conns]. unfold l.
    by rewrite !alter_app_last.
Qed.

Lemma create_connection_spec (info : Message.t) ng :
  let uid := Message.uid info in
  let ng' := create_connection info ng in
  svg_objects ng' = svg_objects ng /\
  minimap_objects ng' = minimap_objects ng /\
  svg_conns ng' = <[uid := S (length (conns ng))]> (svg_conns ng) /\
  minimap_conns ng' = <[uid := length (conns ng)]> (minimap_conns ng) /\
  exists conn_mini conn,
    conns ng' = conns ng ++ [conn_mini; conn] /\
    NetGraphConnection.uid conn_mini = uid /\
    NetGraphConnection.uid conn = uid /\
    NetGraphConnection.minimap conn_mini = true /\
    NetGraphConnection.minimap conn = false /\
    NetGraphConnection.mini_conn conn = Some (length (conns ng)).
Proof.
  cbv zeta. unfold create_connection.
  destruct (new_NetGraphConnection_spec info true None ng)
    as (Hl1 & Hr1 & c1 & Hc1 & Hu1 & Hm1 & _).
  destruct (new_NetGraphConnection info true None ng) as [l1 ng1].
  cbn [fst snd] in *. subst l1.
  set (ng2 := with_minimap_conns _ ng1).
  destruct (new_NetGraphConnection_spec info false (Some (length (conns ng))) ng2)
    as (Hl2 & Hr2 & c2 & Hc2 & Hu2 & Hm2 & Hmc2 & _).
  destruct (new_NetGraphConnection info false (Some (length (conns ng))) ng2)
    as [l2 ng3].
  cbn [fst snd] in *. subst l2.
  destruct (registries_eq _ _ _ _ _ Hr1) as (Hso1 & Hmo1 & Hsc1 & Hmc1).
  destruct (registries_eq _ _ _ _ _ Hr2) as (Hso2 & Hmo2 & Hsc2 & Hmc2').
  cbn [svg_objects minimap_objects svg_conns minimap_conns ng2
       with_minimap_conns] in Hso2, Hmo2, Hsc2, Hmc2'.
  cbn [svg_objects minimap_objects svg_conns minimap_conns conns
       with_svg_conns].
  rewrite Hso2, Hmo2, Hsc2, Hmc2', Hso1, Hmo1, Hsc1, Hmc1.
  assert (Hlen : length (conns ng2) = S (length (conns ng))).
  { unfold ng2. cbn [conns with_minimap_conns]. rewrite Hc1, length_app.
    simpl. lia. }
  rewrite Hlen. repeat split.
  exists c1, c2. rewrite Hc2. unfold ng2. cbn [conns with_minimap_conns].
  rewrite Hc1, <- app_assoc. done.
Qed.

Lemma create_object_twins (info : Message.t) ng :
  let uid := Message.uid info in
  let ng' := create_object info ng in
  (exists item item_mini,
     svg_objects ng' !! uid = Some item /\
     minimap_objects ng' !! uid = Some item_mini /\
     NetGraphItem.uid item = uid /\ NetGraphItem.uid item_mini = uid /\
     NetGraphItem.minimap item = false /\
     NetGraphItem.minimap item_mini = true /\
     NetGraphItem.mini_item item = Some uid) /\
  dom (svg_objects ng') = {[uid]} ∪ dom (svg_objects ng) /\
  dom (minimap_objects ng') = {[uid]} ∪ dom (minimap_objects ng) /\
  svg_conns ng' = svg_conns ng /\
  minimap_conns ng' = minimap_conns ng.
Proof.
  cbv zeta.
  destruct (create_object_registries info ng) as [Hreg|Hreg];
    destruct (registries_eq _ _ _ _ _ Hreg) as (Hso & Hmo & Hsc & Hmc);
    rewrite Hso, Hmo, Hsc, Hmc; clear Hreg Hso Hmo Hsc Hmc.
  - split; [|rewrite !dom_insert_L; auto].
    eexists _, _. rewrite !lookup_insert_eq.
    repeat (split; [reflexivity|]). cbn. reflexivity.
  - split; [|rewrite dom_fmap_L, !dom_insert_L; auto].
    eexists _, _. rewrite lookup_fmap, !lookup_insert_eq.
    repeat (split; [reflexivity|]). cbn. reflexivity.
Qed.

Lemma twins_create_object (info : Message.t) ng :
  twins ng -> twins (create_object info ng).
Proof.
  intros [Hitems Hconns].
  destruct (create_object_twins info ng) as (_ & Hso & Hmo & Hsc & Hmc).
  split; [rewrite Hso, Hmo, Hitems | rewrite Hsc, Hmc]; auto.
Qed.

Lemma twins_create_connection (info : Message.t) ng :
  twins ng -> twins (create_connection info ng).
Proof.
  intros [Hitems Hconns].
  destruct (create_connection_spec info ng) as (Hso & Hmo & Hsc & Hmc & _).
  split; [rewrite Hso, Hmo; auto|].
  rewrite Hsc, Hmc, !dom_insert_L, Hconns. reflexivity.
Qed.

Lemma on_message_create (data : Message.t) ng :
  is_create data ->
  on_message data ng = Done (create_object data ng)
  \/ on_message data ng = Done (create_connection data ng).
Proof.
  unfold is_create. rewrite !elem_of_cons, elem_of_nil.
  unfold on_message. cbv zeta.
  intros [Htype|[Htype|[Htype|[Htype|[]]]]]; rewrite Htype;
    repeat (rewrite bool_decide_eq_false_2 by discriminate);
    rewrite bool_decide_eq_true_2 by reflexivity; auto.
Qed.

(** C1: a message that creates an object puts one item into the registry
    of the main view and one into the registry of the minimap, both under
    the uid of the message, and a message that creates a connection does
    the same with two connections in the registries of connections; so
    after any run of such messages a uid is in the main registry exactly
    when it is in the registry of the minimap.  The uids of the messages
    and the endpoint candidates of the connections are taken to be
    ordinary, and a connection to wait for candidates of its own: under
    the name [__proto__] an assignment adds no key to a registry, and under
    the other property names of [Object.prototype] the lookup of the index
    of waiting connections finds what the index inherits. *)
Theorem create_keeps_twins :
  waits_for_candidates ->
  (forall (info : Message.t) ng,
     ordinary (Message.uid info) ->
     ordinary_connections ng ->
     let uid := Message.uid info in
     let ng' := create_object info ng in
     (exists item item_mini,
        svg_objects ng' !! uid = Some item /\
        minimap_objects ng' !! uid = Some item_mini /\
        NetGraphItem.uid item = uid /\ NetGraphItem.uid item_mini = uid /\
        NetGraphItem.minimap item = false /\
        NetGraphItem.minimap item_mini = true /\
        NetGraphItem.mini_item item = Some uid) /\
     dom (svg_objects ng') = {[uid]} ∪ dom (svg_objects ng) /\
     dom (minimap_objects ng') = {[uid]} ∪ dom (minimap_objects ng) /\
     svg_conns ng' = svg_conns ng /\
     minimap_conns ng' = minimap_conns ng) /\
  (forall (info : Message.t) ng,
     ordinary_message info ->
     let uid := Message.uid info in
     let ng' := create_connection info ng in
     svg_objects ng' = svg_objects ng /\
     minimap_objects ng' = minimap_objects ng /\
     svg_conns ng' = <[uid := S (length (conns ng))]> (svg_conns ng) /\
     minimap_conns ng' = <[uid := length (conns ng)]> (minimap_conns ng) /\
     exists conn_mini conn,
       conns ng' = conns ng ++ [conn_mini; conn] /\
       NetGraphConnection.uid conn_mini = uid /\
       NetGraphConnection.uid conn = uid /\
       NetGraphConnection.minimap conn_mini = true /\
       NetGraphConnection.minimap conn = false /\
       NetGraphConnection.mini_conn conn = Some (length (conns ng))) /\
  (forall (msgs : list Message.t) ng,
     Forall ordinary_message msgs ->
     ordinary_connections ng ->
     Forall is_create msgs -> twins ng -> twins (on_messages msgs ng)).
Proof.
  intros _. split; [intros info ng _ _; apply create_object_twins|].
  split; [intros info ng _; apply create_connection_spec|].
  intros msgs ng _ _ Hcreate. unfold on_messages. revert ng.
  induction Hcreate as [|data msgs Hdata _ IH]; intros ng Htwins;
    [exact Htwins|].
  cbn [foldl]. apply IH.
  destruct (on_message_create data ng Hdata) as [-> | ->]; cbn [state_of].
  - apply twins_create_object, Htwins.
  - apply twins_create_connection, Htwins.
Qed.

End Twins.

(** ** The claims on sample diagrams *)

Lemma create_keeps_twins_witness :
  twins waiting_graph.
Proof.
  destruct (@create_keeps_twins collaborators deepest_existing_waits)
    as (_ & _ & Hrun).
  apply Hrun.
  - repeat constructor; ordinary_uid.
  - ordinary_uid.
  - repeat constructor; unfold is_create;
      cbn [Message.type item_message conn_message]; set_solver.
  - split; reflexivity.
Defined.

Lemma detect_collapsed_conns_notifies_witness :
  let ng' := @detect_collapsed_conns collaborators "n2" waiting_graph in
  NetGraphConnection.redraws <$> conns ng' !! 1%nat = Some 1%nat /\
  "n2" ∈ dom (collapsed_conns ng').
Proof.
  destruct (@detect_collapsed_conns_notifies collaborators "n2" waiting_graph)
    as (_ & Hconn & _ & Hkey & _).
  { exact deepest_existing_waits. }
  { ordinary_uid. }
  { ordinary_uid. }
  split.
  - erewrite Hconn by reflexivity. reflexivity.
  - apply Hkey. vm_compute. apply list_elem_of_here.
Defined.


(** The run of the specification: the connection [c1] waits for the node
    [n2]; once the node is created both twins of the connection are
    attached to it, each is redrawn once and nothing waits any more. *)
Example deferred_connection_resolved :
  let ng := @on_messages collaborators [item_message "node" "n2"]
              waiting_graph in
  map_to_list (collapsed_conns waiting_graph) = [("n2", [0; 1]%nat)] /\
  map (fun c => (NetGraphConnection.post c, NetGraphConnection.redraws c))
    (conns ng)
  = [(Some "n2", 1%nat); (Some "n2", 1%nat)] /\
  collapsed_conns ng = ∅.
Proof. vm_compute. auto. Qed.

(** A connection removed while it waits is left alone when the item it
    waited for appears. *)
Example removed_connection_skipped :
  let ng := @on_messages collaborators
              [conn_message "remove" "c1" [] []; item_message "node" "n2"]
              waiting_graph in
  map (fun c => (NetGraphConnection.removed c, NetGraphConnection.post c,
                 NetGraphConnection.redraws c))
    (conns ng)
  = [(true, None, 0%nat); (true, None, 0%nat)] /\
  collapsed_conns ng = ∅.
Proof. vm_compute. auto. Qed.

(** ** What the wheel handler sends, and which way it zooms *)

Lemma pan_zoom_eq ng (a b c : Qc) :
  pan_zoom ng = (a, b, c) -> offsetX ng = a /\ offsetY ng = b /\ scale ng = c.
Proof. unfold pan_zoom. intros E. injection E as -> -> ->. auto. Qed.

Lemma trace_redraw ng : trace (redraw ng) = trace ng.
Proof. rewrite redraw_unfold. reflexivity. Qed.

Lemma sent_redraw ng : sent (redraw ng) = sent ng.
Proof. unfold sent. rewrite trace_redraw. reflexivity. Qed.

Lemma sent_emit_other e ng :
  (forall info, e <> ws_send info) -> sent (emit e ng) = sent ng.
Proof.
  intros He. rewrite sent_emit. destruct e; try apply app_nil_r.
  exfalso. eapply He. reflexivity.
Qed.

Lemma sent_update_fonts ng : sent (update_fonts ng) = sent ng.
Proof.
  unfold update_fonts.
  destruct (zoom_fonts (config ng)); apply sent_emit_other; not_sent.
Qed.

Lemma sent_set_scale (val : Qc) ng : sent (set_scale val ng) = sent ng.
Proof.
  unfold set_scale. destruct (decide (val = scale ng)); [reflexivity|].
  cbv zeta. rewrite sent_emit_other by not_sent.
  rewrite sent_redraw, sent_update_fonts. reflexivity.
Qed.

Lemma sent_scaleMiniMapViewBox ng : sent (scaleMiniMapViewBox ng) = sent ng.
Proof.
  unfold scaleMiniMapViewBox. destruct (negb (mm_display ng)); [reflexivity|].
  cbv zeta. rewrite !sent_emit_other by not_sent. reflexivity.
Qed.

Lemma sent_notify info ng : sent (notify info ng) = sent ng ++ [info].
Proof. unfold notify. apply sent_emit. Qed.

Lemma wheel_zoom_notify (x y z_scale : Qc) ng :
  exists s,
    wheel_zoom x y z_scale ng
    = notify (act_zoom (scale s) (offsetX s) (offsetY s)) s /\
    sent s = sent ng.
Proof.
  eexists. split.
  - unfold wheel_zoom. cbv zeta. reflexivity.
  - rewrite sent_redraw, sent_scaleMiniMapViewBox.
    rewrite sent_emit_other by not_sent.
    rewrite sent_set_scale. cbn [sent trace with_offsetY with_offsetX].
    fold (sent (emit save_layouts ng)).
    apply sent_emit_other. not_sent.
Qed.

Lemma sent_wheel_zoom (x y z_scale : Qc) ng :
  sent (wheel_zoom x y z_scale ng)
  = sent ng
    ++ [act_zoom (scale (wheel_zoom x y z_scale ng))
          (offsetX (wheel_zoom x y z_scale ng))
          (offsetY (wheel_zoom x y z_scale ng))].
Proof.
  destruct (wheel_zoom_notify x y z_scale ng) as (s & E & Hs).
  rewrite E, sent_notify, Hs. reflexivity.
Qed.

Lemma wheel_z_scale_0 : wheel_z_scale 0 = 1.
Proof.
  unfold wheel_z_scale, Math_abs.
  destruct (decide (0 < 0)) as [E|_]; [inversion E|].
  destruct (decide (0 < 0)) as [E|_]; [inversion E|].
  apply Qc_is_canon. reflexivity.
Qed.

Lemma zoomed_1 (x y : Qc) (p : Qc * Qc * Qc) : zoomed x y 1 p = p.
Proof.
  destruct p as [[oX oY] s]. unfold zoomed.
  assert (E1 : / 1 = 1) by (apply Qc_is_canon; reflexivity).
  f_equal; [f_equal|]; unfold Qcdiv; rewrite ?E1; ring.
Qed.

Lemma zoomed_compose (x y z1 z2 : Qc) (p : Qc * Qc * Qc) :
  zoomed x y z2 (zoomed x y z1 p) = zoomed x y (z1 * z2) p.
Proof.
  destruct p as [[oX oY] s]. unfold zoomed.
  f_equal; [f_equal|]; unfold Qcdiv; rewrite ?Qcinv_mult_distr; ring.
Qed.

Lemma wheel_z_scale_cases (delta : Qc) :
  (0 < delta -> wheel_z_scale delta < 1) /\
  (delta < 0 -> 1 < wheel_z_scale delta) /\
  (delta = 0 -> wheel_z_scale delta = 1).
Proof.
  assert (H600 : 0 < / Qc_of_Z 600) by reflexivity.
  assert (Hpos : delta <> 0 -> 1 < 1 + Math_abs delta / Qc_of_Z 600).
  { intros Hd.
    assert (Ha : 0 < Math_abs delta).
    { unfold Math_abs. destruct (decide (delta < 0)) as [Hn|Hn].
      - apply Qc_opp_pos. exact Hn.
      - destruct (Qclt_le_dec 0 delta) as [Hp|Hp]; [exact Hp|].
        exfalso. apply Hd. apply Qcle_antisym; [exact Hp|].
        apply Qcnot_lt_le. exact Hn. }
    assert (Hq : 0 < Math_abs delta / Qc_of_Z 600).
    { unfold Qcdiv. apply Qcmult_pos_pos; assumption. }
    rewrite <- (Qcplus_0_r 1) at 1.
    rewrite (Qcplus_comm 1 0), (Qcplus_comm 1 (_ / _)).
    apply Qcplus_lt_mono_r. exact Hq. }
  repeat split.
  - intros Hd. unfold wheel_z_scale.
    destruct (decide (0 < delta)) as [_|Hn]; [|contradiction].
    assert (Hz : 1 < 1 + Math_abs delta / Qc_of_Z 600).
    { apply Hpos. intros ->. inversion Hd. }
    set (z := 1 + Math_abs delta / Qc_of_Z 600) in *.
    assert (Hz0 : 0 < z) by (eapply Qclt_trans; [|exact Hz]; reflexivity).
    assert (Hi : 0 < / z) by (apply Qcinv_pos; exact Hz0).
    unfold Qcdiv. rewrite Qcmult_1_l.
    assert (E : / z * z = 1).
    { rewrite Qcmult_comm. apply Qcmult_inv_r.
      intros ->. inversion Hz0. }
    rewrite <- E. rewrite <- (Qcmult_1_r (/ z)) at 1.
    apply Qcmult_lt_mono_pos_l; assumption.
  - intros Hd. unfold wheel_z_scale.
    destruct (decide (0 < delta)) as [Hp|_].
    + exfalso. eapply Qc_lt_asym; eassumption.
    + apply Hpos. intros ->. inversion Hd.
  - intros ->. apply wheel_z_scale_0.
Qed.

Section WheelEvents.
Context `{Collaborators}.

Lemma sent_on_wheel (event : WheelEvent) ng :
  sent (on_wheel event ng)
  = sent ng
    ++ [act_zoom (scale (on_wheel event ng)) (offsetX (on_wheel event ng))
          (offsetY (on_wheel event ng))].
Proof.
  rewrite on_wheel_unfold, sent_wheel_zoom.
  rewrite sent_emit_other by not_sent. reflexivity.
Qed.

Lemma on_wheel_scale (event : WheelEvent) ng :
  scale (on_wheel event ng) = wheel_z_scale (wheel_delta event) * scale ng.
Proof.
  pose proof (on_wheel_zoomed event ng) as E. unfold zoomed, pan_zoom in E.
  apply pan_zoom_eq in E. apply E.
Qed.


(** X2: On a diagram with a positive scale the wheel never makes the scale
    zero or negative; a positive delta (scrolling down) zooms out, a
    negative delta zooms in; in pixel mode the delta is [deltaY] itself. *)
Theorem on_wheel_direction (event : WheelEvent) ng :
  0 < scale ng ->
  let ng' := on_wheel event ng in
  0 < scale ng' /\
  (0 < wheel_delta event -> scale ng' < scale ng) /\
  (wheel_delta event < 0 -> scale ng < scale ng') /\
  (deltaMode event <> 1%Z -> deltaMode event <> 2%Z ->
   (0 < deltaY event -> scale ng' < scale ng) /\
   (deltaY event < 0 -> scale ng < scale ng')).
Proof.
  intros Hs. cbv zeta. rewrite on_wheel_scale.
  destruct (wheel_z_scale_cases (wheel_delta event)) as (Hout & Hin & _).
  assert (Hlt : 0 < wheel_delta event ->
                wheel_z_scale (wheel_delta event) * scale ng < scale ng).
  { intros Hd. rewrite <- (Qcmult_1_l (scale ng)) at 2.
    apply Qcmult_lt_mono_pos_r; auto. }
  assert (Hgt : wheel_delta event < 0 ->
                scale ng < wheel_z_scale (wheel_delta event) * scale ng).
  { intros Hd. rewrite <- (Qcmult_1_l (scale ng)) at 1.
    apply Qcmult_lt_mono_pos_r; auto. }
  split; [|split; [exact Hlt|split; [exact Hgt|]]].
  - apply Qcmult_pos_pos; [|exact Hs]. apply wheel_z_scale_opp.
  - intros H1 H2.
    assert (E : wheel_delta event = deltaY event).
    { unfold wheel_delta.
      destruct (decide (deltaMode event = 1%Z)); [contradiction|].
      destruct (decide (deltaMode event = 2%Z)); [contradiction|].
      reflexivity. }
    rewrite <- E. split; assumption.
Qed.



End WheelEvents.

Lemma on_wheel_direction_witness :
  0 < scale fresh_graph /\
  scale (@on_wheel collaborators (Build_WheelEvent (Qc_of_Z 250) (Qc_of_Z 200)
                                    0 (Qc_of_Z 100)) fresh_graph)
  < scale fresh_graph.
Proof.
  split; [reflexivity|].
  destruct (@on_wheel_direction collaborators
              (Build_WheelEvent (Qc_of_Z 250) (Qc_of_Z 200) 0 (Qc_of_Z 100))
              fresh_graph) as (_ & _ & _ & Hpixel); [reflexivity|].
  apply Hpixel; [intros E; discriminate E|intros E; discriminate E|].
  reflexivity.
Defined.



(** ** The whole of a drag, and a move tick that fails *)

Lemma foldl_share (f : DragEvent -> Qc) (w o : Qc) (ticks : list DragEvent) :
  foldl (fun o e => o + f e / w) o ticks = o + total f ticks / w.
Proof.
  revert o. induction ticks as [|e ticks IH]; intros o; cbn [foldl total foldr].
  - unfold Qcdiv. ring.
  - rewrite IH. fold (total f ticks). unfold Qcdiv. ring.
Qed.

Lemma drag_view_eq ng (a b c d e : Qc) (n : list Notification) :
  drag_view ng = (a, b, c, d, e, n) ->
  offsetX ng = a /\ offsetY ng = b /\ scale ng = c /\ width ng = d
  /\ height ng = e /\ sent ng = n.
Proof.
  unfold drag_view. intros E. injection E as -> -> -> -> -> ->. auto 10.
Qed.

Lemma drag_pan_zoom (ticks : list DragEvent) ng :
  pan_zoom (drag ticks ng)
  = (offsetX ng + total dx ticks / (width ng * scale ng),
     offsetY ng + total dy ticks / (height ng * scale ng),
     scale ng).
Proof.
  destruct (drag_view_eq _ _ _ _ _ _ _ (drag_view_moves ticks (drag_onstart ng)))
    as (Ex & Ey & Es & _).
  unfold drag, drag_onend, notify. rewrite pan_zoom_emit.
  unfold pan_zoom. rewrite Ex, Ey, Es, !foldl_share. reflexivity.
Qed.

(** X5: In exact arithmetic, on a canvas whose scaled width and height are
    not zero, the offsets a drag ends with depend on the ticks only through
    the total of their deltas: the pan is the total divided by the scaled
    size of the canvas, however the gesture is cut into ticks; a gesture
    that comes back to where it started leaves the offsets as they were.
    The scale is not changed.  (In floating point the sum of the shares is
    the share of the sum up to rounding only.) *)
Theorem drag_total (ticks : list DragEvent) ng :
  width ng * scale ng <> 0 ->
  height ng * scale ng <> 0 ->
  pan_zoom (drag ticks ng)
  = (offsetX ng + total dx ticks / (width ng * scale ng),
     offsetY ng + total dy ticks / (height ng * scale ng),
     scale ng) /\
  (forall ticks',
     total dx ticks' = total dx ticks -> total dy ticks' = total dy ticks ->
     pan_zoom (drag ticks' ng) = pan_zoom (drag ticks ng)) /\
  (total dx ticks = 0 -> total dy ticks = 0 ->
   pan_zoom (drag ticks ng) = pan_zoom ng).
Proof.
  intros _ _. split; [apply drag_pan_zoom|]. split.
  - intros ticks' Ex Ey. rewrite !drag_pan_zoom, Ex, Ey. reflexivity.
  - intros Ex Ey. rewrite drag_pan_zoom, Ex, Ey. unfold pan_zoom, Qcdiv.
    rewrite !Qcmult_0_l, !Qcplus_0_r. reflexivity.
Qed.

Lemma drag_onmove_items_thrown (es : list (string * NetGraphItem.t)) s :
  foldl (fun o entry => o >>> drag_onmove_item entry.1) (Thrown s) es
  = Thrown s.
Proof. induction es as [|e es IH]; [reflexivity|]. cbn [foldl and_then]. exact IH. Qed.

Lemma drag_onmove_item_cases key s :
  let s0 :=
    with_svg_objects (alter NetGraphItem.redraw_position key (svg_objects s)) s in
  (mm_display s = false -> drag_onmove_item key s = Done s0) /\
  (mm_display s = true ->
   (key ∈ dom (minimap_objects s) ->
    drag_onmove_item key s
    = Done (with_minimap_objects
              (alter NetGraphItem.redraw_position key (minimap_objects s)) s0)) /\
   (key ∉ dom (minimap_objects s) -> drag_onmove_item key s = Thrown s0)).
Proof.
  cbv zeta. unfold drag_onmove_item. cbv zeta.
  cbn [mm_display minimap_objects with_svg_objects].
  split; [intros ->; reflexivity|]. intros ->. split.
  - intros [i Hi]%elem_of_dom. rewrite Hi. reflexivity.
  - intros Hn%not_elem_of_dom. rewrite Hn. reflexivity.
Qed.

Lemma drag_onmove_items_done (es : list (string * NetGraphItem.t)) s :
  mm_display s = false
  \/ (forall e, e ∈ es -> e.1 ∈ dom (minimap_objects s)) ->
  exists s',
    foldl (fun o entry => o >>> drag_onmove_item entry.1) (Done s) es = Done s' /\
    trace s' = trace s /\ conns s' = conns s /\ svg_conns s' = svg_conns s /\
    mm_display s' = mm_display s /\ pan_zoom s' = pan_zoom s /\
    minimap_frame s' = minimap_frame s.
Proof.
  revert s. induction es as [|e es IH]; intros s Hs.
  - exists s. auto 10.
  - cbn [foldl and_then].
    destruct (drag_onmove_item_cases e.1 s) as (Hhid & Hshown).
    destruct (mm_display s) eqn:Hd.
    + destruct Hs as [Hs|Hs]; [discriminate Hs|].
      destruct (Hshown eq_refl) as (Hin & _). rewrite Hin.
      2:{ apply Hs. left. }
      match goal with
      | |- exists s', foldl _ (Done ?s1) _ = _ /\ _ =>
          destruct (IH s1) as (s' & E & Ht & Hc & Hsc & Hm & Hp & Hv)
      end.
      { right. intros e' He'. cbn [minimap_objects with_minimap_objects].
        rewrite dom_alter_L. apply Hs. right. exact He'. }
      exists s'. split; [exact E|].
      rewrite Ht, Hc, Hsc, Hm, Hp, Hv. cbn. rewrite Hd. auto 10.
    + rewrite (Hhid eq_refl).
      match goal with
      | |- exists s', foldl _ (Done ?s1) _ = _ /\ _ =>
          destruct (IH s1) as (s' & E & Ht & Hc & Hsc & Hm & Hp & Hv)
      end.
      { left. exact Hd. }
      exists s'. split; [exact E|].
      rewrite Ht, Hc, Hsc, Hm, Hp, Hv. cbn. rewrite Hd. auto 10.
Qed.

Lemma drag_onmove_items_fail (es : list (string * NetGraphItem.t)) s :
  mm_display s = true ->
  (exists e, e ∈ es /\ e.1 ∉ dom (minimap_objects s)) ->
  exists s',
    foldl (fun o entry => o >>> drag_onmove_item entry.1) (Done s) es
    = Thrown s' /\
    trace s' = trace s /\ conns s' = conns s.
Proof.
  revert s. induction es as [|e es IH]; intros s Hd (e0 & He0 & Hn0).
  - inversion He0.
  - cbn [foldl and_then].
    destruct (drag_onmove_item_cases e.1 s) as (_ & Hshown).
    destruct (Hshown Hd) as (Hin & Hout).
    destruct (decide (e.1 ∈ dom (minimap_objects s))) as [Hk|Hk].
    + rewrite (Hin Hk).
      match goal with
      | |- exists s', foldl _ (Done ?s1) _ = _ /\ _ =>
          destruct (IH s1) as (s' & E & Ht & Hc)
      end.
      { exact Hd. }
      { exists e0. split.
        - apply elem_of_cons in He0 as [->|He0]; [contradiction|exact He0].
        - cbn [minimap_objects with_minimap_objects].
          rewrite dom_alter_L. exact Hn0. }
      exists s'. rewrite E, Ht, Hc. auto.
    + rewrite (Hout Hk), drag_onmove_items_thrown. eexists. split; [reflexivity|].
      auto.
Qed.

Lemma viewport_told s :
  let s1 :=
    scaleMiniMapViewBox
      (emit (viewport_set_position (offsetX s) (offsetY s)) s) in
  viewport_set_position (offsetX s1) (offsetY s1) ∈ trace s1.
Proof.
  cbv zeta. unfold scaleMiniMapViewBox.
  destruct (negb (mm_display _)).
  - rewrite emit_trace. apply elem_of_app. right. apply list_elem_of_here.
  - cbv zeta. rewrite !emit_trace. rewrite !elem_of_app.
    do 4 left. right. apply list_elem_of_here.
Qed.

Lemma drag_onmove_completes (event : DragEvent) ng :
  mm_display ng = false
  \/ dom (svg_objects ng) ⊆ dom (minimap_objects ng) ->
  exists s,
    drag_onmove event ng = Done s /\
    viewport_set_position (offsetX s) (offsetY s) ∈ trace s /\
    conns s = redraw_conns (map_to_list (svg_conns ng)).*2 (conns ng).
Proof.
  intros Hok. unfold drag_onmove. cbv zeta.
  match goal with
  | |- exists s, foldl _ (Done ?s0) ?es >>> _ = _ /\ _ =>
      destruct (drag_onmove_items_done es s0)
        as (s' & E & Ht & Hc & Hsc & Hm & Hp & Hv)
  end.
  { destruct Hok as [Hok|Hok]; [left; exact Hok|right].
    intros [k i] Hki. apply Hok.
    cbn [svg_objects with_offsetY with_offsetX] in Hki.
    apply elem_of_map_to_list in Hki. apply elem_of_dom. exists i. exact Hki. }
  rewrite E. cbn [and_then]. eexists. split; [reflexivity|]. split.
  - apply viewport_told.
  - assert (Ec : forall s1, conns (scaleMiniMapViewBox s1) = conns s1).
    { intros s1. unfold scaleMiniMapViewBox.
      destruct (negb (mm_display s1)); reflexivity. }
    rewrite Ec. rewrite redraw_conns_fold. cbn [conns emit with_trace with_conns].
    rewrite Hc, Hsc. reflexivity.
Qed.



Lemma drag_total_witness :
  pan_zoom (drag [Build_DragEvent (Qc_of_Z 10) (Qc_of_Z (-5));
                  Build_DragEvent (Qc_of_Z (-10)) (Qc_of_Z 5)] fresh_graph)
  = pan_zoom fresh_graph.
Proof.
  destruct (drag_total [Build_DragEvent (Qc_of_Z 10) (Qc_of_Z (-5));
                        Build_DragEvent (Qc_of_Z (-10)) (Qc_of_Z 5)]
              fresh_graph) as (_ & _ & Hback); [nonzero | nonzero |].
  apply Hback; apply Qc_is_canon; reflexivity.
Defined.

(** ** The dispatcher, case by case *)

Section Cases.
Context `{Collaborators}.

Lemma on_message_cases (P : Outcome -> Prop) (data : Message.t) ng :
  let uid := Message.uid data in
  let type := Message.type data in
  (type ∈ [Some "net"; Some "ens"; Some "node"] ->
   P (Done (create_object data ng))) ->
  (type = Some "conn" -> P (Done (create_connection data ng))) ->
  (type = Some "pan" ->
   P (Done (set_offset (Message.pan data).1 (Message.pan data).2 ng))) ->
  (type = Some "zoom" -> P (Done (set_scale (Message.zoom data) ng))) ->
  (type = Some "expand" -> is_Some (svg_objects ng !! uid) ->
   P (Done (item_expand uid ng))) ->
  (type = Some "collapse" -> is_Some (svg_objects ng !! uid) ->
   P (Done (item_collapse uid ng))) ->
  (type = Some "pos_size" ->
   forall item, svg_objects ng !! uid = Some item ->
   P (Done (scaleMiniMap
              (with_svg_objects
                 (<[uid := pos_sized data item]> (svg_objects ng)) ng)))) ->
  (type = Some "config" ->
   P (Done (emit (component_update_layout uid (Message.config data)) ng))) ->
  (type = Some "js" -> P (Done (emit (eval_code (Message.code data)) ng))) ->
  (type = Some "rename" -> is_Some (svg_objects ng !! uid) ->
   P (Done (with_svg_objects
              (alter (NetGraphItem.set_label (Message.name data)) uid
                 (svg_objects ng)) ng))) ->
  (type = Some "remove" -> is_Some (svg_objects ng !! uid) ->
   P (Done (item_remove uid ng))) ->
  (type = Some "remove" -> svg_objects ng !! uid = None ->
   forall conn, svg_conns ng !! uid = Some conn ->
   P (Done (conn_remove conn ng))) ->
  (type = Some "reconnect" ->
   forall conn, svg_conns ng !! uid = Some conn ->
   P (Done (conn_redraw conn
              (set_recurrent conn
                 (bool_decide
                    (head (Message.pres data) = head (Message.posts data)))
                 (set_posts conn (Message.posts data)
                    (set_pres conn (Message.pres data) ng)))))) ->
  (type = Some "delete_graph" ->
   P (Done (emit (component_remove uid (Message.notify_server data)) ng))) ->
  ((forall tag, type = Some tag -> tag ∉ recognized) ->
   P (Done (emit (console_warn invalid_message) ng))) ->
  (dangling data ng -> P (Thrown ng)) ->
  P (on_message data ng).
Proof.
  cbv zeta.
  intros Hobj Hconn Hpan Hzoom Hexp Hcol Hpos Hcfg Hjs Hren Hrem Hremc Hrec
    Hdel Hwarn Hthrow.
  unfold on_message. cbv zeta.
  destruct (decide (Message.type data = Some "net")) as [E|N1].
  { rewrite (bool_decide_eq_true_2 _ E). apply Hobj. rewrite E. set_solver. }
  rewrite (bool_decide_eq_false_2 _ N1).
  destruct (decide (Message.type data = Some "ens")) as [E|N2].
  { rewrite (bool_decide_eq_true_2 _ E). apply Hobj. rewrite E. set_solver. }
  rewrite (bool_decide_eq_false_2 _ N2).
  destruct (decide (Message.type data = Some "node")) as [E|N3].
  { rewrite (bool_decide_eq_true_2 _ E). apply Hobj. rewrite E. set_solver. }
  rewrite (bool_decide_eq_false_2 _ N3).
  destruct (decide (Message.type data = Some "conn")) as [E|N4].
  { rewrite (bool_decide_eq_true_2 _ E). apply Hconn. exact E. }
  rewrite (bool_decide_eq_false_2 _ N4).
  destruct (decide (Message.type data = Some "pan")) as [E|N5].
  { rewrite (bool_decide_eq_true_2 _ E). apply Hpan. exact E. }
  rewrite (bool_decide_eq_false_2 _ N5).
  destruct (decide (Message.type data = Some "zoom")) as [E|N6].
  { rewrite (bool_decide_eq_true_2 _ E). apply Hzoom. exact E. }
  rewrite (bool_decide_eq_false_2 _ N6).
  destruct (decide (Message.type data = Some "expand")) as [E|N7].
  { rewrite (bool_decide_eq_true_2 _ E).
    destruct (svg_objects ng !! Message.uid data) as [item|] eqn:Hi.
    - apply Hexp; [exact E|]. eexists. reflexivity.
    - apply Hthrow. left. split; [rewrite E; set_solver|exact Hi]. }
  rewrite (bool_decide_eq_false_2 _ N7).
  destruct (decide (Message.type data = Some "collapse")) as [E|N8].
  { rewrite (bool_decide_eq_true_2 _ E).
    destruct (svg_objects ng !! Message.uid data) as [item|] eqn:Hi.
    - apply Hcol; [exact E|]. eexists. reflexivity.
    - apply Hthrow. left. split; [rewrite E; set_solver|exact Hi]. }
  rewrite (bool_decide_eq_false_2 _ N8).
  destruct (decide (Message.type data = Some "pos_size")) as [E|N9].
  { rewrite (bool_decide_eq_true_2 _ E).
    destruct (svg_objects ng !! Message.uid data) as [item|] eqn:Hi.
    - apply (Hpos E item). reflexivity.
    - apply Hthrow. left. split; [rewrite E; set_solver|exact Hi]. }
  rewrite (bool_decide_eq_false_2 _ N9).
  destruct (decide (Message.type data = Some "config")) as [E|N10].
  { rewrite (bool_decide_eq_true_2 _ E). apply Hcfg. exact E. }
  rewrite (bool_decide_eq_false_2 _ N10).
  destruct (decide (Message.type data = Some "js")) as [E|N11].
  { rewrite (bool_decide_eq_true_2 _ E). apply Hjs. exact E. }
  rewrite (bool_decide_eq_false_2 _ N11).
  destruct (decide (Message.type data = Some "rename")) as [E|N12].
  { rewrite (bool_decide_eq_true_2 _ E).
    destruct (svg_objects ng !! Message.uid data) as [item|] eqn:Hi.
    - apply Hren; [exact E|]. eexists. reflexivity.
    - apply Hthrow. left. split; [rewrite E; set_solver|exact Hi]. }
  rewrite (bool_decide_eq_false_2 _ N12).
  destruct (decide (Message.type data = Some "remove")) as [E|N13].
  { rewrite (bool_decide_eq_true_2 _ E).
    destruct (svg_objects ng !! Message.uid data) as [item|] eqn:Hi.
    - apply Hrem; [exact E|]. eexists. reflexivity.
    - destruct (svg_conns ng !! Message.uid data) as [conn|] eqn:Hc.
      + apply (Hremc E eq_refl conn). reflexivity.
      + apply Hthrow. right. left. auto. }
  rewrite (bool_decide_eq_false_2 _ N13).
  destruct (decide (Message.type data = Some "reconnect")) as [E|N14].
  { rewrite (bool_decide_eq_true_2 _ E).
    destruct (svg_conns ng !! Message.uid data) as [conn|] eqn:Hc.
    - apply (Hrec E conn). reflexivity.
    - apply Hthrow. right. right. auto. }
  rewrite (bool_decide_eq_false_2 _ N14).
  destruct (decide (Message.type data = Some "delete_graph")) as [E|N15].
  { rewrite (bool_decide_eq_true_2 _ E). apply Hdel. exact E. }
  rewrite (bool_decide_eq_false_2 _ N15).
  apply Hwarn. intros tag Htag Hin. unfold recognized in Hin.
  rewrite Htag in *.
  repeat (apply elem_of_cons in Hin as [->|Hin]; [congruence|]).
  inversion Hin.
Qed.

End Cases.

(** ** The index of waiting connections, and what the extent leaves alone *)

Lemma index_ok_register_conn conn target ng :
  index_ok ng -> index_ok (register_conn conn target ng).
Proof. intros Hok c t. apply register_conn_entries, Hok. Qed.

Lemma mm_display_redraw ng : mm_display (redraw ng) = mm_display ng.
Proof. rewrite redraw_unfold. reflexivity. Qed.

Lemma mm_display_scaleMiniMapViewBox ng :
  mm_display (scaleMiniMapViewBox ng) = mm_display ng.
Proof.
  unfold scaleMiniMapViewBox. destruct (negb (mm_display ng)); reflexivity.
Qed.

Section Calm.
Context `{Collaborators}.

(** [scaleMiniMap] sends nothing and neither shows nor hides the minimap. *)
Lemma scaleMiniMap_calm ng :
  sent (scaleMiniMap ng) = sent ng /\
  mm_display (scaleMiniMap ng) = mm_display ng.
Proof.
  destruct (mm_display ng) eqn:Hdisplay.
  2:{ unfold scaleMiniMap. rewrite Hdisplay. auto. }
  destruct (decide (svg_objects ng = ∅)) as [Hempty|Hitems].
  { unfold scaleMiniMap.
    rewrite Hdisplay, Hempty, map_to_list_empty. auto. }
  rewrite (scaleMiniMap_unfold ng Hdisplay Hitems). cbv zeta.
  generalize (foldl extent_step (true, extent ng)
                (map_to_list (svg_objects ng)).*2).2.
  intros box.
  rewrite sent_scaleMiniMapViewBox, sent_redraw.
  rewrite mm_display_scaleMiniMapViewBox, mm_display_redraw.
  destruct (padded box) as [[[a' b'] c'] d']. destruct box as [[[a b] c] d].
  split; [reflexivity | exact Hdisplay].
Qed.

Lemma bounding_box_unique (items : list NetGraphItem.t)
    (box box' : Qc * Qc * Qc * Qc) :
  bounding_box items box -> bounding_box items box' -> box' = box.
Proof.
  destruct box as [[[a b] c] d]. destruct box' as [[[a' b'] c'] d'].
  intros (Ha & Hb & Hc & Hd) (Ha' & Hb' & Hc' & Hd').
  assert (Hsame : forall i, top_level i -> i ∈ items <-> i ∈ items)
    by (intros; reflexivity).
  rewrite (least_in_unique _ _ _ _ _ Hsame Ha' Ha).
  rewrite (greatest_in_unique _ _ _ _ _ Hsame Hb' Hb).
  rewrite (least_in_unique _ _ _ _ _ Hsame Hc' Hc).
  rewrite (greatest_in_unique _ _ _ _ _ Hsame Hd' Hd).
  reflexivity.
Qed.

(** The extent [scaleMiniMap] leaves is the padded bounding box of the
    top-level items. *)
Lemma scaleMiniMap_view_of_box ng (box : Qc * Qc * Qc * Qc) :
  mm_display ng = true ->
  bounding_box (items_of ng) box ->
  minimap_view (scaleMiniMap ng) = (padded box, scale_of (padded box)).
Proof.
  intros Hdisplay Hbox.
  assert (Hsome : exists i, i ∈ items_of ng /\ top_level i).
  { destruct box as [[[a b] c] d].
    destruct Hbox as ((_ & i & Hi & Htop & _) & _). exists i. auto. }
  destruct (scaleMiniMap_minimap_view ng Hdisplay Hsome)
    as (box' & Hbox' & Hview).
  rewrite (bounding_box_unique _ _ _ Hbox Hbox') in Hview. exact Hview.
Qed.

End Calm.

(** The bounding box of the sample diagram with one network. *)
Lemma hidden_graph_box :
  @bounding_box collaborators (items_of hidden_graph)
    (qf 3 10, qf 7 10, qf 3 10, qf 7 10).
Proof.
  assert (Ht : top_level
                 (NetGraphItem.mk "n1" None (qf 1 2) (qf 1 2) (qf 1 5) (qf 1 5) 1
                    false "n1" false (Some "n1") 0 0))
    by (unfold top_level; cbn; lia).
  rewrite hidden_graph_items.
  repeat split;
    first [ intros i Hin _; apply list_elem_of_singleton in Hin as ->;
            apply Qcle_refl
          | eexists; split; [apply list_elem_of_here|]; split; [exact Ht|];
            apply Qc_is_canon; reflexivity ].
Qed.

(** ** The uids of the registries *)

Lemma keys_eq ng ng' :
  dom (svg_objects ng') = dom (svg_objects ng) ->
  dom (minimap_objects ng') = dom (minimap_objects ng) ->
  dom (svg_conns ng') = dom (svg_conns ng) ->
  dom (minimap_conns ng') = dom (minimap_conns ng) ->
  keys ng' = keys ng.
Proof. unfold keys. intros -> -> -> ->. reflexivity. Qed.

Lemma keys_registries ng ng' :
  registries ng' = registries ng -> keys ng' = keys ng.
Proof.
  intros E. apply registries_eq in E as (E1 & E2 & E3 & E4).
  unfold keys. rewrite E1, E2, E3, E4. reflexivity.
Qed.

Lemma twins_keys ng ng' : keys ng' = keys ng -> twins ng -> twins ng'.
Proof.
  unfold keys, twins. intros E. injection E as -> -> -> ->. auto.
Qed.

Lemma keys_redraw ng : keys (redraw ng) = keys ng.
Proof.
  rewrite redraw_unfold. apply keys_eq; try reflexivity.
  cbn [svg_objects with_conns with_svg_objects]. apply dom_fmap_L.
Qed.

Lemma keys_alter (f : NetGraphItem.t -> NetGraphItem.t) (uid : string) ng :
  keys (with_svg_objects (alter f uid (svg_objects ng)) ng) = keys ng.
Proof.
  apply keys_eq; try reflexivity.
  cbn [svg_objects with_svg_objects]. apply dom_alter_L.
Qed.

Section Keys.
Context `{Collaborators}.

Lemma keys_scaleMiniMap ng : keys (scaleMiniMap ng) = keys ng.
Proof.
  destruct (scaleMiniMap_registries ng) as [E|E].
  - apply keys_registries, E.
  - apply registries_eq in E as (E1 & E2 & E3 & E4).
    apply keys_eq; rewrite ?E1, ?E2, ?E3, ?E4; try reflexivity.
    apply dom_fmap_L.
Qed.

End Keys.

(** ** Messages about what the diagram does not have *)

Section Dangling.
Context `{Collaborators}.

(** X7: A message about an item or a connection the diagram does not
    have, under a uid that is not a property name of [Object.prototype],
    ends the dispatcher in a TypeError, with the state as it was before the
    message, nothing logged and nothing sent: expand, collapse, pos_size
    and rename look the uid up among the items, remove among the items and
    then among the connections, reconnect among the connections. *)
Theorem on_message_throws (data : Message.t) ng :
  ordinary (Message.uid data) ->
  dangling data ng ->
  on_message data ng = Thrown ng.
Proof.
  intros _.
  apply (on_message_cases (fun o => dangling data ng -> o = Thrown ng));
    try (intros; reflexivity);
    unfold dangling; intros; exfalso; set_unfold; unfold is_Some in *;
    naive_solver.
Qed.

End Dangling.

Lemma on_message_throws_witness :
  @on_message collaborators (conn_message "reconnect" "c9" [] []) waiting_graph
  = Thrown waiting_graph.
Proof.
  apply (@on_message_throws collaborators
           (conn_message "reconnect" "c9" [] []) waiting_graph).
  - ordinary_uid.
  - right. right. split; [reflexivity|]. vm_compute. reflexivity.
Defined.

(** ** Each waiting connection is notified once *)

Section Once.
Context `{Collaborators}.

Lemma detect_collapsed_conns_lookup uid ng l c :
  conns ng !! l = Some c ->
  conns (detect_collapsed_conns uid ng) !! l
  = Some (Nat.iter (occurrences l (default [] (collapsed_conns ng !! uid)))
            (notified ng) c).
Proof.
  intros Hl. unfold detect_collapsed_conns.
  destruct (collapsed_conns ng !! uid) as [waiting|]; cbn [default].
  - cbv zeta.
    destruct (notify_conns_spec waiting ng
                (with_collapsed_conns (delete uid (collapsed_conns ng)) ng))
      as (_ & Hc & _);
      [apply resolver_frame_with_collapsed_conns|reflexivity|].
    cbv zeta in Hc. rewrite Hc, foldl_alter_lookup.
    cbn [conns with_collapsed_conns]. rewrite Hl. reflexivity.
  - rewrite Hl. reflexivity.
Qed.

(** X13: On a diagram whose index has no duplicates,
    [detect_collapsed_conns], called with an ordinary uid, notifies each
    connection that waits for the uid exactly once: a waiting connection
    that was not removed has both endpoints resolved again and is redrawn
    once; a connection that does not wait for the uid, or that was removed,
    is left as it is.  The endpoint candidates of the connections are
    ordinary uids, and a connection waits for candidates of its own. *)
Theorem detect_collapsed_conns_once uid ng l c :
  waits_for_candidates ->
  ordinary_connections ng ->
  ordinary uid ->
  index_ok ng ->
  conns ng !! l = Some c ->
  let waiting := default [] (collapsed_conns ng !! uid) in
  let ng' := detect_collapsed_conns uid ng in
  (l ∈ waiting -> NetGraphConnection.removed c = false ->
   conns ng' !! l = Some (renotified ng c) /\
   NetGraphConnection.redraws (renotified ng c)
   = S (NetGraphConnection.redraws c)) /\
  (l ∉ waiting \/ NetGraphConnection.removed c = true ->
   conns ng' !! l = Some c).
Proof.
  intros _ _ _ Hok Hl. cbv zeta.
  rewrite (detect_collapsed_conns_lookup uid ng l c Hl).
  pose proof (Hok l uid) as Hle. unfold entries in Hle.
  fold (occurrences l (default [] (collapsed_conns ng !! uid))) in Hle.
  pose proof (occurrences_0 l (default [] (collapsed_conns ng !! uid))) as H0.
  destruct (occurrences l (default [] (collapsed_conns ng !! uid)))
    as [|[|n]]; [| |lia].
  - split.
    + intros Hin. exfalso. apply (proj1 H0); [reflexivity|exact Hin].
    + intros _. reflexivity.
  - split.
    + intros _ Hrem. cbn [Nat.iter nat_rect]. unfold notified. rewrite Hrem.
      split; reflexivity.
    + intros [Hout|Hrem].
      * exfalso. apply H0 in Hout. discriminate Hout.
      * cbn [Nat.iter nat_rect]. unfold notified. rewrite Hrem. reflexivity.
Qed.

End Once.

Lemma detect_collapsed_conns_once_witness :
  NetGraphConnection.redraws
  <$> conns (@detect_collapsed_conns collaborators "n2" waiting_graph) !! 1%nat
  = Some 1%nat.
Proof.
  assert (Hc : exists c, conns waiting_graph !! 1%nat = Some c
                         /\ NetGraphConnection.removed c = false
                         /\ NetGraphConnection.redraws c = 0%nat).
  { eexists. split; [vm_compute; reflexivity|]. split; reflexivity. }
  destruct Hc as (c & Hl & Hrem & Hred).
  destruct (@detect_collapsed_conns_once collaborators "n2" waiting_graph
              1%nat c) as [Hin _].
  - exact deepest_existing_waits.
  - ordinary_uid.
  - ordinary_uid.
  - intros conn target.
    destruct (decide (target = "n2")) as [->|Hne].
    + destruct conn as [|[|conn]]; vm_compute; lia.
    + unfold entries.
      assert (E : collapsed_conns waiting_graph = {["n2" := [0; 1]%nat]})
        by (vm_compute; reflexivity).
      rewrite E, lookup_singleton_ne by (intros E'; apply Hne; symmetry; exact E').
      cbn. lia.
  - exact Hl.
  - destruct Hin as [E Hone].
    + assert (E : collapsed_conns waiting_graph = {["n2" := [0; 1]%nat]})
        by (vm_compute; reflexivity).
      rewrite E, lookup_singleton_eq. cbn [default].
      apply list_elem_of_further, list_elem_of_here.
    + exact Hrem.
    + rewrite E. cbn [fmap option_fmap option_map]. rewrite Hone, Hred.
      reflexivity.
Defined.

(** ** Showing and hiding the minimap *)

Section Toggle.
Context `{Collaborators}.


End Toggle.


(** ** The settings *)

(** X15: Assigning a setting stores the value, so that reading it back
    gives the value assigned, and leaves the other settings, the offsets
    and the scale alone.  Assigning the value a setting has already does
    nothing at all; a new value of [zoom_fonts] or [font_size] sets the
    font size of the page once, from the new settings; a new value of
    [aspect_resize] has no effect outside the configuration. *)
Theorem settings_store ng :
  (forall val : bool,
     let ng' := set_zoom_fonts val ng in
     zoom_fonts (config ng') = val /\
     aspect_resize (config ng') = aspect_resize (config ng) /\
     font_size (config ng') = font_size (config ng) /\
     transparent_nets (config ng') = transparent_nets (config ng) /\
     pan_zoom ng' = pan_zoom ng /\
     (val = zoom_fonts (config ng) -> ng' = ng) /\
     (val <> zoom_fonts (config ng) ->
      trace ng'
      = trace ng
        ++ [css_font_size
              (if val
               then Qc_of_Z 3 * scale ng * font_size (config ng) / Qc_of_Z 100
               else font_size (config ng) / Qc_of_Z 100)])) /\
  (forall val : Qc,
     let ng' := set_font_size val ng in
     font_size (config ng') = val /\
     zoom_fonts (config ng') = zoom_fonts (config ng) /\
     aspect_resize (config ng') = aspect_resize (config ng) /\
     transparent_nets (config ng') = transparent_nets (config ng) /\
     pan_zoom ng' = pan_zoom ng /\
     (val = font_size (config ng) -> ng' = ng) /\
     (val <> font_size (config ng) ->
      trace ng'
      = trace ng
        ++ [css_font_size
              (if zoom_fonts (config ng)
               then Qc_of_Z 3 * scale ng * val / Qc_of_Z 100
               else val / Qc_of_Z 100)])) /\
  (forall val : bool,
     let ng' := set_aspect_resize val ng in
     aspect_resize (config ng') = val /\
     zoom_fonts (config ng') = zoom_fonts (config ng) /\
     font_size (config ng') = font_size (config ng) /\
     transparent_nets (config ng') = transparent_nets (config ng) /\
     pan_zoom ng' = pan_zoom ng /\
     trace ng' = trace ng /\
     (val = aspect_resize (config ng) -> ng' = ng)).
Proof.
  split; [|split].
  - intros val. cbv zeta. unfold set_zoom_fonts.
    destruct (decide (val = zoom_fonts (config ng))) as [E|N].
    + repeat split; auto. intros N. exfalso. apply N. exact E.
    + cbv zeta. unfold update_fonts.
      cbn [config with_config zoom_fonts font_size scale].
      destruct val; (do 5 (split; [reflexivity|]));
        (split; [intros E; exfalso; apply N; exact E
                |intros _; rewrite emit_trace; reflexivity]).
  - intros val. cbv zeta. unfold set_font_size.
    destruct (decide (val = font_size (config ng))) as [E|N].
    + repeat split; auto. intros N. exfalso. apply N. exact E.
    + cbv zeta. unfold update_fonts.
      cbn [config with_config zoom_fonts font_size scale].
      destruct (zoom_fonts (config ng)); (do 5 (split; [reflexivity|]));
        (split; [intros E; exfalso; apply N; exact E
                |intros _; rewrite emit_trace; reflexivity]).
  - intros val. cbv zeta. unfold set_aspect_resize.
    destruct (decide (val = aspect_resize (config ng))) as [E|N].
    + repeat split; auto.
    + repeat split. intros E. exfalso. apply N. exact E.
Qed.

Lemma settings_store_witness :
  set_font_size (Qc_of_Z 100) fresh_graph = fresh_graph /\
  trace (set_zoom_fonts true fresh_graph)
  = trace fresh_graph
    ++ [css_font_size (Qc_of_Z 3 * 1 * Qc_of_Z 100 / Qc_of_Z 100)].
Proof.
  destruct (settings_store fresh_graph) as (Hz & Hf & _). split.
  - apply (Hf (Qc_of_Z 100)). reflexivity.
  - apply (Hz true). intros E. discriminate E.
Defined.

(** ** Resizing the window *)

Section ResizeProperties.
Context `{Viewport}.


End ResizeProperties.


(** ** Pan and zoom messages *)

Section ViewMessages.
Context `{Collaborators}.

Lemma on_message_pan (data : Message.t) ng :
  Message.type data = Some "pan" ->
  on_message data ng
  = Done (set_offset (Message.pan data).1 (Message.pan data).2 ng).
Proof. intros Ht. unfold on_message. rewrite Ht. reflexivity. Qed.

Lemma on_message_zoom (data : Message.t) ng :
  Message.type data = Some "zoom" ->
  on_message data ng = Done (set_scale (Message.zoom data) ng).
Proof. intros Ht. unfold on_message. rewrite Ht. reflexivity. Qed.

Lemma pan_zoom_set_offset (x y : Qc) ng :
  pan_zoom (set_offset x y ng) = (x, y, scale ng).
Proof.
  unfold set_offset. cbv zeta. rewrite pan_zoom_emit, pan_zoom_redraw.
  reflexivity.
Qed.

Lemma act_zoom_inj (s x y s' x' y' : Qc) :
  [act_zoom s x y] = [act_zoom s' x' y'] -> (x, y, s) = (x', y', s').
Proof. intros E. injection E as -> -> ->. reflexivity. Qed.

(** X17: A pan message and a zoom message set the view absolutely: the
    offsets become those of the pan message and the scale that of the zoom
    message, whatever they were, with no recentring on the cursor.  So a
    zoom and a pan message that carry what a wheel event or a drag has
    sent to the server give any other diagram the scale and the offsets of
    the diagram the gesture was made on. *)
Theorem view_messages_absolute (dz dp : Message.t) ng :
  Message.type dz = Some "zoom" ->
  Message.type dp = Some "pan" ->
  pan_zoom (state_of (on_message dz ng))
  = (offsetX ng, offsetY ng, Message.zoom dz) /\
  pan_zoom (state_of (on_message dp ng))
  = ((Message.pan dp).1, (Message.pan dp).2, scale ng) /\
  pan_zoom (on_messages [dz; dp] ng)
  = ((Message.pan dp).1, (Message.pan dp).2, Message.zoom dz) /\
  pan_zoom (on_messages [dp; dz] ng)
  = ((Message.pan dp).1, (Message.pan dp).2, Message.zoom dz) /\
  (forall (event : WheelEvent) ng1,
     sent (on_wheel event ng1)
     = sent ng1
       ++ [act_zoom (Message.zoom dz) (Message.pan dp).1 (Message.pan dp).2] ->
     pan_zoom (on_messages [dz; dp] ng) = pan_zoom (on_wheel event ng1)).
Proof.
  intros Hz Hp.
  assert (Ez : forall s, pan_zoom (state_of (on_message dz s))
                         = (offsetX s, offsetY s, Message.zoom dz)).
  { intros s. rewrite (on_message_zoom dz s Hz). apply pan_zoom_set_scale. }
  assert (Ep : forall s, pan_zoom (state_of (on_message dp s))
                         = ((Message.pan dp).1, (Message.pan dp).2, scale s)).
  { intros s. rewrite (on_message_pan dp s Hp). apply pan_zoom_set_offset. }
  assert (Ezp : pan_zoom (on_messages [dz; dp] ng)
                = ((Message.pan dp).1, (Message.pan dp).2, Message.zoom dz)).
  { unfold on_messages. cbn [foldl]. rewrite Ep.
    destruct (pan_zoom_eq _ _ _ _ (Ez ng)) as (_ & _ & ->). reflexivity. }
  split; [apply Ez|]. split; [apply Ep|]. split; [exact Ezp|]. split.
  - unfold on_messages. cbn [foldl]. rewrite Ez.
    destruct (pan_zoom_eq _ _ _ _ (Ep ng)) as (-> & -> & _). reflexivity.
  - intros event ng1 Hsent. rewrite Ezp.
    rewrite sent_on_wheel in Hsent. apply app_inv_head in Hsent.
    apply act_zoom_inj in Hsent. symmetry. exact Hsent.
Qed.

End ViewMessages.

Lemma view_messages_absolute_witness :
  pan_zoom (@on_messages collaborators
              [view_message "zoom" (0, 0) (Qc_of_Z 2);
               view_message "pan" (qf 1 4, qf 1 8) 1]
              fresh_graph)
  = (qf 1 4, qf 1 8, Qc_of_Z 2).
Proof.
  apply (@view_messages_absolute collaborators
           (view_message "zoom" (0, 0) (Qc_of_Z 2))
           (view_message "pan" (qf 1 4, qf 1 8) 1) fresh_graph);
    reflexivity.
Defined.

(** ** The padding of the minimap extent *)

Lemma Math_max_add (x y k : Qc) : Math_max (x + k) (y + k) = Math_max x y + k.
Proof.
  unfold Math_max.
  destruct (decide (x < y)) as [Hxy|Hxy];
    destruct (decide (x + k < y + k)) as [Hk|Hk]; try reflexivity.
  - exfalso. apply Hk. apply Qcplus_lt_mono_r. exact Hxy.
  - exfalso. apply Hxy. apply Qcplus_lt_mono_r in Hk. exact Hk.
Qed.

Lemma Qc_lt_sub (a p : Qc) : 0 < p -> a - p < a.
Proof.
  intros Hp. rewrite <- (Qcplus_0_r a) at 2. unfold Qcminus.
  apply Qcplus_lt_mono_l. apply Qc_opp_neg. exact Hp.
Qed.

Lemma Qc_lt_add (b p : Qc) : 0 < p -> b < b + p.
Proof.
  intros Hp. rewrite <- (Qcplus_0_r b) at 1.
  apply Qcplus_lt_mono_l. exact Hp.
Qed.

Lemma Qc_pos_neq (x : Qc) : 0 < x -> x <> 0.
Proof. intros Hx ->. inversion Hx. Qed.

Lemma Qc_inv_lt (x y : Qc) : 0 < x -> x < y -> 1 / y < 1 / x.
Proof.
  intros Hx Hxy.
  assert (Hy : 0 < y) by (eapply Qclt_trans; eassumption).
  apply (Qcmult_lt_mono_pos_r _ _ (x * y)); [apply Qcmult_pos_pos; assumption|].
  replace (1 / y * (x * y)) with x
    by (field; apply Qc_pos_neq; exact Hy).
  replace (1 / x * (x * y)) with y
    by (field; apply Qc_pos_neq; exact Hx).
  exact Hxy.
Qed.

Lemma minimap_view_eq ng (a b c d s : Qc) :
  minimap_view ng = (a, b, c, d, s) ->
  mm_min_x ng = a /\ mm_max_x ng = b /\ mm_min_y ng = c /\ mm_max_y ng = d
  /\ mm_scale ng = s.
Proof.
  unfold minimap_view, extent. intros E. injection E as -> -> -> -> ->. auto 10.
Qed.

Section Padding.
Context `{Collaborators}.


End Padding.


(** ** Moving and resizing an item *)

Section PosSize.
Context `{Collaborators}.

Lemma on_message_pos_size_eq (data : Message.t) ng item :
  Message.type data = Some "pos_size" ->
  svg_objects ng !! Message.uid data = Some item ->
  on_message data ng = Done (scaleMiniMap (moved data item ng)).
Proof. intros Ht Hi. unfold on_message. rewrite Ht, Hi. reflexivity. Qed.

Lemma scaleMiniMap_lookup ng (key : string) (i : NetGraphItem.t) :
  svg_objects ng !! key = Some i ->
  svg_objects (scaleMiniMap ng) !! key = Some i
  \/ svg_objects (scaleMiniMap ng) !! key = Some (NetGraphItem.redraw i).
Proof.
  intros Hi. destruct (scaleMiniMap_registries ng) as [E|E];
    apply registries_eq in E as (-> & _).
  - left. exact Hi.
  - right. rewrite lookup_fmap, Hi. reflexivity.
Qed.


End PosSize.


(** ** Waiting for an item and being notified *)

Section RoundTrip.
Context `{Collaborators}.

(** X20: Registration and detection fit together: on a diagram whose
    index has no duplicates, a connection that registers for an ordinary
    uid and was not removed is notified exactly once when the uid is
    detected (both endpoints resolved again, one redraw), whether or not it
    was registered for that uid before.  The endpoint candidates of the
    connections are ordinary uids, and a connection waits for candidates of
    its own. *)
Theorem register_then_detect (l : loc) (uid : string) ng c :
  waits_for_candidates ->
  ordinary_connections ng ->
  ordinary uid ->
  index_ok ng ->
  conns ng !! l = Some c ->
  NetGraphConnection.removed c = false ->
  let ng' := detect_collapsed_conns uid (register_conn l uid ng) in
  conns ng' !! l = Some (renotified ng c) /\
  NetGraphConnection.redraws (renotified ng c)
  = S (NetGraphConnection.redraws c).
Proof.
  intros _ _ _ Hok Hl Hrem. cbv zeta.
  assert (Hl' : conns (register_conn l uid ng) !! l = Some c)
    by (rewrite register_conn_conns; exact Hl).
  rewrite (detect_collapsed_conns_lookup uid _ l c Hl').
  pose proof (index_ok_register_conn l uid ng Hok l uid) as Hle.
  unfold entries in Hle.
  fold (occurrences l
          (default [] (collapsed_conns (register_conn l uid ng) !! uid))) in Hle.
  pose proof (occurrences_0 l
                (default [] (collapsed_conns (register_conn l uid ng) !! uid)))
    as H0.
  pose proof (register_conn_registered l uid ng) as Hin.
  destruct (occurrences l
              (default [] (collapsed_conns (register_conn l uid ng) !! uid)))
    as [|[|n]]; [| |lia].
  - exfalso. apply (proj1 H0); [reflexivity|exact Hin].
  - cbn [Nat.iter nat_rect].
    rewrite (notified_frame ng (register_conn l uid ng))
      by apply resolver_frame_register_conn.
    unfold notified. rewrite Hrem. split; reflexivity.
Qed.

(** X21: The constructor leaves a diagram with the offsets 0 and the
    scale 1, no item, no connection and nothing waiting, and with the
    minimap hidden, its extent zero and its scale 1/10.  Nothing is sent to
    the server.  A uid that starts with "<" is reported on the console and
    changes nothing else. *)
Theorem new_NetGraph_state (settings : Config) (uid : string)
    (width height tool_height mm_width mm_height : Qc) :
  let ng :=
    new_NetGraph settings uid width height tool_height mm_width mm_height in
  pan_zoom ng = (0, 0, 1) /\
  registries ng = (∅, ∅, ∅, ∅) /\ collapsed_conns ng = ∅ /\ conns ng = [] /\
  mm_display ng = false /\ minimap_view ng = (0, 0, 0, 0, qf 1 10) /\
  geometry ng = (width, height, tool_height) /\
  sent ng = [] /\
  trace ng
  = (if invalid_uid uid
     then [console_warn ("invalid uid for NetGraph: " +:+ uid)] else [])
    ++ [minimap_visibility false;
        css_font_size
          (if zoom_fonts settings
           then Qc_of_Z 3 * 1 * font_size settings / Qc_of_Z 100
           else font_size settings / Qc_of_Z 100)].
Proof.
  cbv zeta. unfold new_NetGraph, toggleMiniMap. cbv zeta.
  cbn [mm_display]. unfold update_fonts.
  cbn [config with_mm_display emit with_trace scale].
  destruct (zoom_fonts settings); destruct (invalid_uid uid);
    repeat split; reflexivity.
Qed.

End RoundTrip.

Lemma register_then_detect_witness :
  NetGraphConnection.redraws
  <$> conns (@detect_collapsed_conns collaborators "n3"
               (register_conn 1%nat "n3" waiting_graph)) !! 1%nat
  = Some 1%nat.
Proof.
  assert (Hc : exists c, conns waiting_graph !! 1%nat = Some c
                         /\ NetGraphConnection.removed c = false
                         /\ NetGraphConnection.redraws c = 0%nat).
  { eexists. split; [vm_compute; reflexivity|]. split; reflexivity. }
  destruct Hc as (c & Hl & Hrem & Hred).
  destruct (@register_then_detect collaborators 1%nat "n3" waiting_graph c)
    as [E Hone].
  - exact deepest_existing_waits.
  - ordinary_uid.
  - ordinary_uid.
  - intros conn target.
    destruct (decide (target = "n2")) as [->|Hne].
    + destruct conn as [|[|conn]]; vm_compute; lia.
    + unfold entries.
      assert (E : collapsed_conns waiting_graph = {["n2" := [0; 1]%nat]})
        by (vm_compute; reflexivity).
      rewrite E, lookup_singleton_ne by (intros E'; apply Hne; symmetry; exact E').
      cbn. lia.
  - exact Hl.
  - exact Hrem.
  - rewrite E. cbn [fmap option_fmap option_map]. rewrite Hone, Hred.
    reflexivity.
Defined.

(** ** What the gestures of the user keep *)

Lemma settled_refl ng : settled ng ng.
Proof. split; reflexivity. Qed.

Lemma settled_trans ng1 ng2 ng3 :
  settled ng1 ng2 -> settled ng2 ng3 -> settled ng1 ng3.
Proof.
  intros [Hk1 Hc1] [Hk2 Hc2]. split.
  - rewrite Hk2. exact Hk1.
  - rewrite Hc2. exact Hc1.
Qed.

Lemma settled_emit e ng : settled ng (emit e ng).
Proof. split; reflexivity. Qed.

Lemma settled_redraw ng : settled ng (redraw ng).
Proof. split; [apply keys_redraw|]. rewrite redraw_unfold. reflexivity. Qed.

Lemma settled_update_fonts ng : settled ng (update_fonts ng).
Proof. unfold update_fonts. destruct (zoom_fonts _); apply settled_emit. Qed.

Lemma settled_set_scale (val : Qc) ng : settled ng (set_scale val ng).
Proof.
  unfold set_scale. destruct (decide (val = scale ng)); [apply settled_refl|].
  cbv zeta.
  eapply settled_trans; [|apply settled_emit].
  eapply settled_trans; [|apply settled_redraw].
  eapply settled_trans; [|apply settled_update_fonts].
  split; reflexivity.
Qed.

Lemma settled_scaleMiniMapViewBox ng : settled ng (scaleMiniMapViewBox ng).
Proof.
  unfold scaleMiniMapViewBox. destruct (negb (mm_display ng));
    [apply settled_refl|].
  split; reflexivity.
Qed.

Lemma settled_drag_onmove_item key ng :
  settled ng (state_of (drag_onmove_item key ng)).
Proof.
  destruct (drag_onmove_item_cases key ng) as (Hhid & Hshown).
  assert (H0 : settled ng
                 (with_svg_objects
                    (alter NetGraphItem.redraw_position key (svg_objects ng)) ng)).
  { split; [apply keys_alter|reflexivity]. }
  destruct (mm_display ng) eqn:Hd.
  - destruct (Hshown eq_refl) as (Hin & Hout).
    destruct (decide (key ∈ dom (minimap_objects ng))) as [Hk|Hk].
    + rewrite (Hin Hk). cbn [state_of].
      eapply settled_trans; [exact H0|]. split; [|reflexivity].
      apply keys_eq; try reflexivity.
      cbn [minimap_objects with_minimap_objects]. apply dom_alter_L.
    + rewrite (Hout Hk). exact H0.
  - rewrite (Hhid eq_refl). exact H0.
Qed.

Lemma settled_drag_onmove (event : DragEvent) ng :
  settled ng (state_of (drag_onmove event ng)).
Proof.
  unfold drag_onmove. cbv zeta.
  match goal with
  | |- settled _ (state_of (foldl ?f (Done ?s0) ?es >>> _)) =>
      assert (Hitems : settled ng (state_of (foldl f (Done s0) es)))
  end.
  { match goal with
    | |- settled _ (state_of (foldl ?f ?o ?es)) =>
        assert (Hgen : forall es' o', settled ng (state_of o') ->
                                      settled ng (state_of (foldl f o' es')))
    end.
    { induction es' as [|e es' IH]; intros o' Ho'; [exact Ho'|].
      cbn [foldl]. apply IH. destruct o' as [s|s]; [|exact Ho'].
      cbn [and_then]. eapply settled_trans; [exact Ho'|].
      apply settled_drag_onmove_item. }
    apply Hgen. split; reflexivity. }
  match goal with
  | |- settled _ (state_of (?o >>> _)) => destruct o as [s|s]
  end; [|exact Hitems].
  cbn [and_then state_of] in *.
  eapply settled_trans; [exact Hitems|].
  eapply settled_trans; [|apply settled_scaleMiniMapViewBox].
  eapply settled_trans; [|apply settled_emit].
  rewrite redraw_conns_fold. split; reflexivity.
Qed.

Lemma settled_drag (ticks : list DragEvent) ng : settled ng (drag ticks ng).
Proof.
  unfold drag, drag_onend, notify, drag_moves, drag_onstart.
  eapply settled_trans; [|apply settled_emit].
  apply (foldl_invariant (settled ng)); [|apply settled_emit].
  intros s e Hs. eapply settled_trans; [exact Hs|apply settled_drag_onmove].
Qed.

Lemma sent_drag (ticks : list DragEvent) ng :
  length (sent (drag ticks ng)) = S (length (sent ng)).
Proof.
  unfold drag, drag_onend. rewrite sent_notify, length_app.
  destruct (drag_view_eq _ _ _ _ _ _ _ (drag_view_moves ticks (drag_onstart ng)))
    as (_ & _ & _ & _ & _ & ->).
  unfold drag_onstart. rewrite sent_emit_other by not_sent. cbn. lia.
Qed.

Lemma settled_wheel_zoom (x y z_scale : Qc) ng :
  settled ng (wheel_zoom x y z_scale ng).
Proof.
  unfold wheel_zoom, notify. cbv zeta.
  eapply settled_trans; [|apply settled_emit].
  eapply settled_trans; [|apply settled_redraw].
  eapply settled_trans; [|apply settled_scaleMiniMapViewBox].
  eapply settled_trans; [|apply settled_emit].
  eapply settled_trans; [|apply settled_set_scale].
  split; reflexivity.
Qed.

Lemma settled_settings ng :
  (forall val, settled ng (set_zoom_fonts val ng)) /\
  (forall val, settled ng (set_font_size val ng)) /\
  (forall val, settled ng (set_aspect_resize val ng)).
Proof.
  split; [|split]; intros val.
  - unfold set_zoom_fonts. destruct (decide _); [apply settled_refl|].
    cbv zeta. eapply settled_trans; [|apply settled_update_fonts].
    split; reflexivity.
  - unfold set_font_size. destruct (decide _); [apply settled_refl|].
    cbv zeta. eapply settled_trans; [|apply settled_update_fonts].
    split; reflexivity.
  - unfold set_aspect_resize. destruct (decide _); [apply settled_refl|].
    split; reflexivity.
Qed.

Lemma sent_settings ng :
  (forall val, sent (set_zoom_fonts val ng) = sent ng) /\
  (forall val, sent (set_font_size val ng) = sent ng) /\
  (forall val, sent (set_aspect_resize val ng) = sent ng).
Proof.
  split; [|split]; intros val.
  - unfold set_zoom_fonts. destruct (decide _); [reflexivity|].
    cbv zeta. rewrite sent_update_fonts. reflexivity.
  - unfold set_font_size. destruct (decide _); [reflexivity|].
    cbv zeta. rewrite sent_update_fonts. reflexivity.
  - unfold set_aspect_resize. destruct (decide _); reflexivity.
Qed.

Section GestureProperties.
Context `{Collaborators} `{Viewport}.

Lemma settled_scaleMiniMap ng : settled ng (scaleMiniMap ng).
Proof.
  split; [apply keys_scaleMiniMap|].
  destruct (mm_display ng) eqn:Hdisplay.
  2:{ unfold scaleMiniMap. rewrite Hdisplay. reflexivity. }
  destruct (decide (svg_objects ng = ∅)) as [Hempty|Hitems].
  { unfold scaleMiniMap.
    rewrite Hdisplay, Hempty, map_to_list_empty. reflexivity. }
  rewrite (scaleMiniMap_unfold ng Hdisplay Hitems). cbv zeta.
  generalize (foldl extent_step (true, extent ng)
                (map_to_list (svg_objects ng)).*2).2.
  intros box.
  destruct (settled_scaleMiniMapViewBox
              (redraw
                 (with_mm_scale (scale_of (padded box))
                    (with_extent (padded box)
                       (with_mm_scale (scale_of box) (with_extent box ng))))))
    as [_ ->].
  rewrite redraw_unfold.
  destruct (padded box) as [[[a' b'] c'] d']. destruct box as [[[a b] c] d].
  reflexivity.
Qed.

Lemma settled_toggleMiniMap ng : settled ng (toggleMiniMap ng).
Proof.
  unfold toggleMiniMap. destruct (mm_display ng); [split; reflexivity|].
  eapply settled_trans; [|apply settled_scaleMiniMap]. split; reflexivity.
Qed.

Lemma sent_toggleMiniMap ng : sent (toggleMiniMap ng) = sent ng.
Proof.
  unfold toggleMiniMap. destruct (mm_display ng).
  - apply (sent_emit_other (minimap_visibility false) ng). not_sent.
  - destruct (scaleMiniMap_calm
                (with_mm_display true (emit (minimap_visibility true) ng)))
      as (-> & _).
    apply (sent_emit_other (minimap_visibility true) ng). not_sent.
Qed.

Lemma settled_on_resize (m : Measured) ng : settled ng (on_resize m ng).
Proof.
  unfold on_resize. cbv zeta.
  eapply settled_trans; [|apply settled_redraw].
  destruct (aspect_resize (config ng)); split; try reflexivity.
  apply keys_eq; try reflexivity.
  cbn [svg_objects with_svg_objects with_mm_height with_mm_width
       with_height with_width].
  apply dom_fmap_L.
Qed.

Lemma sent_on_resize (m : Measured) ng : sent (on_resize m ng) = sent ng.
Proof.
  unfold on_resize. cbv zeta. rewrite sent_redraw.
  destruct (aspect_resize (config ng)); reflexivity.
Qed.

Lemma perform_settled (g : Gesture) ng :
  settled ng (perform g ng) /\
  length (sent (perform g ng))
  = (length (sent ng) + if notifies g then 1 else 0)%nat.
Proof.
  destruct g as [ticks|event|m| |val|val|val|]; cbn [perform notifies].
  - split; [apply settled_drag|]. rewrite sent_drag. lia.
  - split.
    + rewrite on_wheel_unfold.
      eapply settled_trans; [|apply settled_wheel_zoom]. apply settled_emit.
    + rewrite sent_on_wheel, length_app. cbn. lia.
  - split; [apply settled_on_resize|]. rewrite sent_on_resize. lia.
  - split; [apply settled_toggleMiniMap|]. rewrite sent_toggleMiniMap. lia.
  - split; [apply settled_settings|].
    rewrite (proj1 (sent_settings ng)). lia.
  - split; [apply settled_settings|].
    rewrite (proj1 (proj2 (sent_settings ng))). lia.
  - split; [apply settled_settings|].
    rewrite (proj2 (proj2 (sent_settings ng))). lia.
  - unfold auto_layout. split; [apply settled_emit|].
    rewrite sent_notify, length_app. cbn. lia.
Qed.


End GestureProperties.


(** ** Creating the item a connection waits for *)

Lemma iter_redraw (k : nat) (c : NetGraphConnection.t) :
  Nat.iter k
    (fun c => NetGraphConnection.with_redraws
                (S (NetGraphConnection.redraws c)) c) c
  = NetGraphConnection.with_redraws (NetGraphConnection.redraws c + k) c.
Proof.
  induction k as [|k IH].
  - destruct c. unfold NetGraphConnection.with_redraws. cbn. f_equal. lia.
  - rewrite Nat.iter_succ, IH. destruct c.
    unfold NetGraphConnection.with_redraws. cbn. f_equal. lia.
Qed.

Lemma redraw_conns_lookup (ls : list loc) (cs : list NetGraphConnection.t)
    (l : loc) (c : NetGraphConnection.t) :
  cs !! l = Some c ->
  exists k,
    redraw_conns ls cs !! l
    = Some (NetGraphConnection.with_redraws
              (NetGraphConnection.redraws c + k) c).
Proof.
  intros Hl. exists (occurrences l ls). unfold redraw_conns.
  rewrite foldl_alter_lookup, Hl. cbn [fmap option_fmap option_map].
  rewrite iter_redraw. reflexivity.
Qed.

Section Resolves.
Context `{Collaborators}.

Lemma scaleMiniMap_conns ng l c :
  conns ng !! l = Some c ->
  exists k,
    conns (scaleMiniMap ng) !! l
    = Some (NetGraphConnection.with_redraws
              (NetGraphConnection.redraws c + k) c).
Proof.
  intros Hl.
  assert (Hsame : exists k,
             conns ng !! l
             = Some (NetGraphConnection.with_redraws
                       (NetGraphConnection.redraws c + k) c)).
  { exists 0%nat. rewrite Hl. destruct c.
    unfold NetGraphConnection.with_redraws. cbn. do 2 f_equal. lia. }
  destruct (mm_display ng) eqn:Hdisplay.
  2:{ unfold scaleMiniMap. rewrite Hdisplay. exact Hsame. }
  destruct (decide (svg_objects ng = ∅)) as [Hempty|Hitems].
  { unfold scaleMiniMap.
    rewrite Hdisplay, Hempty, map_to_list_empty. exact Hsame. }
  rewrite (scaleMiniMap_unfold ng Hdisplay Hitems). cbv zeta.
  generalize (foldl extent_step (true, extent ng)
                (map_to_list (svg_objects ng)).*2).2.
  intros box.
  assert (Ec : forall s, conns (scaleMiniMapViewBox s) = conns s).
  { intros s. unfold scaleMiniMapViewBox.
    destruct (negb (mm_display s)); reflexivity. }
  rewrite Ec, redraw_unfold.
  destruct (padded box) as [[[a' b'] c'] d']. destruct box as [[[a b] c0] d].
  cbn [conns with_conns].
  apply redraw_conns_lookup. exact Hl.
Qed.

Lemma resolved_in_frame ng ng' c :
  resolver_frame ng ng' -> resolved_in ng' c <-> resolved_in ng c.
Proof.
  intros Hf. unfold resolved_in. rewrite (objects_of_frame c ng ng' Hf).
  reflexivity.
Qed.

Lemma resolved_in_renotified ng c : resolved_in ng (renotified ng c).
Proof. split; reflexivity. Qed.

Lemma resolved_in_notified ng c :
  resolved_in ng c -> resolved_in ng (notified ng c).
Proof.
  intros Hr. unfold notified. destruct (NetGraphConnection.removed c);
    [exact Hr|apply resolved_in_renotified].
Qed.

Lemma resolved_in_iter ng (n : nat) c :
  resolved_in ng c -> resolved_in ng (Nat.iter n (notified ng) c).
Proof.
  intros Hr. induction n as [|n IH]; [exact Hr|].
  rewrite Nat.iter_succ. apply resolved_in_notified. exact IH.
Qed.

Lemma redraws_notified ng c :
  (NetGraphConnection.redraws c
   <= NetGraphConnection.redraws (notified ng c))%nat.
Proof.
  unfold notified. destruct (NetGraphConnection.removed c); cbn; lia.
Qed.

Lemma redraws_iter ng (n : nat) c :
  (NetGraphConnection.redraws c
   <= NetGraphConnection.redraws (Nat.iter n (notified ng) c))%nat.
Proof.
  induction n as [|n IH]; [cbn; lia|].
  rewrite Nat.iter_succ. etransitivity; [exact IH|apply redraws_notified].
Qed.

Lemma inputs_iter ng (n : nat) c :
  resolution_inputs (Nat.iter n (notified ng) c) = resolution_inputs c.
Proof.
  induction n as [|n IH]; [reflexivity|].
  rewrite Nat.iter_succ, notified_inputs. exact IH.
Qed.

Lemma create_object_unfold (info : Message.t) ng :
  create_object info ng
  = scaleMiniMap
      (detect_collapsed_conns (Message.uid info)
         (detect_collapsed_conns (Message.uid info) (created info ng))).
Proof. reflexivity. Qed.

(** X24: when an item is created under an ordinary uid, every connection
    that waits for its uid and was not removed ends with both endpoints
    resolved against the registries that hold the new item, and has been
    redrawn at least once; its candidates are as they were.  The endpoint
    candidates of the connections are ordinary uids; the resolution policy
    is any policy that makes a connection wait for candidates of its
    own. *)
Theorem create_object_resolves (info : Message.t) ng l c :
  waits_for_candidates ->
  ordinary_connections ng ->
  ordinary (Message.uid info) ->
  conns ng !! l = Some c ->
  NetGraphConnection.removed c = false ->
  l ∈ default [] (collapsed_conns ng !! Message.uid info) ->
  exists c',
    conns (create_object info ng) !! l = Some c' /\
    resolved_in (created info ng) c' /\
    (NetGraphConnection.redraws c < NetGraphConnection.redraws c')%nat /\
    resolution_inputs c' = resolution_inputs c.
Proof.
  intros _ _ _ Hl Hrem Hin. rewrite create_object_unfold.
  set (ng2 := created info ng).
  assert (Hl2 : conns ng2 !! l = Some c) by exact Hl.
  pose proof (detect_collapsed_conns_lookup (Message.uid info) ng2 l c Hl2) as H3.
  change (collapsed_conns ng2) with (collapsed_conns ng) in H3.
  set (n1 := occurrences l (default [] (collapsed_conns ng !! Message.uid info)))
    in H3.
  assert (Hn1 : n1 <> 0%nat).
  { intros E. apply occurrences_0 in E. apply E. exact Hin. }
  destruct n1 as [|n1]; [contradiction|].
  rewrite Nat.iter_succ_r in H3.
  set (c1 := Nat.iter n1 (notified ng2) (notified ng2 c)) in H3.
  assert (Hr1 : resolved_in ng2 c1).
  { apply resolved_in_iter. unfold notified. rewrite Hrem.
    apply resolved_in_renotified. }
  assert (Hd1 : (NetGraphConnection.redraws c
                 < NetGraphConnection.redraws c1)%nat).
  { eapply Nat.lt_le_trans; [|apply redraws_iter].
    unfold notified. rewrite Hrem. cbn. lia. }
  assert (Hi1 : resolution_inputs c1 = resolution_inputs c).
  { unfold c1. rewrite inputs_iter. apply notified_inputs. }
  set (ng3 := detect_collapsed_conns (Message.uid info) ng2) in *.
  assert (Hf3 : resolver_frame ng2 ng3)
    by apply detect_collapsed_conns_frame.
  pose proof (detect_collapsed_conns_lookup (Message.uid info) ng3 l c1 H3) as H4.
  set (n2 := occurrences l
               (default [] (collapsed_conns ng3 !! Message.uid info))) in H4.
  set (c2 := Nat.iter n2 (notified ng3) c1) in H4.
  assert (Hr2 : resolved_in ng2 c2).
  { apply (resolved_in_frame ng2 ng3 c2 Hf3). apply resolved_in_iter.
    apply (resolved_in_frame ng2 ng3 c1 Hf3). exact Hr1. }
  assert (Hd2 : (NetGraphConnection.redraws c
                 < NetGraphConnection.redraws c2)%nat).
  { eapply Nat.lt_le_trans; [exact Hd1|apply redraws_iter]. }
  assert (Hi2 : resolution_inputs c2 = resolution_inputs c).
  { unfold c2. rewrite inputs_iter. exact Hi1. }
  destruct (scaleMiniMap_conns _ l c2 H4) as (k & E).
  eexists. split; [exact E|]. split; [|split].
  - destruct Hr2 as [Hp Hq]. split; [exact Hp|exact Hq].
  - cbn. lia.
  - exact Hi2.
Qed.

End Resolves.

Lemma create_object_resolves_witness :
  exists c',
    conns (@create_object collaborators (item_message "net" "net2")
             nested_graph) !! 1%nat = Some c' /\
    NetGraphConnection.post c' = Some "net2".
Proof.
  assert (Hc : exists c, conns nested_graph !! 1%nat = Some c
                         /\ NetGraphConnection.removed c = false
                         /\ NetGraphConnection.posts c = ["net2"; "n2"]
                         /\ NetGraphConnection.minimap c = false).
  { eexists. split; [vm_compute; reflexivity|]. repeat split; reflexivity. }
  destruct Hc as (c & Hl & Hrem & Hposts & Hmini).
  destruct (@create_object_resolves collaborators (item_message "net" "net2")
              nested_graph 1%nat c deepest_existing_waits)
    as (c' & E & [_ Hpost] & _ & Hinputs).
  - ordinary_uid.
  - ordinary_uid.
  - exact Hl.
  - exact Hrem.
  - assert (Ei : collapsed_conns nested_graph = {["net2" := [0; 1]%nat]})
      by (vm_compute; reflexivity).
    cbn [Message.uid item_message]. rewrite Ei, lookup_singleton_eq.
    cbn [default]. apply list_elem_of_further, list_elem_of_here.
  - exists c'. split; [exact E|]. rewrite Hpost.
    assert (Hp' : NetGraphConnection.posts c' = ["net2"; "n2"]).
    { transitivity (NetGraphConnection.posts c); [|exact Hposts].
      exact (f_equal (fun v => v.1.1.2) Hinputs). }
    assert (Hm' : NetGraphConnection.minimap c' = false).
    { transitivity (NetGraphConnection.minimap c); [|exact Hmini].
      exact (f_equal snd Hinputs). }
    rewrite Hp'. unfold objects_of. rewrite Hm'. vm_compute. reflexivity.
Defined.

(** ** The view box of the minimap during a drag *)

Lemma scaleMiniMapViewBox_shown s :
  mm_display s = true ->
  trace (scaleMiniMapViewBox s)
  = trace s
    ++ [view_set_attribute "x" (view_x s); view_set_attribute "y" (view_y s);
        view_set_attribute "width" (view_width s);
        view_set_attribute "height" (view_height s)].
Proof.
  intros Hd. unfold scaleMiniMapViewBox. rewrite Hd. cbn [negb]. cbv zeta.
  rewrite !emit_trace, <- !app_assoc. reflexivity.
Qed.

Lemma minimap_frame_eq s s' :
  minimap_frame s' = minimap_frame s ->
  mm_min_x s' = mm_min_x s /\ mm_max_x s' = mm_max_x s /\
  mm_min_y s' = mm_min_y s /\ mm_max_y s' = mm_max_y s /\
  mm_scale s' = mm_scale s /\ mm_width s' = mm_width s /\
  mm_height s' = mm_height s.
Proof.
  unfold minimap_frame, minimap_view, extent. intros E.
  injection E as -> -> -> -> -> -> ->. auto 10.
Qed.

Lemma view_box_eq s s' :
  minimap_frame s' = minimap_frame s -> pan_zoom s' = pan_zoom s ->
  view_x s' = view_x s /\ view_y s' = view_y s /\
  view_width s' = view_width s /\ view_height s' = view_height s.
Proof.
  intros Hf Hp. apply minimap_frame_eq in Hf as (E1 & E2 & E3 & E4 & E5 & E6 & E7).
  apply pan_zoom_eq in Hp as (E8 & E9 & E10).
  unfold view_x, view_y, view_width, view_height.
  rewrite E1, E2, E3, E4, E5, E6, E7, E8, E9, E10. auto.
Qed.


